(** * Aurora chat endpoint ([api/chat.ts]): a shallow embedding and its properties

    The serverless handler of [api/chat.ts] is embedded function by function.
    JavaScript values that reach the handler from outside (the request body,
    the JSON bodies of upstream replies) are an inductive type [value]; the
    module-level [searchCache], the clock read by [Date.now()] and the log of
    requests sent to the search provider form an explicit [State]; everything
    the host and the network decide (environment variables, [JSON.parse],
    [fetch] replies) is a field of a [World].  A thrown exception is the
    [Raised] case of [attempt]. *)

From Stdlib Require Import String Ascii List ZArith QArith Bool Lia.
Import ListNotations.

Open Scope string_scope.
Open Scope Z_scope.

(** ** JavaScript strings

    A string is the sequence of its UTF-8 bytes (units).  A code unit that is
    an unpaired surrogate has no UTF-8 form; it is written as the three units
    UTF-8 would give its value (237, then 160..191, then one more), the only
    place where a unit 237 is followed by a unit above 159.

    This program only looks for ASCII words in a lower-cased text and tests
    whether it is blank, so [toLowerCase] converts what those tests can see:
    the ASCII letters and the two characters outside ASCII whose lower case
    has an ASCII letter, U+212A (Kelvin sign, to [k]) and U+0130 (capital I
    with dot, to [i] and U+0307).  Every other character is left as it is;
    [toUpperCase] converts the ASCII letters only. *)

Module Js.

Definition is_upper (c : ascii) : bool :=
  (Nat.leb 65 (nat_of_ascii c) && Nat.leb (nat_of_ascii c) 90)%bool.

Definition is_lower (c : ascii) : bool :=
  (Nat.leb 97 (nat_of_ascii c) && Nat.leb (nat_of_ascii c) 122)%bool.

Definition is_digit (c : ascii) : bool :=
  (Nat.leb 48 (nat_of_ascii c) && Nat.leb (nat_of_ascii c) 57)%bool.

Definition lower_unit (c : ascii) : ascii :=
  if is_upper c then ascii_of_nat (nat_of_ascii c + 32) else c.

Definition upper_unit (c : ascii) : ascii :=
  if is_lower c then ascii_of_nat (nat_of_ascii c - 32) else c.

Definition unit_is (n : nat) (c : ascii) : bool := Nat.eqb (nat_of_ascii c) n.

(** The ASCII letters in lower case, every other unit as it is. *)
Fixpoint lower_units (s : string) : string :=
  match s with
  | EmptyString => EmptyString
  | String c s' => String (lower_unit c) (lower_units s')
  end.

(** U+0130 is the units 196 176; its lower case is [i] and U+0307, the units
    204 135. *)
Definition is_dotted_I (c1 c2 : ascii) : bool :=
  (unit_is 196 c1 && unit_is 176 c2)%bool.

Definition dot_above (s : string) : string :=
  String (ascii_of_nat 204) (String (ascii_of_nat 135) s).

(** U+212A is the units 226 132 170. *)
Definition is_kelvin (c1 c2 c3 : ascii) : bool :=
  (unit_is 226 c1 && unit_is 132 c2 && unit_is 170 c3)%bool.

Fixpoint toLowerCase (s : string) : string :=
  match s with
  | EmptyString => EmptyString
  | String c1 s1 =>
      match s1 with
      | String c2 s2 =>
          if is_dotted_I c1 c2 then String "i" (dot_above (toLowerCase s2))
          else
            match s2 with
            | String c3 s3 =>
                if is_kelvin c1 c2 c3 then String "k" (toLowerCase s3)
                else String (lower_unit c1) (toLowerCase s1)
            | EmptyString => String (lower_unit c1) (toLowerCase s1)
            end
      | EmptyString => String (lower_unit c1) EmptyString
      end
  end.

Fixpoint toUpperCase (s : string) : string :=
  match s with
  | EmptyString => EmptyString
  | String c s' => String (upper_unit c) (toUpperCase s')
  end.

(** [s.includes(t)]: [t] occurs in [s] at some position. *)
Fixpoint includes (s t : string) : bool :=
  (prefix t s ||
   match s with
   | EmptyString => false
   | String _ s' => includes s' t
   end)%bool.

(** The white space of one unit: TAB, LF, VT, FF, CR and the space. *)
Definition is_space (c : ascii) : bool :=
  ((Nat.leb 9 (nat_of_ascii c) && Nat.leb (nat_of_ascii c) 13)
   || Nat.eqb (nat_of_ascii c) 32)%bool.

(** The white space of two units: U+00A0, the units 194 160. *)
Definition is_nbsp (c1 c2 : ascii) : bool :=
  (unit_is 194 c1 && unit_is 160 c2)%bool.

(** The white space of three units: U+1680 (225 154 128), U+2000..U+200A
    (226 128 128..138), U+2028, U+2029 and U+202F (226 128 168, 169, 175),
    U+205F (226 129 159), U+3000 (227 128 128) and U+FEFF (239 187 191). *)
Definition is_wide_space (c1 c2 c3 : ascii) : bool :=
  ((unit_is 225 c1 && unit_is 154 c2 && unit_is 128 c3)
   || (unit_is 226 c1 && unit_is 128 c2
       && ((Nat.leb 128 (nat_of_ascii c3) && Nat.leb (nat_of_ascii c3) 138)
           || unit_is 168 c3 || unit_is 169 c3 || unit_is 175 c3))
   || (unit_is 226 c1 && unit_is 129 c2 && unit_is 159 c3)
   || (unit_is 227 c1 && unit_is 128 c2 && unit_is 128 c3)
   || (unit_is 239 c1 && unit_is 187 c2 && unit_is 191 c3))%bool.

(** What follows the white-space character at the head of [s], if there is
    one. *)
Definition after_space (s : string) : option string :=
  match s with
  | EmptyString => None
  | String c1 s1 =>
      if is_space c1 then Some s1
      else
        match s1 with
        | String c2 s2 =>
            if is_nbsp c1 c2 then Some s2
            else
              match s2 with
              | String c3 s3 => if is_wide_space c1 c2 c3 then Some s3 else None
              | EmptyString => None
              end
        | EmptyString => None
        end
  end.

Fixpoint trimStart (s : string) : string :=
  match s with
  | EmptyString => EmptyString
  | String c1 s1 =>
      if is_space c1 then trimStart s1
      else
        match s1 with
        | String c2 s2 =>
            if is_nbsp c1 c2 then trimStart s2
            else
              match s2 with
              | String c3 s3 => if is_wide_space c1 c2 c3 then trimStart s3 else s
              | EmptyString => s
              end
        | EmptyString => s
        end
  end.

Definition is_empty (s : string) : bool :=
  match s with EmptyString => true | _ => false end.

(** Nothing but white space. *)
Definition blank (s : string) : bool := is_empty (trimStart s).

(** The text up to the point from which nothing but white space follows. *)
Fixpoint trimEnd (s : string) : string :=
  match s with
  | EmptyString => EmptyString
  | String c s' => if blank s then EmptyString else String c (trimEnd s')
  end.

Definition trim (s : string) : string := trimEnd (trimStart s).

(** [s.isWellFormed()]: no unpaired surrogate.  [encodeURIComponent] throws
    on the others. *)
Fixpoint isWellFormed (s : string) : bool :=
  match s with
  | EmptyString => true
  | String c1 s1 =>
      (match s1 with
       | String c2 _ => negb (unit_is 237 c1 && Nat.leb 160 (nat_of_ascii c2))
       | EmptyString => true
       end && isWellFormed s1)%bool
  end.

(** A word character of a regular expression: [[A-Za-z0-9_]]. *)
Definition is_word (c : ascii) : bool :=
  (is_upper c || is_lower c || is_digit c || Nat.eqb (nat_of_ascii c) 95)%bool.

(** The unit of [s] that follows a prefix of the length of [t], if any. *)
Fixpoint unit_after (t s : string) : option ascii :=
  match t, s with
  | EmptyString, EmptyString => None
  | EmptyString, String c _ => Some c
  | String _ t', String _ s' => unit_after t' s'
  | String _ _, EmptyString => None
  end.

(** [/\bT\b/i.test(s)] for a lower-case ASCII word [t]: some occurrence of
    [t] in [s], the case of ASCII letters ignored, with no word character on
    either side.  Without the flag [u] a character outside ASCII never
    matches an ASCII letter. *)
Fixpoint word_test_from (prev_is_word : bool) (t s : string) : bool :=
  (negb prev_is_word && prefix t (lower_units s)
   && match unit_after t s with Some c => negb (is_word c) | None => true end
   || match s with
      | EmptyString => false
      | String c s' => word_test_from (is_word c) t s'
      end)%bool.

Definition word_test (t s : string) : bool := word_test_from false t s.

End Js.

(** ** Exceptions *)

Inductive attempt (A : Type) : Type :=
| Done (a : A)
| Raised.

Arguments Done {A} a.
Arguments Raised {A}.

Definition abind {A B : Type} (x : attempt A) (f : A -> attempt B) : attempt B :=
  match x with
  | Done a => f a
  | Raised => Raised
  end.

Notation "'try!' x <- e ; k" := (abind e (fun x => k))
  (at level 10, x name, e at level 100, k at level 200).

(** [try { e } catch { d }] *)
Definition catch {A : Type} (e : attempt A) (d : A) : A :=
  match e with
  | Done a => a
  | Raised => d
  end.

(** [try { e } catch { h }] where the handler [h] may itself throw. *)
Definition catch_with {A : Type} (e h : attempt A) : attempt A :=
  match e with
  | Done a => Done a
  | Raised => h
  end.

Fixpoint amap {A B : Type} (f : A -> attempt B) (l : list A) : attempt (list B) :=
  match l with
  | [] => Done []
  | a :: l' =>
      try! b <- f a;
      try! bs <- amap f l';
      Done (b :: bs)
  end.

(** ** JavaScript values *)

#[warnings="-register-all"] Inductive value : Type :=
| VUndefined
| VNull
| VBool (b : bool)
| VNum (x : Q)
| VStr (s : string)
| VArr (items : list value)
| VObj (props : list (string * value)).

(** Own properties of an object literal, first binding of a name. *)
Fixpoint own_prop (props : list (string * value)) (k : string) : value :=
  match props with
  | [] => VUndefined
  | (k', v) :: rest => if String.eqb k' k then v else own_prop rest k
  end.

(** [v.k] for one of the property names this program reads ([messages],
    [role], [text], [choices], [webPages], ...).  Reading a property of
    [undefined] or [null] throws; none of these names is defined on a
    primitive or on an array. *)
Definition getProp (v : value) (k : string) : attempt value :=
  match v with
  | VUndefined | VNull => Raised
  | VObj props => Done (own_prop props k)
  | VBool _ | VNum _ | VStr _ | VArr _ => Done VUndefined
  end.

Definition nullish (v : value) : bool :=
  match v with
  | VUndefined | VNull => true
  | _ => false
  end.

(** [v?.k] *)
Definition optProp (v : value) (k : string) : value :=
  catch (getProp v k) VUndefined.

(** [v?.[0]] *)
Definition optIndex0 (v : value) : value :=
  match v with
  | VArr (x :: _) => x
  | VStr (String c _) => VStr (String c EmptyString)
  | VObj props => own_prop props "0"
  | _ => VUndefined
  end.

(** [a ?? b] *)
Definition coalesce (a b : value) : value := if nullish a then b else a.

(** [!!v] *)
Definition truthy (v : value) : bool :=
  match v with
  | VUndefined | VNull => false
  | VBool b => b
  | VNum x => negb (Qeq_bool x 0)
  | VStr s => negb (Js.is_empty s)
  | VArr _ | VObj _ => true
  end.

Definition is_string (v : value) : bool :=
  match v with VStr _ => true | _ => false end.

(** What [Number(x)] gives when it is not [NaN]: a finite number, or an
    infinity ([Number("Infinity")], [Number("1e999")]), which is truthy and
    so is reported as a rate or a price like any other. *)
Inductive number : Type :=
| Finite (x : Q)
| Infinite (negative : bool).

(** [String(v)] and [Number(v)] throw a [TypeError]: [v] is an object with an
    own property [toString] (which, read from JSON, is not callable, and
    [valueOf] then gives back the object), or an array that holds such an
    object, as [Array.prototype.join] converts every element. *)
Fixpoint unprintable (v : value) : bool :=
  match v with
  | VObj props => existsb (fun kv => String.eqb (fst kv) "toString") props
  | VArr items => existsb unprintable items
  | _ => false
  end.

(** ** Insertion-ordered maps ([Map], and objects used as records)

    Bindings are kept oldest first.  [set] on a key that is present replaces
    its value where it stands; on a new key it appends.  For an object this
    is the order of [Object.keys] as long as no key is an array index; the
    keys this program passes are currency codes, tickers and coin names. *)

Section JsMap.
Context {V : Type}.

Definition JsMap := list (string * V).

Fixpoint map_get (m : JsMap) (k : string) : option V :=
  match m with
  | [] => None
  | (k', v) :: m' => if String.eqb k' k then Some v else map_get m' k
  end.

Fixpoint map_delete (m : JsMap) (k : string) : JsMap :=
  match m with
  | [] => []
  | (k', v) :: m' => if String.eqb k' k then map_delete m' k else (k', v) :: map_delete m' k
  end.

Fixpoint map_set (m : JsMap) (k : string) (v : V) : JsMap :=
  match m with
  | [] => [(k, v)]
  | (k', v') :: m' => if String.eqb k' k then (k, v) :: m' else (k', v') :: map_set m' k v
  end.

Definition map_size (m : JsMap) : Z := Z.of_nat (List.length m).

Definition map_keys (m : JsMap) : list string := List.map fst m.

(** [m.keys().next().value] *)
Definition map_first_key (m : JsMap) : option string :=
  match m with
  | [] => None
  | (k, _) :: _ => Some k
  end.

(** [o[k] = v] for a number [v] on an object literal: the assignment to
    [__proto__] reaches the setter of [Object.prototype], which ignores a
    value that is not an object, and creates no property. *)
Definition record_set (o : JsMap) (k : string) (v : V) : JsMap :=
  if String.eqb k "__proto__" then o else map_set o k v.

(** What a [Map] is: no key twice. *)
Definition map_wf (m : JsMap) : Prop := NoDup (map_keys m).
End JsMap.

Arguments JsMap V : clear implicits.

(** ** A reader for JSON texts

    The handler calls the host's [JSON.parse]; the properties below hold for
    any such function (a field of [World]).  The concrete runs use this
    reader of the JSON grammar.  Numbers take their exact decimal value; an
    escaped surrogate pair is written as the character it stands for, any
    other escaped code unit on its own. *)

Module JsonText.

Definition is_ws (c : ascii) : bool :=
  let n := nat_of_ascii c in
  (Nat.eqb n 32 || Nat.eqb n 9 || Nat.eqb n 10 || Nat.eqb n 13)%bool.

Fixpoint skip_ws (s : string) : string :=
  match s with
  | String c s' => if is_ws c then skip_ws s' else s
  | EmptyString => s
  end.

Definition hex_val (c : ascii) : option nat :=
  let n := nat_of_ascii c in
  if (Nat.leb 48 n && Nat.leb n 57)%bool then Some (n - 48)%nat
  else if (Nat.leb 65 n && Nat.leb n 70)%bool then Some (n - 55)%nat
  else if (Nat.leb 97 n && Nat.leb n 102)%bool then Some (n - 87)%nat
  else None.

Definition utf8 (u : N) (tail : string) : string :=
  let unit (n : N) := ascii_of_N n in
  if (u <? 128)%N then String (unit u) tail
  else if (u <? 2048)%N then
    String (unit (192 + u / 64)%N) (String (unit (128 + u mod 64)%N) tail)
  else if (u <? 65536)%N then
    String (unit (224 + u / 4096)%N)
      (String (unit (128 + (u / 64) mod 64)%N)
         (String (unit (128 + u mod 64)%N) tail))
  else
    String (unit (240 + u / 262144)%N)
      (String (unit (128 + (u / 4096) mod 64)%N)
         (String (unit (128 + (u / 64) mod 64)%N)
            (String (unit (128 + u mod 64)%N) tail))).

Definition hex4 (h1 h2 h3 h4 : ascii) : option N :=
  match hex_val h1, hex_val h2, hex_val h3, hex_val h4 with
  | Some a, Some b, Some c, Some d =>
      Some (((N.of_nat a * 16 + N.of_nat b) * 16 + N.of_nat c) * 16 + N.of_nat d)%N
  | _, _, _, _ => None
  end.

(** The code point of the pair [hi], [lo] when [hi] is a high surrogate and
    [s] starts with the escape of a low surrogate [lo]. *)
Definition paired (hi : N) (s : string) : option N :=
  match s with
  | String b (String u (String h1 (String h2 (String h3 (String h4 _))))) =>
      if (Nat.eqb (nat_of_ascii b) 92 && Nat.eqb (nat_of_ascii u) 117
          && (55296 <=? hi)%N && (hi <=? 56319)%N)%bool then
        match hex4 h1 h2 h3 h4 with
        | Some lo =>
            if ((56320 <=? lo)%N && (lo <=? 57343)%N)%bool
            then Some (65536 + (hi - 55296) * 1024 + (lo - 56320))%N
            else None
        | None => None
        end
      else None
  | _ => None
  end.

Definition escape_unit (e : ascii) : option nat :=
  let n := nat_of_ascii e in
  if Nat.eqb n 34 then Some 34%nat          (* quote *)
  else if Nat.eqb n 92 then Some 92%nat     (* backslash *)
  else if Nat.eqb n 47 then Some 47%nat     (* slash *)
  else if Nat.eqb n 98 then Some 8%nat      (* b *)
  else if Nat.eqb n 102 then Some 12%nat    (* f *)
  else if Nat.eqb n 110 then Some 10%nat    (* n *)
  else if Nat.eqb n 114 then Some 13%nat    (* r *)
  else if Nat.eqb n 116 then Some 9%nat     (* t *)
  else None.

(** The characters of a string literal after its opening quote, and the
    text after its closing quote. *)
Fixpoint read_string (s : string) : option (string * string) :=
  match s with
  | EmptyString => None
  | String c rest =>
      if Nat.eqb (nat_of_ascii c) 34 then Some (EmptyString, rest)
      else if Nat.eqb (nat_of_ascii c) 92 then
        match rest with
        | String e rest1 =>
            if Nat.eqb (nat_of_ascii e) 117 then
              match rest1 with
              | String h1 (String h2 (String h3 (String h4 rest2))) =>
                  match hex4 h1 h2 h3 h4 with
                  | Some hi =>
                      match paired hi rest2, rest2 with
                      | Some point, String _ (String _ (String _ (String _ (String _ (String _ rest3))))) =>
                          match read_string rest3 with
                          | Some (tail, after) => Some (utf8 point tail, after)
                          | None => None
                          end
                      | _, _ =>
                          match read_string rest2 with
                          | Some (tail, after) => Some (utf8 hi tail, after)
                          | None => None
                          end
                      end
                  | None => None
                  end
              | _ => None
              end
            else
              match escape_unit e with
              | Some u =>
                  match read_string rest1 with
                  | Some (tail, after) => Some (String (ascii_of_nat u) tail, after)
                  | None => None
                  end
              | None => None
              end
        | EmptyString => None
        end
      else if Nat.ltb (nat_of_ascii c) 32 then None
      else
        match read_string rest with
        | Some (tail, after) => Some (String c tail, after)
        | None => None
        end
  end.

(** A run of decimal digits: its value, its length and the rest. *)
Fixpoint read_digits (acc : Z) (len : nat) (s : string) : Z * nat * string :=
  match s with
  | String c s' =>
      if Js.is_digit c
      then read_digits (acc * 10 + Z.of_nat (nat_of_ascii c - 48)) (S len) s'
      else (acc, len, s)
  | EmptyString => (acc, len, s)
  end.

Definition scaled (m : Z) (e : Z) : Q :=
  if e >=? 0 then inject_Z (m * 10 ^ e) else Qmake m (Z.to_pos (10 ^ (- e))).

(** [-? int frac? exp?] with no leading zero before another digit. *)
Definition read_number (s : string) : option (Q * string) :=
  let '(neg, s0) :=
    match s with
    | String c s' => if Nat.eqb (nat_of_ascii c) 45 then (true, s') else (false, s)
    | EmptyString => (false, s)
    end in
  let '(int, ilen, s1) := read_digits 0 0 s0 in
  let leading_zero :=
    match s0 with
    | String c _ => (Nat.eqb (nat_of_ascii c) 48 && Nat.ltb 1 ilen)%bool
    | EmptyString => false
    end in
  if (Nat.eqb ilen 0 || leading_zero)%bool then None
  else
    let frac :=
      match s1 with
      | String c s' =>
          if Nat.eqb (nat_of_ascii c) 46
          then let '(m, flen, s2) := read_digits int 0 s' in
               if Nat.eqb flen 0 then None else Some (m, flen, s2)
          else Some (int, 0%nat, s1)
      | EmptyString => Some (int, 0%nat, s1)
      end in
    match frac with
    | None => None
    | Some (m, flen, s2) =>
        let signed := if neg then - m else m in
        match s2 with
        | String c s' =>
            if (Nat.eqb (nat_of_ascii c) 101 || Nat.eqb (nat_of_ascii c) 69)%bool then
              let '(eneg, s3) :=
                match s' with
                | String d s'' =>
                    if Nat.eqb (nat_of_ascii d) 45 then (true, s'')
                    else if Nat.eqb (nat_of_ascii d) 43 then (false, s'')
                    else (false, s')
                | EmptyString => (false, s')
                end in
              let '(e, elen, s4) := read_digits 0 0 s3 in
              if Nat.eqb elen 0 then None
              else Some (scaled signed ((if eneg then - e else e) - Z.of_nat flen), s4)
            else Some (scaled signed (- Z.of_nat flen), s2)
        | EmptyString => Some (scaled signed (- Z.of_nat flen), s2)
        end
    end.

(** [rest] when [s] starts with the word [w]. *)
Fixpoint after_word (w s : string) : option string :=
  match w, s with
  | EmptyString, _ => Some s
  | String a w', String b s' => if Ascii.eqb a b then after_word w' s' else None
  | String _ _, EmptyString => None
  end.

Fixpoint read_value (fuel : nat) (s : string) : option (value * string) :=
  match fuel with
  | O => None
  | S fuel' =>
      match skip_ws s with
      | EmptyString => None
      | String c rest as s0 =>
          let n := nat_of_ascii c in
          if Nat.eqb n 123 then                               (* { *)
            match skip_ws rest with
            | String d rest1 as body =>
                if Nat.eqb (nat_of_ascii d) 125 then Some (VObj [], rest1)
                else read_members fuel' [] body
            | EmptyString => None
            end
          else if Nat.eqb n 91 then                           (* [ *)
            match skip_ws rest with
            | String d rest1 as body =>
                if Nat.eqb (nat_of_ascii d) 93 then Some (VArr [], rest1)
                else read_elements fuel' [] body
            | EmptyString => None
            end
          else if Nat.eqb n 34 then                           (* quote *)
            match read_string rest with
            | Some (str, after) => Some (VStr str, after)
            | None => None
            end
          else if Nat.eqb n 116 then option_map (pair (VBool true)) (after_word "true" s0)
          else if Nat.eqb n 102 then option_map (pair (VBool false)) (after_word "false" s0)
          else if Nat.eqb n 110 then option_map (pair VNull) (after_word "null" s0)
          else
            match read_number s0 with
            | Some (x, after) => Some (VNum x, after)
            | None => None
            end
      end
  end
with read_members (fuel : nat) (acc : list (string * value)) (s : string)
  : option (value * string) :=
  match fuel with
  | O => None
  | S fuel' =>
      match skip_ws s with
      | String q rest =>
          if Nat.eqb (nat_of_ascii q) 34 then
            match read_string rest with
            | Some (k, after_key) =>
                match skip_ws after_key with
                | String colon rest1 =>
                    if Nat.eqb (nat_of_ascii colon) 58 then
                      match read_value fuel' rest1 with
                      | Some (v, after_value) =>
                          match skip_ws after_value with
                          | String sep rest2 =>
                              if Nat.eqb (nat_of_ascii sep) 44
                              then read_members fuel' (map_set acc k v) rest2
                              else if Nat.eqb (nat_of_ascii sep) 125
                              then Some (VObj (map_set acc k v), rest2)
                              else None
                          | EmptyString => None
                          end
                      | None => None
                      end
                    else None
                | EmptyString => None
                end
            | None => None
            end
          else None
      | EmptyString => None
      end
  end
with read_elements (fuel : nat) (acc : list value) (s : string)
  : option (value * string) :=
  match fuel with
  | O => None
  | S fuel' =>
      match read_value fuel' s with
      | Some (v, after_value) =>
          match skip_ws after_value with
          | String sep rest =>
              if Nat.eqb (nat_of_ascii sep) 44
              then read_elements fuel' (acc ++ [v]) rest
              else if Nat.eqb (nat_of_ascii sep) 93
              then Some (VArr (acc ++ [v]), rest)
              else None
          | EmptyString => None
          end
      | None => None
      end
  end.

(** The whole text is one value between optional white space. *)
Definition parse (raw : string) : attempt value :=
  match read_value (S (String.length raw)) raw with
  | Some (v, rest) =>
      match skip_ws rest with
      | EmptyString => Done v
      | String _ _ => Raised
      end
  | None => Raised
  end.

End JsonText.

(** ** Data model *)

(** The record [performWebSearch] builds from a page.  At run time [title]
    and [url] hold whatever the page held; the final filter keeps the records
    whose [url] is a string. *)
Record WebSearchResult : Type := {
  title : value;
  url : value;
  snippet : option string
}.

Record AuroraAnswer : Type := {
  text : string;
  confidence : option Q;
  sources : option (list WebSearchResult);
  usedSearch : option bool
}.

Record CacheEntry : Type := {
  timestamp : Z;
  results : list WebSearchResult
}.

(** The mutable state of the module: the search cache, the clock that
    [Date.now()] reads (milliseconds), and the queries sent so far to the
    search provider, oldest first. *)
Record State : Type := {
  searchCache : JsMap CacheEntry;
  clock : Z;
  searchCalls : list string
}.

Definition with_cache (st : State) (c : JsMap CacheEntry) : State :=
  {| searchCache := c; clock := clock st; searchCalls := searchCalls st |}.

Definition advance (d : Z) (st : State) : State :=
  {| searchCache := searchCache st; clock := clock st + d; searchCalls := searchCalls st |}.

Definition initial_state (now : Z) : State :=
  {| searchCache := []; clock := now; searchCalls := [] |}.

(** ** Search cache *)

Definition SEARCH_TTL_MS : Z := 5 * 60 * 1000.
Definition SEARCH_CACHE_LIMIT : Z := 50.

Definition getCachedSearch (query : string) (st : State)
  : option (list WebSearchResult) * State :=
  match map_get (searchCache st) query with
  | None => (None, st)
  | Some entry =>
      if clock st - timestamp entry >? SEARCH_TTL_MS
      then (None, with_cache st (map_delete (searchCache st) query))
      else (Some (results entry), st)
  end.

Definition setCachedSearch (query : string) (rs : list WebSearchResult) (st : State)
  : State :=
  match rs with
  | [] => st
  | _ :: _ =>
      let evicted :=
        if map_size (searchCache st) >=? SEARCH_CACHE_LIMIT
        then
          match map_first_key (searchCache st) with
          | Some firstKey =>
              (* [if (firstKey)]: the empty string is falsy *)
              if Js.is_empty firstKey then searchCache st
              else map_delete (searchCache st) firstKey
          | None => searchCache st
          end
        else searchCache st in
      with_cache st (map_set evicted query {| timestamp := clock st; results := rs |})
  end.

(** ** The host and the network *)

Record Env : Type := {
  OPENAI_API_KEY : option string;
  BING_SEARCH_ENDPOINT : option string;
  BING_SEARCH_KEY : option string;
  SUPABASE_URL : option string;
  SUPABASE_SERVICE_ROLE_KEY : option string;
  SUPABASE_ANON_KEY : option string;
  ALPHAVANTAGE_API_KEY : option string
}.

(** [!!x] for [x : string | undefined]: an empty variable counts as unset. *)
Definition is_set (x : option string) : bool :=
  match x with
  | Some s => negb (Js.is_empty s)
  | None => false
  end.

(** [a || b] on [string | undefined]. *)
Definition or_else (a b : option string) : option string :=
  if is_set a then a else b.

(** What [await fetch(...)] gives: the promise rejects, or a response with
    its [ok] flag, its status and what [await res.json()] yields. *)
Inductive fetch_reply : Type :=
| FetchRejected
| FetchResponse (ok : bool) (status : Z) (json : attempt value).

Definition COINGECKO_IDS : JsMap string :=
  [("BTC", "bitcoin"); ("ETH", "ethereum")].

Record StockQuote : Type := {
  price : number;
  currency : value
}.

Module Ctx.
(** The argument of [generateAuroraAnswer]. *)
Record t : Type := {
  question : string;
  messages : list value;
  userProfile : value;
  fxRates : JsMap number;
  stockQuotes : JsMap StockQuote;
  cryptoPrices : JsMap Q;
  transactions : value;
  kbSnippets : list string;
  webResults : list WebSearchResult
}.
End Ctx.

(** The request sent to the completion provider: the key, the effective
    question and the context the prompt is assembled from.  The prompt text
    itself is a function of these. *)
Record CompletionRequest : Type := {
  bearer : string;
  asked : value;
  context : Ctx.t
}.

Record World : Type := {
  env : Env;
  (** [JSON.parse]; [Raised] is its [SyntaxError]. *)
  JSON_parse : string -> attempt value;
  (** [Number(v)]; [None] is [NaN]. *)
  Number_of : value -> option number;
  (** The [n]-th request to the search endpoint, for a query: the time it
      takes (ms) and the reply. *)
  search_fetch : nat -> string -> Z * fetch_reply;
  completion_fetch : CompletionRequest -> fetch_reply;
  exchange_rate_fetch : string -> string -> fetch_reply;
  global_quote_fetch : string -> fetch_reply;
  simple_price_fetch : list string -> string -> fetch_reply;
  (** [createClient(url, key, ...)] may throw. *)
  createClient : string -> string -> attempt unit;
  (** The two Supabase queries: [{ data, error }], unless the call throws. *)
  financial_overview_single : value -> attempt (value * value);
  transactions_select : value -> Z -> attempt (value * value)
}.

(** ** Safety filter *)

Definition blocked : list string :=
  [ "password"; "passcode"; "social security"; "ssn";
    "credit card"; "card number"; "cvv"; "pin code" ].

Definition isSearchSafe (question : string) : bool :=
  let q := Js.toLowerCase question in
  negb (existsb (fun term => Js.includes q term) blocked).

Definition externalKeywords : list string :=
  [ "news"; "latest"; "today"; "current"; "rate"; "inflation"; "recession";
    "market"; "economy"; "stock"; "crypto"; "yield"; "tax law"; "regulation";
    "what is"; "who is"; "define"; "definition"; "history of" ].

Definition shouldUseWebSearch (question : string) : bool :=
  let q := Js.toLowerCase question in
  if Js.is_empty (Js.trim q) then false
  else existsb (fun keyword => Js.includes q keyword) externalKeywords.

(** ** Web search *)

Definition search_configured (w : World) : bool :=
  (is_set (BING_SEARCH_ENDPOINT (env w)) && is_set (BING_SEARCH_KEY (env w)))%bool.

(** One page of the reply, as the [map] callback reads it. *)
Definition page_result (page : value) : attempt WebSearchResult :=
  try! name <- getProp page "name";
  try! page_url <- getProp page "url";
  try! page_snippet <- getProp page "snippet";
  try! description <- getProp page "description";
  Done {| title := if is_string name then name else page_url;
          url := page_url;
          snippet := match page_snippet with
                     | VStr s => Some s
                     | _ => match description with
                            | VStr d => Some d
                            | _ => None
                            end
                     end |}.

(** [webPages.slice(0, 5).map(...)]: an array is cut to five pages; a string
    has a [slice] but its result has no [map]; nothing else has a [slice]. *)
Definition pages_results (webPages : value) : attempt (list WebSearchResult) :=
  match webPages with
  | VArr pages => amap page_result (firstn 5 pages)
  | _ => Raised
  end.

Definition search_results (data : value) : attempt (list WebSearchResult) :=
  try! webPages <- getProp data "webPages";
  let pages := coalesce (optProp webPages "value") (VArr []) in
  try! rs <- pages_results pages;
  Done (filter (fun r => is_string (url r)) rs).

Definition performWebSearch (w : World) (query : string) (st : State)
  : list WebSearchResult * State :=
  if negb (search_configured w) then ([], st)
  else if negb (Js.isWellFormed query) then
    (* [encodeURIComponent(query)] throws inside the [try]: nothing is sent *)
    ([], st)
  else
    let '(elapsed, reply) := search_fetch w (List.length (searchCalls st)) query in
    let st' := {| searchCache := searchCache st;
                  clock := clock st + elapsed;
                  searchCalls := searchCalls st ++ [query] |} in
    (catch
       match reply with
       | FetchRejected => Raised
       | FetchResponse ok _ json =>
           if negb ok then Done []
           else
             try! data <- json;
             search_results data
       end
       [],
     st').

Definition getWebResultsForQuestion (w : World) (question : string) (st : State)
  : list WebSearchResult * State :=
  if negb (search_configured w) then ([], st)
  else if (Js.is_empty question || negb (isSearchSafe question))%bool then ([], st)
  else if negb (shouldUseWebSearch question) then ([], st)
  else
    match getCachedSearch question st with
    | (Some cached, st1) => (cached, st1)
    | (None, st1) =>
        let '(rs, st2) := performWebSearch w question st1 in
        match rs with
        | [] => (rs, st2)
        | _ :: _ => (rs, setCachedSearch question rs st2)
        end
    end.

(** ** Supabase-backed user data *)

Definition num (x : Q) : value := VNum x.

Definition getSupabaseClient (w : World) : bool :=
  let key := or_else (SUPABASE_SERVICE_ROLE_KEY (env w)) (SUPABASE_ANON_KEY (env w)) in
  match SUPABASE_URL (env w), key with
  | Some u, Some k =>
      if (Js.is_empty u || Js.is_empty k)%bool then false
      else catch (try! _ <- createClient w u k; Done true) false
  | _, _ => false
  end.

Definition getMockUserProfile (userId : value) : value :=
  VObj [ ("userId", userId);
         ("currency", VStr "USD");
         ("recentSummary",
          VObj [ ("monthlyIncome", num 5200);
                 ("monthlyFixedCosts", num 2800);
                 ("avgDiscretionary", num 900);
                 ("savingsRate", num 0.18) ]);
         ("goals",
          VArr [ VObj [ ("name", VStr "Emergency fund"); ("target", num 10000); ("progress", num 0.6) ];
                 VObj [ ("name", VStr "Long-term investing"); ("target", num 50000); ("progress", num 0.22) ] ]) ].

Definition is_array (v : value) : bool :=
  match v with VArr _ => true | _ => false end.

Definition array_items (v : value) : list value :=
  match v with VArr items => items | _ => [] end.

Definition getUserFinancialProfile (w : World) (userId : value) : value :=
  if negb (getSupabaseClient w) then getMockUserProfile userId
  else
    catch
      (try! reply <- financial_overview_single w userId;
       let '(data, error) := reply in
       if (truthy error || negb (truthy data))%bool then Done (getMockUserProfile userId)
       else
         let field k d := coalesce (optProp data k) d in
         Done (VObj [ ("userId", userId);
                      ("currency", field "currency" (VStr "USD"));
                      ("recentSummary",
                       VObj [ ("monthlyIncome", field "monthly_income" (num 0));
                              ("monthlyFixedCosts", field "monthly_fixed_costs" (num 0));
                              ("avgDiscretionary", field "avg_discretionary" (num 0));
                              ("savingsRate", field "savings_rate" (num 0)) ]);
                      ("goals",
                       if is_array (optProp data "goals") then optProp data "goals"
                       else VArr [ VObj [ ("name", VStr "Emergency fund");
                                          ("target", field "emergency_goal_target" (num 0));
                                          ("progress", field "emergency_goal_progress" (num 0)) ] ]) ]))
      (getMockUserProfile userId).

Definition getRecentTransactions (w : World) (userId : value) (limit : Z) : value :=
  if negb (getSupabaseClient w) then VArr []
  else
    catch
      (try! reply <- transactions_select w userId limit;
       let '(data, error) := reply in
       if (truthy error || negb (truthy data))%bool then Done (VArr []) else Done data)
      (VArr []).

(** ** Live market data *)

(** [encodeURIComponent] accepts each of the texts; on an unpaired surrogate
    it throws a [URIError]. *)
Definition encodable (texts : list string) : bool := forallb Js.isWellFormed texts.

(** [x ? Number(x) : NaN] *)
Definition number_if_truthy (w : World) (x : value) : option number :=
  if truthy x then Number_of w x else None.

(** One turn of the loop of [getFxRates]: the record after [symbol]. *)
Definition fx_turn (w : World) (base apiKey : string) (result : JsMap number)
  (symbol : string) : JsMap number :=
  catch
    (if negb (encodable [base; symbol; apiKey]) then Raised
     else
       match exchange_rate_fetch w base symbol with
       | FetchRejected => Raised
       | FetchResponse ok _ json =>
           if negb ok then Done result
           else
             try! j <- json;
             try! r <- getProp j "Realtime Currency Exchange Rate";
             match number_if_truthy w (optProp r "5. Exchange Rate") with
             | Some rate => Done (record_set result symbol rate)
             | None => Done result
             end
       end)
    result.

Definition getFxRates (w : World) (base : string) (symbols : list string) : JsMap number :=
  match ALPHAVANTAGE_API_KEY (env w) with
  | None => []
  | Some apiKey =>
      if Js.is_empty apiKey then []
      else fold_left (fx_turn w base apiKey) symbols []
  end.

(** One turn of the loop of [getStockQuotes].  The key of a quote is in
    upper case, so it is never [__proto__]. *)
Definition quote_turn (w : World) (apiKey : string) (results : JsMap StockQuote)
  (symbol : string) : JsMap StockQuote :=
  catch
    (if negb (encodable [symbol; apiKey]) then Raised
     else
       match global_quote_fetch w symbol with
       | FetchRejected => Raised
       | FetchResponse ok _ json =>
           if negb ok then Done results
           else
             try! j <- json;
             try! gq <- getProp j "Global Quote";
             let quote := if truthy gq then gq else VObj [] in
             match number_if_truthy w (optProp quote "05. price") with
             | Some p =>
                 Done (map_set results (Js.toUpperCase symbol)
                         {| price := p;
                            currency := coalesce (optProp quote "08. currency")
                                          (VStr "USD") |})
             | None => Done results
             end
       end)
    results.

Definition getStockQuotes (w : World) (symbols : list string) : JsMap StockQuote :=
  match ALPHAVANTAGE_API_KEY (env w) with
  | None => []
  | Some apiKey =>
      if (Js.is_empty apiKey || Nat.eqb (List.length symbols) 0)%bool then []
      else fold_left (quote_turn w apiKey) symbols []
  end.

(** [arr.filter((id, idx, arr) => id && arr.indexOf(id) === idx)] over the
    looked-up ids: the defined, non-empty ids, each at its first place. *)
Fixpoint first_ids (seen : list string) (ids : list (option string)) : list string :=
  match ids with
  | [] => []
  | None :: rest => first_ids seen rest
  | Some id :: rest =>
      if (Js.is_empty id || existsb (String.eqb id) seen)%bool then first_ids seen rest
      else id :: first_ids (id :: seen) rest
  end.

Definition getCryptoPrices (w : World) (symbols : list string) (vsCurrency : string)
  : JsMap Q :=
  let upper := List.map Js.toUpperCase symbols in
  let ids := first_ids [] (List.map (map_get COINGECKO_IDS) upper) in
  match ids with
  | [] => []
  | _ :: _ =>
      catch
        (if negb (encodable [vsCurrency]) then Raised
         else
           match simple_price_fetch w ids vsCurrency with
           | FetchRejected => Raised
           | FetchResponse ok _ json =>
               if negb ok then Done []
               else
                 try! j <- json;
                 fold_left
                   (fun acc sym =>
                      try! out <- acc;
                      match map_get COINGECKO_IDS sym with
                      | None => Done out
                      | Some id =>
                          try! entry <- getProp j id;
                          match optProp entry (Js.toLowerCase vsCurrency) with
                          | VNum p => Done (map_set out sym p)
                          | _ => Done out
                          end
                      end)
                   upper (Done [])
           end)
        []
  end.

(** ** Knowledge base stub *)

Definition getKnowledgeSnippets (query : string) : list string :=
  let q := Js.toLowerCase query in
  (if (Js.includes q "budget" || Js.includes q "spend" || Js.includes q "saving")%bool
   then [ "Good budgeting often routes 20–30% of net income into savings and investing, with fixed costs kept below ~50%.";
          "Tracking spend by category (housing, food, transport, subscriptions) makes it easier to decide where to trim." ]
   else [])
  ++ (if (Js.includes q "invest" || Js.includes q "stock" || Js.includes q "etf")%bool
      then [ "Diversification across low-cost ETFs is a common way to spread risk rather than betting on single names.";
             "Time in the market usually matters more than timing the market; short-term moves are hard to predict." ]
      else [])
  ++ (if Js.includes q "crypto"
      then [ "Crypto assets can be extremely volatile. Many guides suggest treating them as a small, higher-risk sleeve." ]
      else [])
  ++ [ "Aurora is not a tax, legal, or investment advisor. Treat these outputs as educational guidance, not directives." ].

(** ** Fallback heuristic answer *)

Definition generic_paragraph : string :=
  "Here's a high-level perspective on your finances. I can help you break this down by accounts, categories, or time horizon if you like.".

Definition budget_paragraph : string :=
  "Most people get the largest leverage by looking at their top 2–3 variable categories: often food, transport, and subscriptions. If you trim those by 10–15% while keeping rent and essentials stable, your budget usually feels better without feeling restrictive.".

Definition savings_paragraph : string :=
  "A common pattern is to target a savings rate in the 15–25% range of net income, then adjust up or down based on stability and goals. We can look at your fixed costs and recent spending to see what level is realistic for you.".

Definition investing_paragraph : string :=
  "Investing typically starts with building an emergency buffer, then allocating surplus into diversified, low-cost investments like broad-market ETFs. From there, you can decide how much risk to take based on your time horizon and volatility comfort.".

Definition runway_paragraph : string :=
  "Runway is essentially your liquid assets divided by your average monthly burn. If we keep your burn stable and increase savings, that runway extends. Small, persistent changes in discretionary categories compound into meaningful extra months.".

Definition crypto_paragraph : string :=
  "Crypto should usually be treated as a high-volatility sleeve in a broader plan. Many approaches keep it to a small percentage of total net worth, rebalanced occasionally, rather than relying on it for near-term goals.".

Definition basicHeuristicAnswer (question : string) : AuroraAnswer :=
  let lower := Js.toLowerCase question in
  let text :=
    if (Js.includes lower "budget" || Js.includes lower "spend")%bool then budget_paragraph
    else if (Js.includes lower "save" || Js.includes lower "savings")%bool then savings_paragraph
    else if (Js.includes lower "invest" || Js.includes lower "stock" || Js.includes lower "etf")%bool
         then investing_paragraph
    else if (Js.includes lower "runway" || Js.includes lower "forecast")%bool then runway_paragraph
    else if Js.includes lower "crypto" then crypto_paragraph
    else generic_paragraph in
  {| text := text; confidence := Some 0.78%Q; sources := None; usedSearch := None |}.

(** [basicHeuristicAnswer(question)] where [question] is a truthy value that
    the types call a string: on anything else [toLowerCase] is not a
    function. *)
Definition heuristic_for (question : value) : attempt AuroraAnswer :=
  match question with
  | VStr s => Done (basicHeuristicAnswer s)
  | _ => Raised
  end.

(** ** Core answer generation *)

(** [m.role === 'user'] *)
Definition role_is_user (m : value) : attempt bool :=
  try! r <- getProp m "role";
  Done match r with
       | VStr s => String.eqb s "user"
       | _ => false
       end.

Fixpoint afilter {A : Type} (p : A -> attempt bool) (l : list A) : attempt (list A) :=
  match l with
  | [] => Done []
  | a :: l' =>
      try! keep <- p a;
      try! rest <- afilter p l';
      Done (if keep then a :: rest else rest)
  end.

(** [context.question || context.messages.filter(...).slice(-1)[0]?.text
    || 'Explain my finances in simple terms.'] *)
Definition asked_question (c : Ctx.t) : attempt value :=
  if negb (Js.is_empty (Ctx.question c)) then Done (VStr (Ctx.question c))
  else
    try! users <- afilter role_is_user (Ctx.messages c);
    let t := optProp (last users VUndefined) "text" in
    Done (if truthy t then t else VStr "Explain my finances in simple terms.").

(** [data.choices?.[0]?.message?.content?.trim()]: [None] when the chain
    ends in [undefined]. *)
Definition completion_content (data : value) : attempt (option string) :=
  try! choices <- getProp data "choices";
  let content := optProp (optProp (optIndex0 choices) "message") "content" in
  match content with
  | VUndefined | VNull => Done None
  | VStr s => Done (Some (Js.trim s))
  | _ => Raised
  end.

(** Assembling the prompt converts to text, outside any [try], the currency
    of each stock quote (when truthy), the income and the fixed costs of the
    profile, the title and the url of the first four web results, and the
    question; it converts the savings rate to a number.  Everything else it
    prints is a number or a string already. *)
Definition prompt_throws (c : Ctx.t) (question : value) : bool :=
  let summary := optProp (Ctx.userProfile c) "recentSummary" in
  (existsb (fun kv => truthy (currency (snd kv)) && unprintable (currency (snd kv)))
     (Ctx.stockQuotes c)
   || unprintable (coalesce (optProp summary "monthlyIncome") (VStr "N/A"))
   || unprintable (coalesce (optProp summary "monthlyFixedCosts") (VStr "N/A"))
   || unprintable (coalesce (optProp summary "savingsRate") (VNum 0))
   || existsb (fun r => unprintable (title r) || unprintable (url r))
        (firstn 4 (Ctx.webResults c))
   || unprintable question)%bool.

Definition generateAuroraAnswer (w : World) (c : Ctx.t) : attempt AuroraAnswer :=
  try! question <- asked_question c;
  match OPENAI_API_KEY (env w) with
  | None => heuristic_for question
  | Some apiKey =>
      if Js.is_empty apiKey then heuristic_for question
      else if prompt_throws c question then Raised
      else
        let hasWebResults := negb (Nat.eqb (List.length (Ctx.webResults c)) 0) in
        let attempted : attempt AuroraAnswer :=
          match completion_fetch w {| bearer := apiKey; asked := question; context := c |} with
          | FetchRejected => Raised
          | FetchResponse ok _ json =>
              if negb ok then Raised
              else
                try! data <- json;
                try! content <- completion_content data;
                match content with
                | None => heuristic_for question
                | Some reply =>
                    if Js.is_empty reply then heuristic_for question
                    else
                      Done {| text := reply;
                              confidence := Some 0.92%Q;
                              sources := if hasWebResults
                                         then Some (firstn 4 (Ctx.webResults c))
                                         else None;
                              usedSearch := Some hasWebResults |}
                end
          end in
        catch_with attempted (heuristic_for question)
  end.

(** ** Request handler *)

Record Request : Type := {
  method : string;
  body : value
}.

Record UsedLiveData : Type := {
  fxSymbols : list string;
  stocks : list string;
  crypto : list string;
  transactionCount : Z
}.

Module Envelope.
(** The body of an answer; [fallback] and [usedLiveData] are absent from
    some envelopes. *)
Record t : Type := {
  text : string;
  confidence : Q;
  fallback : option bool;
  sources : list WebSearchResult;
  usedSearch : bool;
  usedLiveData : option UsedLiveData
}.
End Envelope.

Inductive ResponseBody : Type :=
| ErrorBody (error : string)
| AnswerBody (e : Envelope.t).

Record Response : Type := {
  headers : list (string * string);
  status : Z;
  json : ResponseBody
}.

Definition from_option {A : Type} (o : option A) (d : A) : A :=
  match o with
  | Some a => a
  | None => d
  end.

(** [[...messages].reverse().find((m) => m.role === 'user')] *)
Fixpoint afind {A : Type} (p : A -> attempt bool) (l : list A) : attempt (option A) :=
  match l with
  | [] => Done None
  | a :: l' =>
      try! hit <- p a;
      if hit then Done (Some a) else afind p l'
  end.

Definition last_user (messages : list value) : attempt (option value) :=
  afind role_is_user (rev messages).

(** [lastUser?.text ?? body.messages[body.messages.length - 1]?.text ?? ''] *)
Definition extract_question (messages : list value) : attempt value :=
  try! lastUser <- last_user messages;
  let own := match lastUser with
             | Some m => optProp m "text"
             | None => VUndefined
             end in
  Done (coalesce (coalesce own (optProp (last messages VUndefined) "text")) (VStr EmptyString)).

Definition detect_stocks (question : string) : list string :=
  (if Js.word_test "aapl" question then ["AAPL"] else [])
  ++ (if Js.word_test "tsla" question then ["TSLA"] else [])
  ++ (if Js.word_test "msft" question then ["MSFT"] else []).

Definition detect_crypto (qLower : string) : list string :=
  (if (Js.includes qLower "btc" || Js.includes qLower "bitcoin")%bool then ["BTC"] else [])
  ++ (if (Js.includes qLower "eth" || Js.includes qLower "ethereum")%bool then ["ETH"] else []).

Definition method_not_allowed : Response :=
  {| headers := [("Allow", "POST")]; status := 405; json := ErrorBody "Method Not Allowed" |}.

Definition missing_messages : Response :=
  {| headers := []; status := 400; json := ErrorBody "Invalid request body: missing messages" |}.

(** The envelope of the success branch. *)
Definition answer_response (answer : AuroraAnswer) (live : UsedLiveData) : Response :=
  {| headers := [];
     status := 200;
     json := AnswerBody
               {| Envelope.text := text answer;
                  Envelope.confidence := from_option (confidence answer) 0.9%Q;
                  Envelope.fallback := None;
                  Envelope.sources := from_option (sources answer) [];
                  Envelope.usedSearch := from_option (usedSearch answer) false;
                  Envelope.usedLiveData := Some live |} |}.

(** The envelope of the [catch] branch. *)
Definition fallback_response : Response :=
  let fallback := basicHeuristicAnswer EmptyString in
  {| headers := [];
     status := 200;
     json := AnswerBody
               {| Envelope.text := text fallback;
                  Envelope.confidence := from_option (confidence fallback) 0.7%Q;
                  Envelope.fallback := Some true;
                  Envelope.sources := from_option (sources fallback) [];
                  Envelope.usedSearch := from_option (usedSearch fallback) false;
                  Envelope.usedLiveData := None |} |}.

(** [typeof req.body === 'string' ? JSON.parse(req.body) : req.body] *)
Definition decode_body (w : World) (req : Request) : attempt value :=
  match body req with
  | VStr raw => JSON_parse w raw
  | b => Done b
  end.

(** [!body || !Array.isArray(body.messages) || body.messages.length === 0];
    the property is read only off a truthy body. *)
Definition invalid_body (b : value) : bool :=
  (negb (truthy b) || negb (is_array (optProp b "messages"))
   || Nat.eqb (List.length (array_items (optProp b "messages"))) 0)%bool.

(** The body of the handler's [try]: [Raised] when an exception leaves it. *)
Definition handler_try (w : World) (req : Request) (st : State)
  : attempt Response * State :=
  match decode_body w req with
  | Raised => (Raised, st)
  | Done b =>
      if invalid_body b then (Done missing_messages, st)
      else
          let messages := array_items (optProp b "messages") in
          let userId := coalesce (optProp b "userId") (VStr "anonymous") in
          match extract_question messages with
          | Done (VStr question) =>
              let qLower := Js.toLowerCase question in
              let stockSymbols := detect_stocks question in
              let cryptoSymbols := detect_crypto qLower in
              let userProfile := getUserFinancialProfile w userId in
              let fxRates := getFxRates w "USD" ["EUR"; "GBP"] in
              let stockQuotes := getStockQuotes w stockSymbols in
              let cryptoPrices := getCryptoPrices w cryptoSymbols "usd" in
              let transactions := getRecentTransactions w userId 25 in
              let '(webResults, st') := getWebResultsForQuestion w question st in
              let kbSnippets := getKnowledgeSnippets question in
              match generateAuroraAnswer w
                      {| Ctx.question := question;
                         Ctx.messages := messages;
                         Ctx.userProfile := userProfile;
                         Ctx.fxRates := fxRates;
                         Ctx.stockQuotes := stockQuotes;
                         Ctx.cryptoPrices := cryptoPrices;
                         Ctx.transactions := transactions;
                         Ctx.kbSnippets := kbSnippets;
                         Ctx.webResults := webResults |} with
              | Raised => (Raised, st')
              | Done answer =>
                  (Done (answer_response answer
                           {| fxSymbols := map_keys fxRates;
                              stocks := map_keys stockQuotes;
                              crypto := map_keys cryptoPrices;
                              transactionCount :=
                                match transactions with
                                | VArr ts => Z.of_nat (List.length ts)
                                | _ => 0
                                end |}),
                   st')
              end
          | _ => (Raised, st)
          end
  end.

Definition handler (w : World) (req : Request) (st : State) : Response * State :=
  if negb (String.eqb (method req) "POST") then (method_not_allowed, st)
  else
    let '(r, st') := handler_try w req st in
    (catch r fallback_response, st').

(** ** The chat page (the caller of the endpoint)

    [callAuroraChatApi] and [mockFinanceAiResponse] of the page component.
    The page posts the conversation and reads the envelope back; on any
    failure it answers from a local mock.  The line written to the console
    and the mock's delay of 700 ms are not modelled. *)

Module ChatPage.

Inductive Role : Type := user | ai.

Definition role_name (r : Role) : string :=
  match r with
  | user => "user"
  | ai => "ai"
  end.

Record ChatSource : Type := {
  title : value;
  url : string;
  snippet : option string
}.

Record ChatMessage : Type := {
  id : string;
  role : Role;
  text : string;
  timestamp : string;
  confidence : option Q;
  sources : option (list ChatSource);
  usedSearch : option bool
}.

Module Reply.
(** What [callAuroraChatApi] resolves to. *)
Record t : Type := {
  text : value;
  confidence : Q;
  sources : option (list ChatSource);
  usedSearch : bool
}.
End Reply.

Definition mock_generic : string :=
  "Here is a high-level take on your finances. I can break this down by accounts, categories, or time horizon if you like.".

Definition mock_budget : string :=
  "Based on your recent transactions, most variance is coming from food delivery and mobility. Capping those lines by ~15% would keep you on budget without touching rent or subscriptions.".

Definition mock_savings : string :=
  "Given your current inflows and fixed costs, you could route an extra 8–12% of monthly cash into savings while keeping a 2.5× cushion on upcoming bills.".

Definition mock_invest : string :=
  "Your cash buffer looks healthy. Consider splitting surplus between a high-yield vault and a diversified ETF sleeve. I can simulate scenarios once you define your risk band.".

Definition mock_runway : string :=
  "Projected runway is just over 7 months at the current burn. Trimming 5–7% from discretionary categories would extend that by ~0.8 months without touching essentials.".

(** The value the promise of [mockFinanceAiResponse] resolves to. *)
Definition mockFinanceAiResponse (question : string) : string * Q :=
  let lower := Js.toLowerCase question in
  let text :=
    if (Js.includes lower "budget" || Js.includes lower "spend")%bool then mock_budget
    else if (Js.includes lower "save" || Js.includes lower "savings")%bool then mock_savings
    else if Js.includes lower "invest" then mock_invest
    else if (Js.includes lower "runway" || Js.includes lower "forecast")%bool then mock_runway
    else mock_generic in
  (text, 0.93%Q).

(** The object the page serialises into the body of its request. *)
Definition chat_request (conversation : list ChatMessage) : Request :=
  {| method := "POST";
     body := VObj [("userId", VStr "demo-user");
                   ("messages",
                    VArr (List.map
                            (fun m => VObj [("role", VStr (role_name (role m)));
                                            ("text", VStr (text m))])
                            conversation))] |}.

(** One element of [data.sources], as the [map] callback reads it. *)
Definition parse_source (item : value) : ChatSource :=
  {| title := match optProp item "title" with
              | VStr s => VStr s
              | _ => coalesce (optProp item "url") (VStr "Source")
              end;
     url := match optProp item "url" with
            | VStr u => u
            | _ => "#"
            end;
     snippet := match optProp item "snippet" with
                | VStr s => Some s
                | _ => None
                end |}.

Definition parse_sources (rawSources : value) : list ChatSource :=
  match rawSources with
  | VArr items =>
      filter (fun s => negb (String.eqb (url s) "#")) (List.map parse_source items)
  | _ => []
  end.

Definition trouble_text : string :=
  "I had trouble generating a detailed answer, but I can still help you reason about your finances.".

(** [fetch] is the network as the page sees it: the reply to a request. *)
Definition callAuroraChatApi (fetch : Request -> fetch_reply)
  (conversation : list ChatMessage) (question : string) : Reply.t :=
  catch
    match fetch (chat_request conversation) with
    | FetchRejected => Raised
    | FetchResponse ok _ json =>
        if negb ok then Raised
        else
          try! data <- json;
          try! data_text <- getProp data "text";
          let parsedSources := parse_sources (optProp data "sources") in
          Done {| Reply.text := coalesce data_text (VStr trouble_text);
                  Reply.confidence := match optProp data "confidence" with
                                      | VNum x => x
                                      | _ => 0.9%Q
                                      end;
                  Reply.sources := Some parsedSources;
                  Reply.usedSearch :=
                    (truthy (optProp data "usedSearch")
                     && negb (Nat.eqb (List.length parsedSources) 0))%bool |}
    end
    (let fallback := mockFinanceAiResponse question in
     {| Reply.text := VStr (fst fallback);
        Reply.confidence := snd fallback;
        Reply.sources := None;
        Reply.usedSearch := false |}).

End ChatPage.

(** ** The wire between the handler and the page

    What [res.status(s).json(body)] puts on the wire, as [fetch] and
    [res.json()] give it back: [ok] for a status in 200..299, and the body as
    JSON, in which a property that is [undefined] is left out. *)

Definition json_field (k : string) (v : value) : list (string * value) :=
  match v with
  | VUndefined => []
  | _ => [(k, v)]
  end.

Definition source_json (r : WebSearchResult) : value :=
  VObj (json_field "title" (title r)
        ++ json_field "url" (url r)
        ++ match snippet r with
           | Some s => [("snippet", VStr s)]
           | None => []
           end).

Definition strings_json (l : list string) : value := VArr (List.map VStr l).

Definition body_json (b : ResponseBody) : value :=
  match b with
  | ErrorBody error => VObj [("error", VStr error)]
  | AnswerBody e =>
      VObj ([("text", VStr (Envelope.text e));
             ("confidence", VNum (Envelope.confidence e))]
            ++ match Envelope.fallback e with
               | Some f => [("fallback", VBool f)]
               | None => []
               end
            ++ [("sources", VArr (List.map source_json (Envelope.sources e)));
                ("usedSearch", VBool (Envelope.usedSearch e))]
            ++ match Envelope.usedLiveData e with
               | Some live =>
                   [("usedLiveData",
                     VObj [("fxSymbols", strings_json (fxSymbols live));
                           ("stocks", strings_json (stocks live));
                           ("crypto", strings_json (crypto live));
                           ("transactionCount", VNum (inject_Z (transactionCount live)))])]
               | None => []
               end)
  end.

Definition served (r : Response) : fetch_reply :=
  FetchResponse ((200 <=? status r) && (status r <=? 299))%bool (status r)
    (Done (body_json (json r))).

(** The endpoint on host [w] in state [st], as the page's network. *)
Definition endpoint (w : World) (st : State) (req : Request) : fetch_reply :=
  served (fst (handler w req st)).

Definition typed (who : ChatPage.Role) (t : string) : ChatPage.ChatMessage :=
  {| ChatPage.id := "m";
     ChatPage.role := who;
     ChatPage.text := t;
     ChatPage.timestamp := "Just now";
     ChatPage.confidence := None;
     ChatPage.sources := None;
     ChatPage.usedSearch := None |}.

(** ** Sequences of cache operations *)

Inductive cache_op : Type :=
| Get (query : string)
| Put (query : string) (rs : list WebSearchResult)
| Tick (d : Z).

Definition run_op (st : State) (op : cache_op) : State :=
  match op with
  | Get query => snd (getCachedSearch query st)
  | Put query rs => setCachedSearch query rs st
  | Tick d => advance d st
  end.

Definition run_ops (ops : list cache_op) (st : State) : State :=
  fold_left run_op ops st.

(** The keys the program stores are questions that passed the
    [!question] test of [getWebResultsForQuestion]. *)
Definition keyed (op : cache_op) : Prop :=
  match op with
  | Put query _ => query <> EmptyString
  | _ => True
  end.

Definition entry_ok (kv : string * CacheEntry) : Prop :=
  results (snd kv) <> [] /\ fst kv <> EmptyString.

Definition cache_inv (c : JsMap CacheEntry) : Prop :=
  map_wf c /\ map_size c <= SEARCH_CACHE_LIMIT /\ Forall entry_ok c.

(** The life of a host: requests handled one after the other, each after
    some time has passed. *)
Fixpoint serve (w : World) (requests : list (Z * Request)) (st : State) : State :=
  match requests with
  | [] => st
  | (elapsed, req) :: rest => serve w rest (snd (handler w req (advance elapsed st)))
  end.

(** ** Requests and questions *)

(** The question the handler works on, when its extraction does not throw. *)
Definition request_question (w : World) (req : Request) : attempt value :=
  try! b <- decode_body w req;
  extract_question (array_items (optProp b "messages")).

(** A valid request: POST, with a body whose [messages] is a non-empty
    array. *)
Definition valid_request (w : World) (req : Request) : Prop :=
  method req = "POST" /\
  exists b m ms,
    decode_body w req = Done b /\ getProp b "messages" = Done (VArr (m :: ms)).

(** The keywords [basicHeuristicAnswer] looks for. *)
Definition heuristic_keywords : list string :=
  [ "budget"; "spend"; "save"; "savings"; "invest"; "stock"; "etf";
    "runway"; "forecast"; "crypto" ].

Definition mentions_no_keyword (question : string) : bool :=
  forallb (fun k => negb (Js.includes (Js.toLowerCase question) k)) heuristic_keywords.

(** An ASCII unit. *)
Definition is_ascii (c : ascii) : bool := Nat.ltb (nat_of_ascii c) 128.

(** A word of ASCII units, none of them an upper-case letter. *)
Fixpoint lower_word (t : string) : bool :=
  match t with
  | EmptyString => true
  | String c t' => (is_ascii c && negb (Js.is_upper c) && lower_word t')%bool
  end.


(** A result as the [WebSearchResult] interface wants it: [title] and [url]
    are strings. *)
Definition result_ok (r : WebSearchResult) : Prop :=
  is_string (title r) = true /\ is_string (url r) = true.

(** What one search yields: at most five results, each well formed. *)
Definition results_ok (rs : list WebSearchResult) : Prop :=
  (List.length rs <= 5)%nat /\ Forall result_ok rs.

Definition cache_results_ok (c : JsMap CacheEntry) : Prop :=
  Forall (fun kv => results_ok (results (snd kv))) c.


Definition page (name address : string) : value :=
  VObj [("name", VStr name); ("url", VStr address)].

(** ** Concrete worlds and inputs *)

Definition sample_result : WebSearchResult :=
  {| title := VStr "Rates today"; url := VStr "https://example.org/rates"; snippet := None |}.

Definition numbered_query (n : nat) : string :=
  String "q" (String (ascii_of_nat (48 + n / 10)) (String (ascii_of_nat (48 + n mod 10)) EmptyString)).

(** [q01], ..., [q50], each stored with one result. *)
Definition fifty_puts : list cache_op :=
  List.map (fun n => Put (numbered_query n) [sample_result]) (seq 1 50).

(** The store after [q01], ..., [q50]: at capacity, oldest key [q01]. *)
Definition full_state : State := run_ops fifty_puts (initial_state 0).

(** A store at capacity whose oldest key is the empty string. *)
Definition blank_oldest_state : State :=
  run_ops (Put EmptyString [sample_result] :: firstn 49 fifty_puts) (initial_state 0).

(** One entry stored at time 0, read at two later times. *)
Definition one_entry_state (now : Z) : State :=
  {| searchCache := [("latest news", {| timestamp := 0; results := [sample_result] |})];
     clock := now;
     searchCalls := [] |}.

Definition no_env : Env :=
  {| OPENAI_API_KEY := None;
     BING_SEARCH_ENDPOINT := None;
     BING_SEARCH_KEY := None;
     SUPABASE_URL := None;
     SUPABASE_SERVICE_ROLE_KEY := None;
     SUPABASE_ANON_KEY := None;
     ALPHAVANTAGE_API_KEY := None |}.

(** Nothing configured, every upstream call failing. *)
Definition offline_world : World :=
  {| env := no_env;
     JSON_parse := JsonText.parse;
     Number_of := fun _ => None;
     search_fetch := fun _ _ => (0, FetchRejected);
     completion_fetch := fun _ => FetchRejected;
     exchange_rate_fetch := fun _ _ => FetchRejected;
     global_quote_fetch := fun _ => FetchRejected;
     simple_price_fetch := fun _ _ => FetchRejected;
     createClient := fun _ _ => Raised;
     financial_overview_single := fun _ => Raised;
     transactions_select := fun _ _ => Raised |}.

Definition search_env : Env :=
  {| OPENAI_API_KEY := None;
     BING_SEARCH_ENDPOINT := Some "https://api.bing.microsoft.com/v7.0/search";
     BING_SEARCH_KEY := Some "key";
     SUPABASE_URL := None;
     SUPABASE_SERVICE_ROLE_KEY := None;
     SUPABASE_ANON_KEY := None;
     ALPHAVANTAGE_API_KEY := None |}.

(** Only the search provider configured; it answers every request with
    [reply] after 120 ms. *)
Definition search_world (reply : fetch_reply) : World :=
  {| env := search_env;
     JSON_parse := JsonText.parse;
     Number_of := fun _ => None;
     search_fetch := fun _ _ => (120, reply);
     completion_fetch := fun _ => FetchRejected;
     exchange_rate_fetch := fun _ _ => FetchRejected;
     global_quote_fetch := fun _ => FetchRejected;
     simple_price_fetch := fun _ _ => FetchRejected;
     createClient := fun _ _ => Raised;
     financial_overview_single := fun _ => Raised;
     transactions_select := fun _ _ => Raised |}.

Definition one_page : fetch_reply :=
  FetchResponse true 200
    (Done (VObj [("webPages",
                  VObj [("value",
                         VArr [VObj [("name", VStr "Rates today");
                                     ("url", VStr "https://example.org/rates")]])])])).

Definition service_unavailable : fetch_reply := FetchResponse false 503 Raised.

Definition user_message (t : string) : value :=
  VObj [("role", VStr "user"); ("text", VStr t)].

Definition post (messages : list value) : Request :=
  {| method := "POST"; body := VObj [("messages", VArr messages)] |}.

Definition full_env : Env :=
  {| OPENAI_API_KEY := Some "sk-test";
     BING_SEARCH_ENDPOINT := Some "https://api.bing.microsoft.com/v7.0/search";
     BING_SEARCH_KEY := Some "key";
     SUPABASE_URL := None;
     SUPABASE_SERVICE_ROLE_KEY := None;
     SUPABASE_ANON_KEY := None;
     ALPHAVANTAGE_API_KEY := None |}.

Definition one_choice : fetch_reply :=
  FetchResponse true 200
    (Done (VObj [("choices",
                  VArr [VObj [("message",
                               VObj [("role", VStr "assistant");
                                     ("content", VStr " Rates moved today. ")])]])])).

(** The search and the completion providers configured and answering. *)
Definition full_world : World :=
  {| env := full_env;
     JSON_parse := JsonText.parse;
     Number_of := fun _ => None;
     search_fetch := fun _ _ => (120, one_page);
     completion_fetch := fun _ => one_choice;
     exchange_rate_fetch := fun _ _ => FetchRejected;
     global_quote_fetch := fun _ => FetchRejected;
     simple_price_fetch := fun _ _ => FetchRejected;
     createClient := fun _ _ => Raised;
     financial_overview_single := fun _ => Raised;
     transactions_select := fun _ _ => Raised |}.

Definition text_request (raw : string) : Request :=
  {| method := "POST"; body := VStr raw |}.

(** A reply of the exchange-rate provider that carries a rate. *)
Definition rate_reply (rate : value) : fetch_reply :=
  FetchResponse true 200
    (Done (VObj [("Realtime Currency Exchange Rate",
                  VObj [("1. From_Currency Code", VStr "USD");
                        ("5. Exchange Rate", rate)])])).

(** Alpha Vantage configured: [EUR] quoted at 0.92, every other pair failing;
    [Number] reads that one numeral. *)
Definition fx_world : World :=
  {| env := {| OPENAI_API_KEY := None;
               BING_SEARCH_ENDPOINT := None;
               BING_SEARCH_KEY := None;
               SUPABASE_URL := None;
               SUPABASE_SERVICE_ROLE_KEY := None;
               SUPABASE_ANON_KEY := None;
               ALPHAVANTAGE_API_KEY := Some "demo" |};
     JSON_parse := JsonText.parse;
     Number_of := fun v => match v with
                           | VStr "0.92000000" => Some (Finite 0.92)
                           | _ => None
                           end;
     search_fetch := fun _ _ => (0, FetchRejected);
     completion_fetch := fun _ => FetchRejected;
     exchange_rate_fetch := fun _ symbol =>
                              if String.eqb symbol "EUR" then rate_reply (VStr "0.92000000")
                              else FetchRejected;
     global_quote_fetch := fun _ => FetchRejected;
     simple_price_fetch := fun _ _ => FetchRejected;
     createClient := fun _ _ => Raised;
     financial_overview_single := fun _ => Raised;
     transactions_select := fun _ _ => Raised |}.




Definition disclaimer : string :=
  "Aurora is not a tax, legal, or investment advisor. Treat these outputs as educational guidance, not directives.".

(** Supabase configured with both keys; the overview row of every user has a
    currency and nothing else. *)
Definition supabase_world : World :=
  {| env := {| OPENAI_API_KEY := None;
               BING_SEARCH_ENDPOINT := None;
               BING_SEARCH_KEY := None;
               SUPABASE_URL := Some "https://project.supabase.co";
               SUPABASE_SERVICE_ROLE_KEY := Some "service";
               SUPABASE_ANON_KEY := Some "anon";
               ALPHAVANTAGE_API_KEY := None |};
     JSON_parse := JsonText.parse;
     Number_of := fun _ => None;
     search_fetch := fun _ _ => (0, FetchRejected);
     completion_fetch := fun _ => FetchRejected;
     exchange_rate_fetch := fun _ _ => FetchRejected;
     global_quote_fetch := fun _ => FetchRejected;
     simple_price_fetch := fun _ _ => FetchRejected;
     createClient := fun _ key => if String.eqb key "service" then Done tt else Raised;
     financial_overview_single :=
       fun _ => Done (VObj [("currency", VStr "EUR"); ("goals", VNull)], VNull);
     transactions_select := fun _ _ => Done (VNull, VObj [("message", VStr "denied")]) |}.



(** A reply the page can read: an OK status and a JSON body that is neither
    [null] nor [undefined]. *)
Definition reply_usable (r : fetch_reply) : bool :=
  match r with
  | FetchResponse true _ (Done data) => negb (nullish data)
  | _ => false
  end.

(** What the page answers on its own. *)
Definition mock_reply (question : string) : ChatPage.Reply.t :=
  {| ChatPage.Reply.text := VStr (fst (ChatPage.mockFinanceAiResponse question));
     ChatPage.Reply.confidence := 0.93%Q;
     ChatPage.Reply.sources := None;
     ChatPage.Reply.usedSearch := false |}.

(** A source of the envelope, as the page lists it. *)
Definition listed (r : WebSearchResult) (s : ChatPage.ChatSource) : Prop :=
  url r = VStr (ChatPage.url s) /\ ChatPage.title s = title r /\
  ChatPage.snippet s = snippet r.

(** A search result whose [url] is the page's placeholder. *)
Definition placeholder_page : fetch_reply :=
  FetchResponse true 200
    (Done (VObj [("webPages",
                  VObj [("value",
                         VArr [VObj [("name", VStr "Rates today");
                                     ("url", VStr "#")]])])])).

(** [full_world], with that result as the only one found. *)
Definition placeholder_world : World :=
  {| env := full_env;
     JSON_parse := JsonText.parse;
     Number_of := fun _ => None;
     search_fetch := fun _ _ => (120, placeholder_page);
     completion_fetch := fun _ => one_choice;
     exchange_rate_fetch := fun _ _ => FetchRejected;
     global_quote_fetch := fun _ => FetchRejected;
     simple_price_fetch := fun _ _ => FetchRejected;
     createClient := fun _ _ => Raised;
     financial_overview_single := fun _ => Raised;
     transactions_select := fun _ _ => Raised |}.

(** Case analysis on every test of the goal. *)
Ltac split_ifs :=
  repeat match goal with
         | |- context [if ?b then _ else _] => destruct b
         end.

(* ================================================================== *)
(** * Properties *)

(** ** Insertion-ordered maps *)

Section JsMapFacts.
Context {V : Type}.
Implicit Types (m : JsMap V) (k : string) (v : V).

Lemma map_get_delete_same m k : map_get (map_delete m k) k = None.
Proof.
  induction m as [|[k' v'] m IH]; simpl; [reflexivity|].
  destruct (String.eqb k' k) eqn:E; [exact IH|].
  simpl. rewrite E. exact IH.
Qed.

Lemma map_get_delete_other m k k' :
  k <> k' -> map_get (map_delete m k) k' = map_get m k'.
Proof.
  intros Hne. induction m as [|[k0 v0] m IH]; simpl; [reflexivity|].
  destruct (String.eqb_spec k0 k) as [->|Hk].
  - rewrite IH. destruct (String.eqb_spec k k'); [contradiction|reflexivity].
  - simpl. rewrite IH. reflexivity.
Qed.

Lemma map_get_set_same m k v : map_get (map_set m k v) k = Some v.
Proof.
  induction m as [|[k' v'] m IH]; simpl.
  - now rewrite String.eqb_refl.
  - destruct (String.eqb k' k) eqn:E; simpl.
    + now rewrite String.eqb_refl.
    + now rewrite E.
Qed.

Lemma map_get_set_other m k v k' :
  k <> k' -> map_get (map_set m k v) k' = map_get m k'.
Proof.
  intros Hne. induction m as [|[k0 v0] m IH]; simpl.
  - destruct (String.eqb_spec k k'); [contradiction|reflexivity].
  - destruct (String.eqb_spec k0 k) as [->|Hk]; simpl.
    + destruct (String.eqb_spec k k'); [contradiction|reflexivity].
    + now rewrite IH.
Qed.

Lemma map_get_None_keys m k : map_get m k = None <-> ~ In k (map_keys m).
Proof.
  induction m as [|[k' v'] m IH]; simpl.
  - tauto.
  - destruct (String.eqb_spec k' k) as [->|Hk].
    + split; [discriminate|]. intros H. exfalso. apply H. now left.
    + rewrite IH. tauto.
Qed.

Lemma map_delete_absent m k : ~ In k (map_keys m) -> map_delete m k = m.
Proof.
  induction m as [|[k' v'] m IH]; simpl; [reflexivity|].
  intros Hnot. destruct (String.eqb_spec k' k) as [->|Hk].
  - exfalso. apply Hnot. now left.
  - f_equal. apply IH. tauto.
Qed.

(** On a well-formed map, deleting the first key removes the first binding
    and nothing else. *)
Lemma map_delete_first m k v :
  map_wf ((k, v) :: m) -> map_delete ((k, v) :: m) k = m.
Proof.
  unfold map_wf. simpl. intros Hwf. inversion Hwf as [|? ? Hnot _]; subst.
  rewrite String.eqb_refl. now apply map_delete_absent.
Qed.

Lemma map_delete_keys_incl m k k' :
  In k' (map_keys (map_delete m k)) -> In k' (map_keys m).
Proof.
  induction m as [|[k0 v0] m IH]; simpl; [tauto|].
  destruct (String.eqb k0 k); simpl; intuition.
Qed.

Lemma map_delete_wf m k : map_wf m -> map_wf (map_delete m k).
Proof.
  unfold map_wf. induction m as [|[k0 v0] m IH]; simpl; intros Hwf; [constructor|].
  inversion Hwf as [|? ? Hnot Hrest]; subst.
  destruct (String.eqb k0 k); [now apply IH|].
  simpl. constructor; [|now apply IH].
  intros Hin. apply Hnot. eapply map_delete_keys_incl. exact Hin.
Qed.

Lemma map_set_keys_incl m k v k' :
  In k' (map_keys (map_set m k v)) -> k' = k \/ In k' (map_keys m).
Proof.
  induction m as [|[k0 v0] m IH]; simpl.
  - intuition.
  - destruct (String.eqb_spec k0 k) as [->|Hk]; simpl; intuition.
Qed.

Lemma map_set_wf m k v : map_wf m -> map_wf (map_set m k v).
Proof.
  unfold map_wf. induction m as [|[k0 v0] m IH]; simpl; intros Hwf.
  - repeat constructor. simpl. tauto.
  - inversion Hwf as [|? ? Hnot Hrest]; subst.
    destruct (String.eqb_spec k0 k) as [->|Hk]; simpl.
    + now constructor.
    + constructor; [|now apply IH].
      intros Hin. apply map_set_keys_incl in Hin. destruct Hin; [congruence|contradiction].
Qed.

Lemma map_delete_size_le m k : map_size (map_delete m k) <= map_size m.
Proof.
  unfold map_size. induction m as [|[k0 v0] m IH]; simpl; [lia|].
  destruct (String.eqb k0 k); simpl; lia.
Qed.

Lemma map_set_size_le m k v : map_size (map_set m k v) <= map_size m + 1.
Proof.
  unfold map_size. induction m as [|[k0 v0] m IH]; simpl; [lia|].
  destruct (String.eqb k0 k); simpl; lia.
Qed.

Lemma map_set_size_present m k v v0 :
  map_get m k = Some v0 -> map_size (map_set m k v) = map_size m.
Proof.
  unfold map_size. induction m as [|[k' v'] m IH]; simpl; [discriminate|].
  destruct (String.eqb k' k); simpl; [reflexivity|].
  intros H. apply IH in H. lia.
Qed.

Lemma map_delete_Forall (P : string * V -> Prop) m k :
  Forall P m -> Forall P (map_delete m k).
Proof.
  induction m as [|[k0 v0] m IH]; simpl; intros H; [constructor|].
  inversion H; subst. destruct (String.eqb k0 k); [now apply IH|].
  constructor; [assumption|now apply IH].
Qed.

Lemma map_set_Forall (P : string * V -> Prop) m k v :
  P (k, v) -> Forall P m -> Forall P (map_set m k v).
Proof.
  intros Hkv. induction m as [|[k0 v0] m IH]; simpl; intros H.
  - now repeat constructor.
  - inversion H; subst. destruct (String.eqb k0 k); constructor; auto.
Qed.

End JsMapFacts.

(** ** Strings *)

Lemma is_empty_false (s : string) : s <> EmptyString -> Js.is_empty s = false.
Proof. destruct s; [congruence|reflexivity]. Qed.

Lemma is_empty_true (s : string) : Js.is_empty s = true -> s = EmptyString.
Proof. destruct s; [reflexivity|discriminate]. Qed.

Lemma includes_unfold (s t : string) :
  Js.includes s t
  = (prefix t s || match s with
                   | EmptyString => false
                   | String _ s' => Js.includes s' t
                   end)%bool.
Proof. destruct s; reflexivity. Qed.

Lemma prefix_empty (s : string) : prefix EmptyString s = true.
Proof. destruct s; reflexivity. Qed.

Lemma includes_tail (c : ascii) (s t : string) :
  Js.includes s t = true -> Js.includes (String c s) t = true.
Proof. intros H. rewrite includes_unfold, H. apply orb_true_r. Qed.

Lemma includes_other_head (c a : ascii) (s t : string) :
  c <> a -> Js.includes (String c s) (String a t) = Js.includes s (String a t).
Proof.
  intros Hne. rewrite includes_unfold. simpl prefix.
  destruct (ascii_dec a c) as [->|_]; [congruence|reflexivity].
Qed.

Lemma string_length_ind (P : string -> Prop) :
  (forall s, (forall r, (String.length r < String.length s)%nat -> P r) -> P s) ->
  forall s, P s.
Proof.
  intros Hstep s.
  assert (H : forall n r, (String.length r < n)%nat -> P r).
  { induction n as [|n IH]; intros r Hr; [lia|].
    apply Hstep. intros r' Hr'. apply IH. lia. }
  apply (H (S (String.length s))). lia.
Qed.

Lemma unit_is_eq (n : nat) (c : ascii) : Js.unit_is n c = true -> nat_of_ascii c = n.
Proof. unfold Js.unit_is. apply Nat.eqb_eq. Qed.

Lemma is_ascii_ne (c a : ascii) : is_ascii c = false -> is_ascii a = true -> c <> a.
Proof. intros Hc Ha ->. congruence. Qed.



(** *** Lower case *)

(** A unit that starts neither of the two converted characters is converted
    on its own. *)
Lemma lower_other_head (c : ascii) (s : string) :
  Js.unit_is 196 c = false -> Js.unit_is 226 c = false ->
  Js.toLowerCase (String c s) = String (Js.lower_unit c) (Js.toLowerCase s).
Proof.
  intros H196 H226. destruct s as [|c2 [|c3 s3]]; cbn [Js.toLowerCase];
    unfold Js.is_dotted_I, Js.is_kelvin; rewrite ?H196, ?H226; reflexivity.
Qed.

Lemma lower_ascii_head (c : ascii) (s : string) :
  is_ascii c = true ->
  Js.toLowerCase (String c s) = String (Js.lower_unit c) (Js.toLowerCase s).
Proof.
  intros Hc. apply lower_other_head; unfold Js.unit_is; apply Nat.eqb_neq;
    unfold is_ascii in Hc; apply Nat.ltb_lt in Hc; lia.
Qed.

Lemma lower_continuation (c : ascii) (s : string) :
  (128 <= nat_of_ascii c < 192)%nat ->
  Js.toLowerCase (String c s) = String c (Js.toLowerCase s).
Proof.
  intros Hc. rewrite lower_other_head.
  - unfold Js.lower_unit, Js.is_upper.
    destruct (Nat.leb_spec 65 (nat_of_ascii c)); destruct (Nat.leb_spec (nat_of_ascii c) 90);
      cbn [andb]; try reflexivity; lia.
  - unfold Js.unit_is. apply Nat.eqb_neq. lia.
  - unfold Js.unit_is. apply Nat.eqb_neq. lia.
Qed.

(** The three ways [toLowerCase] treats the head of a text. *)
Lemma lower_cases (c : ascii) (s : string) :
  Js.toLowerCase (String c s) = String (Js.lower_unit c) (Js.toLowerCase s) \/
  (exists c2 s2,
     s = String c2 s2 /\ is_ascii c2 = false /\
     Js.toLowerCase (String c s) = String "i" (Js.dot_above (Js.toLowerCase s2)) /\
     Js.toLowerCase s = String c2 (Js.toLowerCase s2)) \/
  (exists c2 c3 s3,
     s = String c2 (String c3 s3) /\ is_ascii c2 = false /\ is_ascii c3 = false /\
     Js.toLowerCase (String c s) = String "k" (Js.toLowerCase s3) /\
     Js.toLowerCase s = String c2 (String c3 (Js.toLowerCase s3))).
Proof.
  destruct s as [|c2 s2]; [now left|].
  destruct (Js.is_dotted_I c c2) eqn:Hdot.
  - right. left. exists c2, s2.
    assert (H2 : nat_of_ascii c2 = 176%nat).
    { unfold Js.is_dotted_I in Hdot. apply andb_true_iff in Hdot.
      now apply unit_is_eq. }
    split; [reflexivity|]. split; [unfold is_ascii; now rewrite H2|]. split.
    + cbn [Js.toLowerCase]. now rewrite Hdot.
    + apply lower_continuation. lia.
  - destruct s2 as [|c3 s3].
    + left. cbn [Js.toLowerCase]. now rewrite Hdot.
    + destruct (Js.is_kelvin c c2 c3) eqn:Hk.
      * right. right. exists c2, c3, s3.
        unfold Js.is_kelvin in Hk. apply andb_true_iff in Hk. destruct Hk as [Hk H3].
        apply andb_true_iff in Hk. destruct Hk as [H1 H2].
        pose proof (unit_is_eq _ _ H2) as E2. pose proof (unit_is_eq _ _ H3) as E3.
        split; [reflexivity|]. split; [unfold is_ascii; now rewrite E2|].
        split; [unfold is_ascii; now rewrite E3|]. split.
        -- cbn [Js.toLowerCase]. rewrite Hdot. unfold Js.is_kelvin. now rewrite H1, H2, H3.
        -- rewrite lower_continuation by lia. now rewrite lower_continuation by lia.
      * left. cbn [Js.toLowerCase]. now rewrite Hdot, Hk.
Qed.

Lemma lower_word_head (a : ascii) (t : string) :
  lower_word (String a t) = true ->
  is_ascii a = true /\ Js.lower_unit a = a /\ lower_word t = true.
Proof.
  cbn [lower_word]. intros H. apply andb_true_iff in H. destruct H as [H Ht].
  apply andb_true_iff in H. destruct H as [Ha Hup]. apply negb_true_iff in Hup.
  unfold Js.lower_unit. now rewrite Hup.
Qed.

Lemma prefix_lower_word (t : string) :
  lower_word t = true ->
  forall s, prefix t s = true -> prefix t (Js.toLowerCase s) = true.
Proof.
  induction t as [|a t IH]; intros Ht s; [intros _; apply prefix_empty|].
  destruct (lower_word_head a t Ht) as (Ha & Hlow & Ht').
  destruct s as [|b s]; cbn [prefix]; [discriminate|].
  destruct (ascii_dec a b) as [<-|]; [|discriminate].
  intros H. rewrite (lower_ascii_head a s Ha), Hlow. cbn [prefix].
  destruct (ascii_dec a a); [|congruence]. now apply IH.
Qed.

(** A text that contains a lower-case ASCII word still contains it once in
    lower case. *)
Lemma includes_lower_word (t : string) :
  lower_word t = true ->
  forall s, Js.includes s t = true -> Js.includes (Js.toLowerCase s) t = true.
Proof.
  intros Ht. induction s as [|c s IH]; intros H; rewrite includes_unfold in H;
    apply orb_true_iff in H.
  - destruct H as [H|H]; [|discriminate].
    rewrite includes_unfold. now rewrite (prefix_lower_word t Ht _ H).
  - destruct H as [H|H].
    + rewrite includes_unfold. now rewrite (prefix_lower_word t Ht _ H).
    + apply IH in H. clear IH.
      destruct t as [|a t]; [rewrite includes_unfold; now rewrite prefix_empty|].
      destruct (lower_word_head a t Ht) as (Ha & _ & _).
      destruct (lower_cases c s)
        as [->|[(c2 & s2 & -> & H2 & -> & Hs)|(c2 & c3 & s3 & -> & H2 & H3 & -> & Hs)]].
      * now apply includes_tail.
      * rewrite Hs in H. rewrite includes_other_head in H by now apply is_ascii_ne.
        unfold Js.dot_above. now do 3 apply includes_tail.
      * rewrite Hs in H. rewrite !includes_other_head in H by now apply is_ascii_ne.
        now apply includes_tail.
Qed.


(** *** White space *)

Lemma trimStart_unfold (s : string) :
  Js.trimStart s
  = match Js.after_space s with
    | Some r => Js.trimStart r
    | None => s
    end.
Proof.
  destruct s as [|c1 [|c2 [|c3 s3]]]; cbn [Js.trimStart Js.after_space];
    try reflexivity.
  - now destruct (Js.is_space c1).
  - destruct (Js.is_space c1); [reflexivity|]. now destruct (Js.is_nbsp c1 c2).
  - destruct (Js.is_space c1); [reflexivity|]. destruct (Js.is_nbsp c1 c2); [reflexivity|].
    now destruct (Js.is_wide_space c1 c2 c3).
Qed.

Lemma is_wide_space_units (c1 c2 c3 : ascii) :
  Js.is_wide_space c1 c2 c3 = true ->
  is_ascii c1 = false /\ is_ascii c2 = false /\ is_ascii c3 = false.
Proof.
  unfold Js.is_wide_space, Js.unit_is, is_ascii.
  intros H.
  repeat match type of H with
         | (_ || _)%bool = true => apply orb_true_iff in H; destruct H as [H|H]
         end;
    repeat match goal with
           | H : (_ && _)%bool = true |- _ => apply andb_true_iff in H; destruct H
           | H : (_ || _)%bool = true |- _ => apply orb_true_iff in H; destruct H
           | H : Nat.eqb _ _ = true |- _ => apply Nat.eqb_eq in H
           | H : Nat.leb _ _ = true |- _ => apply Nat.leb_le in H
           end;
    repeat split; apply Nat.ltb_ge; lia.
Qed.

Lemma is_nbsp_units (c1 c2 : ascii) :
  Js.is_nbsp c1 c2 = true -> is_ascii c1 = false /\ is_ascii c2 = false.
Proof.
  unfold Js.is_nbsp, Js.unit_is, is_ascii. intros H.
  apply andb_true_iff in H. destruct H as [H1 H2].
  apply Nat.eqb_eq in H1, H2. split; apply Nat.ltb_ge; lia.
Qed.

(** The white-space character at the head of a text: one ASCII unit, or two
    or three units outside ASCII. *)
Lemma after_space_cases (s r : string) :
  Js.after_space s = Some r ->
  (exists c1, s = String c1 r /\ Js.is_space c1 = true) \/
  (exists c1 c2, s = String c1 (String c2 r) /\ is_ascii c1 = false /\ is_ascii c2 = false) \/
  (exists c1 c2 c3,
     s = String c1 (String c2 (String c3 r)) /\
     is_ascii c1 = false /\ is_ascii c2 = false /\ is_ascii c3 = false).
Proof.
  destruct s as [|c1 s1]; cbn [Js.after_space]; [discriminate|].
  destruct (Js.is_space c1) eqn:H1; [intros [= <-]; left; now exists c1|].
  destruct s1 as [|c2 s2]; [discriminate|].
  destruct (Js.is_nbsp c1 c2) eqn:H2.
  { intros [= <-]. right. left. exists c1, c2.
    destruct (is_nbsp_units _ _ H2). now repeat split. }
  destruct s2 as [|c3 s3]; [discriminate|].
  destruct (Js.is_wide_space c1 c2 c3) eqn:H3; [|discriminate].
  intros [= <-]. right. right. exists c1, c2, c3.
  destruct (is_wide_space_units _ _ _ H3) as (? & ? & ?). now repeat split.
Qed.

Lemma after_space_shorter (s r : string) :
  Js.after_space s = Some r -> (String.length r < String.length s)%nat.
Proof.
  intros H. destruct (after_space_cases s r H)
    as [(c1 & -> & _)|[(c1 & c2 & -> & _)|(c1 & c2 & c3 & -> & _)]]; simpl; lia.
Qed.

Lemma after_space_app (s r x : string) :
  Js.after_space s = Some r -> Js.after_space (s ++ x) = Some (r ++ x).
Proof.
  destruct s as [|c1 s1]; cbn [Js.after_space append]; [discriminate|].
  destruct (Js.is_space c1); [now intros [= <-]|].
  destruct s1 as [|c2 s2]; [discriminate|]. cbn [append].
  destruct (Js.is_nbsp c1 c2); [now intros [= <-]|].
  destruct s2 as [|c3 s3]; [discriminate|]. cbn [append].
  destruct (Js.is_wide_space c1 c2 c3); [now intros [= <-]|discriminate].
Qed.

Lemma trimStart_length (s : string) :
  (String.length (Js.trimStart s) <= String.length s)%nat.
Proof.
  induction s as [s IH] using string_length_ind. rewrite trimStart_unfold.
  destruct (Js.after_space s) as [r|] eqn:Hr; [|lia].
  pose proof (after_space_shorter s r Hr). specialize (IH r H). lia.
Qed.

Lemma trimStart_idem (s : string) : Js.trimStart (Js.trimStart s) = Js.trimStart s.
Proof.
  induction s as [s IH] using string_length_ind. rewrite (trimStart_unfold s).
  destruct (Js.after_space s) as [r|] eqn:Hr.
  - apply IH. now apply after_space_shorter.
  - rewrite trimStart_unfold. now rewrite Hr.
Qed.



Lemma trimEnd_empty (s : string) :
  Js.trimEnd s = EmptyString -> Js.blank s = true.
Proof.
  destruct s as [|c s]; [reflexivity|]. cbn [Js.trimEnd].
  now destruct (Js.blank (String c s)).
Qed.

(** A text that [trim] empties has nothing but white space from its start. *)
Lemma trim_empty (s : string) :
  Js.is_empty (Js.trim s) = true -> Js.trimStart s = EmptyString.
Proof.
  intros H. apply is_empty_true in H. unfold Js.trim in H.
  apply trimEnd_empty in H. unfold Js.blank in H. rewrite trimStart_idem in H.
  now apply is_empty_true.
Qed.

(** White space holds no ASCII unit other than the six of [is_space]. *)
Lemma blank_excludes (c : ascii) (t : string) :
  is_ascii c = true -> Js.is_space c = false ->
  forall s, Js.trimStart s = EmptyString -> Js.includes s (String c t) = false.
Proof.
  intros Hc Hs s. induction s as [s IH] using string_length_ind.
  rewrite trimStart_unfold.
  destruct (Js.after_space s) as [r|] eqn:Hr.
  - intros Hblank. specialize (IH r (after_space_shorter s r Hr) Hblank).
    destruct (after_space_cases s r Hr)
      as [(c1 & -> & H1)|[(c1 & c2 & -> & H1 & H2)|(c1 & c2 & c3 & -> & H1 & H2 & H3)]].
    + rewrite includes_other_head; [exact IH|]. intros ->. congruence.
    + rewrite !includes_other_head by now apply is_ascii_ne. exact IH.
    + rewrite !includes_other_head by now apply is_ascii_ne. exact IH.
  - intros ->. reflexivity.
Qed.

Lemma trimEnd_split (s : string) :
  exists r, s = (Js.trimEnd s ++ r)%string /\ Js.blank r = true.
Proof.
  induction s as [|c s [r [Hs Hr]]]; [now exists EmptyString|].
  cbn [Js.trimEnd]. destruct (Js.blank (String c s)) eqn:Hb.
  - now exists (String c s).
  - exists r. split; [|exact Hr]. cbn [append]. now rewrite <- Hs.
Qed.

Lemma blank_app (p r : string) :
  Js.blank p = true -> Js.blank r = true -> Js.blank (p ++ r) = true.
Proof.
  intros Hp Hr. induction p as [p IH] using string_length_ind.
  unfold Js.blank in *. rewrite trimStart_unfold in Hp. rewrite trimStart_unfold.
  destruct (Js.after_space p) as [p'|] eqn:Hp'.
  - rewrite (after_space_app p p' r Hp'). apply IH; [|exact Hp].
    now apply after_space_shorter.
  - apply is_empty_true in Hp. subst p. cbn [append]. now rewrite <- trimStart_unfold.
Qed.

Lemma trimEnd_idem (s : string) : Js.trimEnd (Js.trimEnd s) = Js.trimEnd s.
Proof.
  induction s as [|c s IH]; [reflexivity|]. cbn [Js.trimEnd].
  destruct (Js.blank (String c s)) eqn:Hb; [reflexivity|].
  cbn [Js.trimEnd]. rewrite IH.
  destruct (Js.blank (String c (Js.trimEnd s))) eqn:Hb'; [|reflexivity].
  destruct (trimEnd_split s) as (r & Hs & Hr).
  pose proof (blank_app _ _ Hb' Hr) as H. cbn [append] in H. rewrite <- Hs in H.
  congruence.
Qed.

Lemma trimStart_trimEnd (s : string) :
  Js.trimStart (Js.trimEnd (Js.trimStart s)) = Js.trimEnd (Js.trimStart s).
Proof.
  pose proof (trimStart_idem s) as Hfix. set (t := Js.trimStart s) in *.
  rewrite trimStart_unfold.
  destruct (Js.after_space (Js.trimEnd t)) as [r'|] eqn:Hr'; [|reflexivity].
  exfalso. destruct (trimEnd_split t) as (r & Ht & _).
  pose proof (after_space_app _ _ r Hr') as Happ. rewrite <- Ht in Happ.
  pose proof (after_space_shorter _ _ Happ) as Hshort.
  rewrite trimStart_unfold, Happ in Hfix.
  pose proof (trimStart_length (r' ++ r)) as Hlen. rewrite Hfix in Hlen. lia.
Qed.

Lemma trim_idem (s : string) : Js.trim (Js.trim s) = Js.trim s.
Proof.
  unfold Js.trim. now rewrite trimStart_trimEnd, trimEnd_idem.
Qed.

(** ** Search cache: lookups *)

(** [getCachedSearch] touches nothing but the cache. *)
Lemma getCachedSearch_frame query st :
  clock (snd (getCachedSearch query st)) = clock st /\
  searchCalls (snd (getCachedSearch query st)) = searchCalls st.
Proof.
  unfold getCachedSearch.
  destruct (map_get (searchCache st) query) as [entry|]; [|now split].
  destruct (clock st - timestamp entry >? SEARCH_TTL_MS); now split.
Qed.

Lemma getCachedSearch_inv query st :
  cache_inv (searchCache st) -> cache_inv (searchCache (snd (getCachedSearch query st))).
Proof.
  intros (Hwf & Hsize & Hall). unfold getCachedSearch.
  destruct (map_get (searchCache st) query) as [entry|]; [|now repeat split].
  destruct (clock st - timestamp entry >? SEARCH_TTL_MS); [|now repeat split].
  simpl. repeat split.
  - now apply map_delete_wf.
  - pose proof (map_delete_size_le (searchCache st) query). lia.
  - now apply map_delete_Forall.
Qed.

(** What [setCachedSearch] leaves in the store when the results are not
    empty and the oldest key, if the store is full, is not the empty string. *)
Lemma setCachedSearch_inv query rs st :
  query <> EmptyString ->
  cache_inv (searchCache st) -> cache_inv (searchCache (setCachedSearch query rs st)).
Proof.
  intros Hq (Hwf & Hsize & Hall). unfold setCachedSearch.
  destruct rs as [|r rs]; [now repeat split|].
  cbn [searchCache with_cache].
  set (entry := {| timestamp := clock st; results := r :: rs |}).
  assert (Hentry : entry_ok (query, entry)) by (split; [discriminate|exact Hq]).
  destruct (map_size (searchCache st) >=? SEARCH_CACHE_LIMIT) eqn:Hfull.
  - destruct (searchCache st) as [|[k0 e0] rest] eqn:Hc.
    + vm_compute in Hfull. discriminate.
    + cbn [map_first_key].
      assert (Hk0 : k0 <> EmptyString) by (inversion Hall as [|? ? [_ H] _]; exact H).
      rewrite (is_empty_false _ Hk0), map_delete_first by exact Hwf.
      inversion Hall as [|? ? _ Hrest]; subst.
      unfold map_wf in Hwf. simpl in Hwf. inversion Hwf as [|? ? _ Hwf']; subst.
      repeat split.
      * now apply map_set_wf.
      * pose proof (map_set_size_le rest query entry).
        unfold map_size in *. simpl in Hsize. lia.
      * now apply map_set_Forall.
  - repeat split.
    + now apply map_set_wf.
    + pose proof (map_set_size_le (searchCache st) query entry). lia.
    + now apply map_set_Forall.
Qed.

Lemma run_op_inv op st :
  keyed op -> cache_inv (searchCache st) -> cache_inv (searchCache (run_op st op)).
Proof.
  destruct op as [query|query rs|d]; simpl; intros Hk Hinv.
  - now apply getCachedSearch_inv.
  - now apply setCachedSearch_inv.
  - exact Hinv.
Qed.

Lemma run_ops_inv ops : forall st,
  Forall keyed ops -> cache_inv (searchCache st) -> cache_inv (searchCache (run_ops ops st)).
Proof.
  induction ops as [|op ops IH]; intros st Hk Hinv; [exact Hinv|].
  inversion Hk; subst. simpl. apply IH; [assumption|]. now apply run_op_inv.
Qed.

Lemma cache_inv_empty : cache_inv (@nil (string * CacheEntry)).
Proof. repeat split; [constructor|vm_compute; discriminate|constructor]. Qed.

Lemma getCachedSearch_fresh query st entry :
  map_get (searchCache st) query = Some entry ->
  clock st - timestamp entry <= SEARCH_TTL_MS ->
  getCachedSearch query st = (Some (results entry), st).
Proof.
  unfold getCachedSearch. intros -> Hfresh.
  destruct (Z.gtb_spec (clock st - timestamp entry) SEARCH_TTL_MS); [lia|reflexivity].
Qed.

Lemma getCachedSearch_expired query st entry :
  map_get (searchCache st) query = Some entry ->
  clock st - timestamp entry > SEARCH_TTL_MS ->
  getCachedSearch query st = (None, with_cache st (map_delete (searchCache st) query)).
Proof.
  unfold getCachedSearch. intros -> Hold.
  destruct (Z.gtb_spec (clock st - timestamp entry) SEARCH_TTL_MS); [reflexivity|lia].
Qed.

(** C8.  A lookup returns results only when the store holds them for the
    query with [now - timestamp <= TTL]; a stored entry whose TTL has elapsed
    makes the lookup return nothing, whatever the size of the store, and the
    lookup removes that entry (and no other binding). *)
Theorem getCachedSearch_ttl (query : string) (st : State) :
  (forall rs, fst (getCachedSearch query st) = Some rs ->
     exists entry,
       map_get (searchCache st) query = Some entry /\ results entry = rs /\
       clock st - timestamp entry <= SEARCH_TTL_MS /\
       snd (getCachedSearch query st) = st) /\
  (forall entry,
     map_get (searchCache st) query = Some entry ->
     clock st - timestamp entry <= SEARCH_TTL_MS ->
     getCachedSearch query st = (Some (results entry), st)) /\
  (forall entry,
     map_get (searchCache st) query = Some entry ->
     clock st - timestamp entry > SEARCH_TTL_MS ->
     fst (getCachedSearch query st) = None /\
     map_get (searchCache (snd (getCachedSearch query st))) query = None /\
     forall other, other <> query ->
       map_get (searchCache (snd (getCachedSearch query st))) other
       = map_get (searchCache st) other).
Proof.
  split; [|split].
  - intros rs. unfold getCachedSearch.
    destruct (map_get (searchCache st) query) as [entry|]; [|discriminate].
    destruct (Z.gtb_spec (clock st - timestamp entry) SEARCH_TTL_MS); [discriminate|].
    simpl. intros [= <-]. exists entry. repeat split. lia.
  - apply getCachedSearch_fresh.
  - intros entry Hstored Hold.
    rewrite (getCachedSearch_expired _ _ _ Hstored Hold). simpl.
    split; [reflexivity|]. split; [apply map_get_delete_same|].
    intros other Hother. apply map_get_delete_other. congruence.
Qed.

Lemma getCachedSearch_ttl_witness :
  getCachedSearch "latest news" (one_entry_state 300000)
  = (Some [sample_result], one_entry_state 300000) /\
  fst (getCachedSearch "latest news" (one_entry_state 300001)) = None /\
  map_get (searchCache (snd (getCachedSearch "latest news" (one_entry_state 300001))))
    "latest news" = None.
Proof.
  split.
  - apply (proj1 (proj2 (getCachedSearch_ttl "latest news" (one_entry_state 300000)))
             {| timestamp := 0; results := [sample_result] |}).
    + reflexivity.
    + vm_compute. discriminate.
  - destruct (proj2 (proj2 (getCachedSearch_ttl "latest news" (one_entry_state 300001)))
                {| timestamp := 0; results := [sample_result] |}) as (Hnone & Hgone & _).
    + reflexivity.
    + vm_compute. reflexivity.
    + split; assumption.
Defined.

Lemma full_state_inv : cache_inv (searchCache full_state).
Proof.
  apply run_ops_inv; [|apply cache_inv_empty].
  unfold fifty_puts. apply Forall_forall. intros op Hin.
  apply in_map_iff in Hin. destruct Hin as (n & <- & _). simpl. discriminate.
Qed.

(** ** Web search *)

Lemma existsb_includes (q term : string) (terms : list string) :
  In term terms -> Js.includes q term = true ->
  existsb (fun t => Js.includes q t) terms = true.
Proof.
  intros Hin Hinc. apply existsb_exists. exists term. now split.
Qed.

Lemma performWebSearch_calls w query st :
  searchCalls (snd (performWebSearch w query st)) = searchCalls st \/
  searchCalls (snd (performWebSearch w query st)) = (searchCalls st ++ [query])%list.
Proof.
  unfold performWebSearch. destruct (search_configured w); simpl; [|now left].
  destruct (Js.isWellFormed query); simpl; [|now left].
  destruct (search_fetch w _ query) as [elapsed reply]. now right.
Qed.

(** A lookup sends at most one request, for the question itself, and only
    for a question the safety filter accepts. *)
Lemma getWebResultsForQuestion_calls w question st :
  searchCalls (snd (getWebResultsForQuestion w question st)) = searchCalls st \/
  (isSearchSafe question = true /\
   searchCalls (snd (getWebResultsForQuestion w question st)) = (searchCalls st ++ [question])%list).
Proof.
  unfold getWebResultsForQuestion.
  destruct (search_configured w); simpl; [|now left].
  destruct (Js.is_empty question); simpl; [now left|].
  destruct (isSearchSafe question) eqn:Hsafe; simpl; [|now left].
  destruct (shouldUseWebSearch question); simpl; [|now left].
  pose proof (getCachedSearch_frame question st) as [_ Hlog].
  destruct (getCachedSearch question st) as [[cached|] st1]; simpl in *; [now left|].
  pose proof (performWebSearch_calls w question st1) as Hcalls.
  destruct (performWebSearch w question st1) as [rs st2]. simpl in Hcalls.
  assert (Hend : searchCalls
                   (snd (match rs with
                         | [] => (rs, st2)
                         | _ :: _ => (rs, setCachedSearch question rs st2)
                         end)) = searchCalls st2).
  { destruct rs; reflexivity. }
  rewrite Hend, <- Hlog. destruct Hcalls as [->| ->]; [now left|right; now split].
Qed.

Lemma handler_try_state w req st :
  snd (handler_try w req st) = st \/
  exists q, request_question w req = Done (VStr q) /\
            snd (handler_try w req st) = snd (getWebResultsForQuestion w q st).
Proof.
  unfold handler_try, request_question.
  destruct (decode_body w req) as [b|]; simpl; [|now left].
  destruct (invalid_body b); [now left|].
  destruct (extract_question (array_items (optProp b "messages"))) as [[| | | |q| |]|];
    try now left.
  right. exists q. split; [reflexivity|].
  destruct (getWebResultsForQuestion w q st) as [webResults st'].
  destruct (generateAuroraAnswer w _); reflexivity.
Qed.

Lemma handler_state w req st :
  snd (handler w req st) = st \/
  exists q, request_question w req = Done (VStr q) /\
            snd (handler w req st) = snd (getWebResultsForQuestion w q st).
Proof.
  unfold handler. destruct (negb (String.eqb (method req) "POST")); [now left|].
  pose proof (handler_try_state w req st) as H.
  destruct (handler_try w req st) as [r st']. exact H.
Qed.

Lemma performWebSearch_cache w query st :
  searchCache (snd (performWebSearch w query st)) = searchCache st.
Proof.
  unfold performWebSearch. destruct (search_configured w); simpl; [|reflexivity].
  destruct (Js.isWellFormed query); simpl; [|reflexivity].
  now destruct (search_fetch w _ query).
Qed.

(** A lookup keeps the store within its bound: the only key it can insert
    is a question that passed the [!question] test. *)
Lemma getWebResultsForQuestion_inv w question st :
  cache_inv (searchCache st) ->
  cache_inv (searchCache (snd (getWebResultsForQuestion w question st))).
Proof.
  intros Hinv. unfold getWebResultsForQuestion.
  destruct (search_configured w); simpl; [|exact Hinv].
  destruct (Js.is_empty question) eqn:Hempty; simpl; [exact Hinv|].
  destruct (isSearchSafe question); simpl; [|exact Hinv].
  destruct (shouldUseWebSearch question); simpl; [|exact Hinv].
  pose proof (getCachedSearch_inv question st Hinv) as Hinv1.
  destruct (getCachedSearch question st) as [[cached|] st1]; simpl in *; [exact Hinv1|].
  pose proof (performWebSearch_cache w question st1) as Hsame.
  destruct (performWebSearch w question st1) as [rs st2]. simpl in Hsame.
  rewrite <- Hsame in Hinv1.
  destruct rs as [|r rs]; [exact Hinv1|].
  cbn [snd]. apply setCachedSearch_inv; [|exact Hinv1].
  intros ->. discriminate.
Qed.

Lemma handler_inv w req st :
  cache_inv (searchCache st) -> cache_inv (searchCache (snd (handler w req st))).
Proof.
  intros Hinv. destruct (handler_state w req st) as [->|(q & _ & ->)]; [exact Hinv|].
  now apply getWebResultsForQuestion_inv.
Qed.

Lemma serve_inv w requests : forall st,
  cache_inv (searchCache st) -> cache_inv (searchCache (serve w requests st)).
Proof.
  induction requests as [|[elapsed req] rest IH]; intros st Hinv; [exact Hinv|].
  cbn [serve]. apply IH. now apply handler_inv.
Qed.

(** ** Search cache: bound and eviction *)

(** At capacity, with an oldest key that is not the empty string, the
    oldest binding goes and the new entry is set on what remains. *)
Lemma setCachedSearch_at_capacity query rs st k0 e0 rest :
  rs <> [] ->
  searchCache st = (k0, e0) :: rest ->
  map_wf (searchCache st) ->
  map_size (searchCache st) >= SEARCH_CACHE_LIMIT ->
  k0 <> EmptyString ->
  searchCache (setCachedSearch query rs st)
  = map_set rest query {| timestamp := clock st; results := rs |}.
Proof.
  intros Hrs Hc Hwf Hfull Hk0.
  unfold setCachedSearch. destruct rs as [|r rs]; [congruence|].
  destruct (Z.geb_spec (map_size (searchCache st)) SEARCH_CACHE_LIMIT); [|lia].
  rewrite Hc in *. cbn [map_first_key].
  now rewrite (is_empty_false _ Hk0), map_delete_first by exact Hwf.
Qed.

(** C7.  The store never holds an empty result set and never exceeds
    [SEARCH_CACHE_LIMIT].  [setCachedSearch] with no results changes nothing.
    On a store at capacity it removes exactly the oldest binding and then
    inserts the new entry; the oldest key is not the empty string, because
    the only call of [setCachedSearch] is behind the [!question] test of
    [getWebResultsForQuestion].  Over every sequence of lookups, insertions
    under such keys and clock advances, the store keeps at most
    [SEARCH_CACHE_LIMIT] entries, none with an empty result set; every run of
    the handler keeps it so, and so does every sequence of runs from the
    start of the host. *)
Theorem setCachedSearch_bounded_fifo :
  (forall query st, setCachedSearch query [] st = st) /\
  (forall query rs st k0 e0 rest,
     rs <> [] ->
     searchCache st = (k0, e0) :: rest ->
     map_wf (searchCache st) ->
     map_size (searchCache st) >= SEARCH_CACHE_LIMIT ->
     k0 <> EmptyString ->
     searchCache (setCachedSearch query rs st)
     = map_set rest query {| timestamp := clock st; results := rs |}) /\
  (forall ops st,
     Forall keyed ops ->
     cache_inv (searchCache st) ->
     cache_inv (searchCache (run_ops ops st))) /\
  (forall ops now,
     Forall keyed ops ->
     map_size (searchCache (run_ops ops (initial_state now))) <= SEARCH_CACHE_LIMIT /\
     Forall (fun kv => results (snd kv) <> [])
       (searchCache (run_ops ops (initial_state now)))) /\
  (forall w req st,
     cache_inv (searchCache st) ->
     cache_inv (searchCache (snd (handler w req st)))) /\
  (forall w requests now,
     cache_inv (searchCache (serve w requests (initial_state now)))).
Proof.
  split; [reflexivity|]. split; [|split; [|split; [|split; [exact handler_inv|]]]].
  - apply setCachedSearch_at_capacity.
  - intros ops st Hk Hinv. now apply run_ops_inv.
  - intros ops now Hk.
    destruct (run_ops_inv ops (initial_state now) Hk cache_inv_empty) as (_ & Hsize & Hall).
    split; [exact Hsize|].
    eapply Forall_impl; [|exact Hall]. intros kv [H _]. exact H.
  - intros w requests now. apply serve_inv. exact cache_inv_empty.
Qed.

Lemma setCachedSearch_bounded_fifo_witness :
  searchCache (setCachedSearch "q51" [sample_result] full_state)
  = map_set (tl (searchCache full_state)) "q51"
      {| timestamp := 0; results := [sample_result] |} /\
  map_size (searchCache (run_ops (fifty_puts ++ [Put "q51" [sample_result]]) (initial_state 0)))
  <= SEARCH_CACHE_LIMIT.
Proof.
  split.
  - apply (proj1 (proj2 setCachedSearch_bounded_fifo)
             "q51" [sample_result] full_state "q01"
             {| timestamp := 0; results := [sample_result] |}
             (tl (searchCache full_state))).
    + discriminate.
    + vm_compute. reflexivity.
    + exact (proj1 full_state_inv).
    + vm_compute. discriminate.
    + discriminate.
  - apply (proj1 (proj2 (proj2 (proj2 setCachedSearch_bounded_fifo)))).
    apply Forall_forall. intros op Hin. apply in_app_or in Hin. destruct Hin as [Hin|[<-|[]]].
    + unfold fifty_puts in Hin. apply in_map_iff in Hin.
      destruct Hin as (n & <- & _). simpl. discriminate.
    + simpl. discriminate.
Defined.

(** The restriction to keys other than the empty string is needed:
    [if (firstKey)] takes an oldest key that is the empty string for no key
    at all.  After an insertion under the empty key, which the handler never
    makes, and fifty more under [q01], ..., [q50], nothing has been evicted
    and the store holds 51 entries. *)
Remark setCachedSearch_empty_key_overflow :
  let st := run_ops (Put EmptyString [sample_result] :: fifty_puts) (initial_state 0) in
  map_size (searchCache st) = 51 /\
  ~ map_size (searchCache st) <= SEARCH_CACHE_LIMIT /\
  map_first_key (searchCache st) = Some EmptyString.
Proof. vm_compute. repeat split. intros H. apply H. reflexivity. Qed.

(** C10.  Overwriting at capacity: [setCachedSearch] with results for a key
    that is present still drops the oldest binding before it overwrites; when
    the key is not the oldest one, an unrelated entry is gone and the store
    ends one below capacity.  The oldest key is not the empty string, as in
    every store the handler builds. *)
Theorem setCachedSearch_overwrite_evicts
  (query : string) (rs : list WebSearchResult) (st : State)
  (k0 : string) (e0 : CacheEntry) (rest : JsMap CacheEntry) (old : CacheEntry) :
  rs <> [] ->
  searchCache st = (k0, e0) :: rest ->
  map_wf (searchCache st) ->
  map_size (searchCache st) = SEARCH_CACHE_LIMIT ->
  k0 <> EmptyString ->
  map_get (searchCache st) query = Some old ->
  let after := searchCache (setCachedSearch query rs st) in
  after = map_set rest query {| timestamp := clock st; results := rs |} /\
  map_get after query = Some {| timestamp := clock st; results := rs |} /\
  (query <> k0 ->
   map_get after k0 = None /\
   map_size after = SEARCH_CACHE_LIMIT - 1 /\
   map_size after < SEARCH_CACHE_LIMIT).
Proof.
  intros Hrs Hc Hwf Hfull Hk0 Hold after.
  assert (Hafter : after = map_set rest query {| timestamp := clock st; results := rs |}).
  { apply (setCachedSearch_at_capacity query rs st k0 e0 rest); auto. lia. }
  split; [exact Hafter|]. rewrite Hafter. split; [apply map_get_set_same|].
  intros Hne. rewrite Hc in *.
  unfold map_wf in Hwf. simpl in Hwf. inversion Hwf as [|? ? Hnot _]; subst.
  simpl in Hold. destruct (String.eqb_spec k0 query); [congruence|].
  assert (Hsize : map_size (map_set rest query {| timestamp := clock st; results := rs |})
                  = SEARCH_CACHE_LIMIT - 1).
  { rewrite (map_set_size_present _ _ _ _ Hold).
    unfold map_size in *. simpl in Hfull. lia. }
  repeat split.
  - rewrite map_get_set_other by congruence. now apply map_get_None_keys.
  - exact Hsize.
  - lia.
Qed.

Lemma setCachedSearch_overwrite_evicts_witness :
  let after := searchCache (setCachedSearch "q07" [sample_result] full_state) in
  map_get after "q01" = None /\ map_size after = 49.
Proof.
  destruct (setCachedSearch_overwrite_evicts
              "q07" [sample_result] full_state "q01"
              {| timestamp := 0; results := [sample_result] |}
              (tl (searchCache full_state))
              {| timestamp := 0; results := [sample_result] |}) as (_ & _ & Hlast).
  - discriminate.
  - vm_compute. reflexivity.
  - exact (proj1 full_state_inv).
  - vm_compute. reflexivity.
  - discriminate.
  - vm_compute. reflexivity.
  - destruct Hlast as (Hgone & Hsize & _); [discriminate|].
    split; [exact Hgone|exact Hsize].
Defined.

(** With the empty string as oldest key, [if (firstKey)] skips that
    eviction too: the overwrite of [q07] removes nothing and the store stays
    at capacity. *)
Remark setCachedSearch_overwrite_keeps_blank :
  map_size (searchCache blank_oldest_state) = SEARCH_CACHE_LIMIT /\
  map_get (searchCache blank_oldest_state) "q07" <> None /\
  let after := searchCache (setCachedSearch "q07" [sample_result] blank_oldest_state) in
  map_first_key after = map_first_key (searchCache blank_oldest_state) /\
  map_size after = SEARCH_CACHE_LIMIT /\
  ~ map_size after < SEARCH_CACHE_LIMIT.
Proof. vm_compute. repeat split; discriminate. Qed.

(** ** Safety filter *)

(** C5 (amended).  A question that contains, letter case ignored, one of the
    terms of [blocked] (password, passcode, social security, ssn, credit
    card, card number, cvv, pin code) is not safe to search: the lookup
    returns nothing and leaves the state as it was, in every world, so no
    request is sent and the cache is not read; a handler run on that
    question sends none either.  No handler run ever sends a query that
    [isSearchSafe] rejects. *)
Theorem isSearchSafe_blocks (question term : string) :
  In term blocked ->
  Js.includes (Js.toLowerCase question) term = true ->
  isSearchSafe question = false /\
  (forall w st, getWebResultsForQuestion w question st = ([], st)) /\
  (forall w req st,
     request_question w req = Done (VStr question) ->
     searchCalls (snd (handler w req st)) = searchCalls st) /\
  (forall w req st,
     searchCalls (snd (handler w req st)) = searchCalls st \/
     exists q, isSearchSafe q = true /\
               searchCalls (snd (handler w req st)) = (searchCalls st ++ [q])%list).
Proof.
  intros Hin Hinc.
  assert (Hunsafe : isSearchSafe question = false).
  { unfold isSearchSafe. now rewrite (existsb_includes _ term). }
  assert (Hlookup : forall w st, getWebResultsForQuestion w question st = ([], st)).
  { intros w st. unfold getWebResultsForQuestion. rewrite Hunsafe.
    destruct (search_configured w); simpl; [|reflexivity].
    now rewrite orb_true_r. }
  repeat split; try assumption.
  - intros w req st Hq. destruct (handler_state w req st) as [->|(q & Hq' & ->)]; [reflexivity|].
    rewrite Hq in Hq'. injection Hq' as <-. now rewrite Hlookup.
  - intros w req st. destruct (handler_state w req st) as [->|(q & _ & ->)]; [now left|].
    destruct (getWebResultsForQuestion_calls w q st) as [->|[Hsafe ->]]; [now left|].
    right. now exists q.
Qed.

Lemma isSearchSafe_blocks_witness :
  isSearchSafe "What is my CARD NUMBER today?" = false /\
  getWebResultsForQuestion (search_world one_page) "What is my CARD NUMBER today?"
    (initial_state 0) = ([], initial_state 0).
Proof.
  destruct (isSearchSafe_blocks "What is my CARD NUMBER today?" "card number")
    as (Hunsafe & Hlookup & _).
  - simpl. tauto.
  - vm_compute. reflexivity.
  - split; [exact Hunsafe|apply Hlookup].
Defined.

(** C5, as stated, fails for PIN: the list holds [pin code], not [pin], so a
    question about a PIN is searched. *)
Lemma isSearchSafe_accepts_pin :
  Js.includes (Js.toLowerCase "What is my PIN?") "pin" = true /\
  isSearchSafe "What is my PIN?" = true /\
  searchCalls (snd (getWebResultsForQuestion (search_world one_page) "What is my PIN?"
                      (initial_state 0))) = ["What is my PIN?"] /\
  searchCalls (snd (handler (search_world one_page) (post [user_message "What is my PIN?"])
                      (initial_state 0))) = ["What is my PIN?"].
Proof. vm_compute. repeat split. Qed.

(** ** Repeated lookups *)

(** After a lookup that went to the network and brought results, the store
    holds them for the question, stamped with the time of the insertion. *)
Lemma getWebResultsForQuestion_stores w question st :
  searchCalls (snd (getWebResultsForQuestion w question st)) <> searchCalls st ->
  fst (getWebResultsForQuestion w question st) <> [] ->
  search_configured w = true /\
  (Js.is_empty question || negb (isSearchSafe question))%bool = false /\
  shouldUseWebSearch question = true /\
  map_get (searchCache (snd (getWebResultsForQuestion w question st))) question
  = Some {| timestamp := clock (snd (getWebResultsForQuestion w question st));
            results := fst (getWebResultsForQuestion w question st) |}.
Proof.
  unfold getWebResultsForQuestion.
  destruct (search_configured w); simpl; [|congruence].
  destruct (Js.is_empty question || negb (isSearchSafe question))%bool; simpl; [congruence|].
  destruct (shouldUseWebSearch question); simpl; [|congruence].
  pose proof (getCachedSearch_frame question st) as [_ Hlog].
  destruct (getCachedSearch question st) as [[cached|] st1]; simpl in *; [congruence|].
  destruct (performWebSearch w question st1) as [rs st2].
  destruct rs as [|r rs]; simpl; [congruence|].
  intros _ _. repeat split. apply map_get_set_same.
Qed.

(** C9 (amended).  When a lookup has fetched a non-empty result set from the
    search provider, the same lookup repeated no more than [SEARCH_TTL_MS]
    later returns the same results and leaves the state, and so the number of
    requests sent, as it was. *)
Theorem repeated_lookup_served_from_cache
  (w : World) (question : string) (st : State) (d : Z) :
  searchCalls (snd (getWebResultsForQuestion w question st)) <> searchCalls st ->
  fst (getWebResultsForQuestion w question st) <> [] ->
  d <= SEARCH_TTL_MS ->
  let rs1 := fst (getWebResultsForQuestion w question st) in
  let st1 := advance d (snd (getWebResultsForQuestion w question st)) in
  getWebResultsForQuestion w question st1 = (rs1, st1).
Proof.
  intros Hsent Hfound Hd rs1 st1.
  destruct (getWebResultsForQuestion_stores w question st Hsent Hfound)
    as (Hconf & Hok & Hwanted & Hstored).
  unfold getWebResultsForQuestion at 1. rewrite Hconf, Hok, Hwanted. simpl.
  assert (Hget : map_get (searchCache st1) question
                 = Some {| timestamp := clock (snd (getWebResultsForQuestion w question st));
                           results := rs1 |}) by exact Hstored.
  rewrite (getCachedSearch_fresh _ _ _ Hget); [reflexivity|].
  simpl. lia.
Qed.

Lemma repeated_lookup_served_from_cache_witness :
  let w := search_world one_page in
  let first := getWebResultsForQuestion w "latest news" (initial_state 0) in
  getWebResultsForQuestion w "latest news" (advance 300000 (snd first))
  = (fst first, advance 300000 (snd first)) /\
  searchCalls (advance 300000 (snd first)) = ["latest news"].
Proof.
  split; [|reflexivity].
  apply (repeated_lookup_served_from_cache
           (search_world one_page) "latest news" (initial_state 0) 300000).
  - vm_compute. discriminate.
  - vm_compute. discriminate.
  - vm_compute. discriminate.
Defined.

(** C9, as stated, fails when the provider returns nothing: an empty result
    is not stored, so each lookup of a searchable question sends a request. *)
Lemma repeated_lookup_refetches_empty :
  let w := search_world service_unavailable in
  let st1 := snd (getWebResultsForQuestion w "latest news" (initial_state 0)) in
  let st2 := snd (getWebResultsForQuestion w "latest news" st1) in
  search_configured w = true /\
  isSearchSafe "latest news" = true /\
  shouldUseWebSearch "latest news" = true /\
  clock st1 - clock (initial_state 0) <= SEARCH_TTL_MS /\
  searchCalls st1 = ["latest news"] /\
  searchCalls st2 = ["latest news"; "latest news"].
Proof. vm_compute. repeat split; discriminate. Qed.

(** ** Heuristic responder and answer generator *)

Lemma basicHeuristicAnswer_shape (question : string) :
  confidence (basicHeuristicAnswer question) = Some 0.78%Q /\
  sources (basicHeuristicAnswer question) = None /\
  usedSearch (basicHeuristicAnswer question) = None /\
  text (basicHeuristicAnswer question) <> EmptyString.
Proof.
  unfold basicHeuristicAnswer. cbn [text confidence sources usedSearch].
  repeat split. split_ifs; discriminate.
Qed.

Lemma basicHeuristicAnswer_budget (question : string) :
  Js.includes (Js.toLowerCase question) "budget" = true ->
  text (basicHeuristicAnswer question) = budget_paragraph.
Proof.
  intros H. unfold basicHeuristicAnswer. cbn [text]. now rewrite H.
Qed.

Lemma basicHeuristicAnswer_generic (question : string) :
  mentions_no_keyword question = true ->
  text (basicHeuristicAnswer question) = generic_paragraph.
Proof.
  unfold mentions_no_keyword, heuristic_keywords. cbn [forallb].
  intros H. repeat (apply andb_true_iff in H; destruct H as [?H H]).
  repeat match goal with
         | H : negb _ = true |- _ => apply negb_true_iff in H
         end.
  unfold basicHeuristicAnswer. cbn [text].
  repeat match goal with
         | H : Js.includes _ _ = false |- _ => rewrite H; clear H
         end.
  reflexivity.
Qed.

Lemma heuristic_for_Done (question : value) (a : AuroraAnswer) :
  heuristic_for question = Done a ->
  exists q, question = VStr q /\ a = basicHeuristicAnswer q.
Proof.
  destruct question; simpl; try discriminate. intros [= <-]. now eexists.
Qed.

(** Without a key the generator is the heuristic responder on the asked
    question. *)
Lemma generateAuroraAnswer_no_key w c :
  is_set (OPENAI_API_KEY (env w)) = false ->
  generateAuroraAnswer w c = (try! question <- asked_question c; heuristic_for question).
Proof.
  unfold generateAuroraAnswer, is_set. intros Hkey.
  destruct (asked_question c) as [question|]; simpl; [|reflexivity].
  destruct (OPENAI_API_KEY (env w)) as [apiKey|]; [|reflexivity].
  apply negb_false_iff in Hkey. now rewrite Hkey.
Qed.

(** An answer of the generator is either the heuristic one for the asked
    question or the non-empty completion with confidence 0.92. *)
Lemma generateAuroraAnswer_cases w c a :
  generateAuroraAnswer w c = Done a ->
  (exists q, asked_question c = Done (VStr q) /\ a = basicHeuristicAnswer q) \/
  (is_set (OPENAI_API_KEY (env w)) = true /\
   Js.is_empty (text a) = false /\
   confidence a = Some 0.92%Q /\
   sources a = (if negb (Nat.eqb (List.length (Ctx.webResults c)) 0)
                then Some (firstn 4 (Ctx.webResults c)) else None) /\
   usedSearch a = Some (negb (Nat.eqb (List.length (Ctx.webResults c)) 0))).
Proof.
  unfold generateAuroraAnswer.
  destruct (asked_question c) as [question|]; cbn [abind]; [|discriminate].
  assert (Hheur : heuristic_for question = Done a ->
                  exists q, Done question = Done (VStr q) /\ a = basicHeuristicAnswer q).
  { intros H. apply heuristic_for_Done in H. destruct H as (q & -> & ->). now exists q. }
  destruct (OPENAI_API_KEY (env w)) as [apiKey|] eqn:Hkey; [|now left; apply Hheur].
  destruct (Js.is_empty apiKey) eqn:Hempty; [now left; apply Hheur|].
  destruct (prompt_throws c question); [discriminate|].
  destruct (completion_fetch w _) as [|ok code json0]; simpl; [now left; apply Hheur|].
  destruct ok; simpl; [|now left; apply Hheur].
  destruct json0 as [data|]; simpl; [|now left; apply Hheur].
  destruct (completion_content data) as [[reply|]|]; simpl.
  - destruct (Js.is_empty reply) eqn:Hreply.
    + destruct (heuristic_for question) eqn:Hq; simpl; intros H; left; apply Hheur; congruence.
    + simpl. intros [= <-]. right. cbn [text confidence sources usedSearch].
      unfold is_set. rewrite Hempty. now repeat split.
  - destruct (heuristic_for question) eqn:Hq; simpl; intros H; left; apply Hheur; congruence.
  - now left; apply Hheur.
Qed.

(** ** Request handler *)

Lemma valid_body (b m : value) (ms : list value) :
  getProp b "messages" = Done (VArr (m :: ms)) ->
  invalid_body b = false /\ optProp b "messages" = VArr (m :: ms).
Proof.
  intros H. unfold invalid_body, optProp. rewrite H. simpl.
  destruct b; simpl in H; try discriminate; now split.
Qed.

(** The three ways a POST ends. *)
Lemma handler_cases w req st :
  method req = "POST" ->
  (decode_body w req = Raised /\ handler w req st = (fallback_response, st)) \/
  (exists b, decode_body w req = Done b /\ invalid_body b = true /\
             handler w req st = (missing_messages, st)) \/
  (exists b, decode_body w req = Done b /\ invalid_body b = false /\
     ((fst (handler_try w req st) = Raised /\
       fst (handler w req st) = fallback_response) \/
      (exists q c a live,
         request_question w req = Done (VStr q) /\
         Ctx.question c = q /\
         Ctx.messages c = array_items (optProp b "messages") /\
         Ctx.webResults c = fst (getWebResultsForQuestion w q st) /\
         generateAuroraAnswer w c = Done a /\
         fst (handler w req st) = answer_response a live))).
Proof.
  intros Hpost. unfold handler, handler_try, request_question. rewrite Hpost. simpl.
  destruct (decode_body w req) as [b|]; [|now left].
  right. destruct (invalid_body b) eqn:Hbad; [left; now exists b|].
  right. exists b. split; [reflexivity|]. split; [exact Hbad|]. simpl.
  destruct (extract_question (array_items (optProp b "messages"))) as [[| | | |q| |]|];
    try (left; now split).
  destruct (getWebResultsForQuestion w q st) as [webResults st'] eqn:Hweb.
  match goal with
  | |- context [generateAuroraAnswer w ?c] =>
      destruct (generateAuroraAnswer w c) as [a|] eqn:Hgen; [|left; now split];
      right; exists q, c, a
  end.
  eexists. split; [reflexivity|]. split; [reflexivity|]. split; [reflexivity|].
  split; [now rewrite Hweb|]. split; [exact Hgen|]. reflexivity.
Qed.

Lemma fallback_response_shape :
  status fallback_response = 200 /\
  json fallback_response
  = AnswerBody {| Envelope.text := text (basicHeuristicAnswer EmptyString);
                  Envelope.confidence := 0.78%Q;
                  Envelope.fallback := Some true;
                  Envelope.sources := [];
                  Envelope.usedSearch := false;
                  Envelope.usedLiveData := None |}.
Proof. split; reflexivity. Qed.

(** C1.  A POST whose body carries a non-empty [messages] array is answered
    with status 200 and one envelope whose [text] is not empty and whose
    [confidence] lies in [0, 1], in every world: whatever the search, data
    and completion providers do. *)
Theorem handler_always_answers (w : World) (req : Request) (st : State) :
  valid_request w req ->
  status (fst (handler w req st)) = 200 /\
  exists e,
    json (fst (handler w req st)) = AnswerBody e /\
    Envelope.text e <> EmptyString /\
    (0 <= Envelope.confidence e)%Q /\ (Envelope.confidence e <= 1)%Q.
Proof.
  intros (Hpost & b & m & ms & Hdec & Hmsgs).
  destruct (valid_body _ _ _ Hmsgs) as [Hvalid _].
  destruct (handler_cases w req st Hpost)
    as [[Hraised _]|[(b' & Hdec' & Hbad & _)|(b' & Hdec' & _ & Hrun)]];
    [congruence|congruence|].
  destruct Hrun as [[_ ->]|(q & c & a & live & _ & _ & _ & _ & Hgen & ->)].
  - split; [reflexivity|]. eexists. split; [reflexivity|].
    cbn. split; [discriminate|]. split; vm_compute; discriminate.
  - split; [reflexivity|]. eexists. split; [reflexivity|].
    cbn [Envelope.text Envelope.confidence].
    destruct (generateAuroraAnswer_cases w c a Hgen)
      as [(q' & _ & ->)|(_ & Htext & -> & _)].
    + destruct (basicHeuristicAnswer_shape q') as (-> & _ & _ & Hne).
      split; [exact Hne|]. split; vm_compute; discriminate.
    + split; [destruct (text a); [discriminate|discriminate]|].
      split; vm_compute; discriminate.
Qed.

Lemma handler_always_answers_witness :
  status (fst (handler offline_world (post [user_message "latest news on rates"])
                 (initial_state 0))) = 200 /\
  exists e,
    json (fst (handler offline_world (post [user_message "latest news on rates"])
                 (initial_state 0))) = AnswerBody e /\
    Envelope.text e <> EmptyString /\
    (0 <= Envelope.confidence e)%Q /\ (Envelope.confidence e <= 1)%Q.
Proof.
  apply (handler_always_answers offline_world (post [user_message "latest news on rates"])
           (initial_state 0)).
  split; [reflexivity|].
  exists (VObj [("messages", VArr [user_message "latest news on rates"])]),
    (user_message "latest news on rates"), []. split; reflexivity.
Defined.

(** C2 (amended).  When an exception leaves the body of the handler's [try],
    the response is the fallback envelope: status 200, the heuristic text for
    the empty question, [fallback: true], no sources, [usedSearch] false, and
    the heuristic answer's own confidence, 0.78. *)
Theorem handler_fallback_on_failure (w : World) (req : Request) (st : State) :
  method req = "POST" ->
  fst (handler_try w req st) = Raised ->
  status (fst (handler w req st)) = 200 /\
  json (fst (handler w req st))
  = AnswerBody {| Envelope.text := text (basicHeuristicAnswer EmptyString);
                  Envelope.confidence := 0.78%Q;
                  Envelope.fallback := Some true;
                  Envelope.sources := [];
                  Envelope.usedSearch := false;
                  Envelope.usedLiveData := None |}.
Proof.
  intros Hpost Hraised. unfold handler. rewrite Hpost. simpl.
  destruct (handler_try w req st) as [r st']. simpl in Hraised. subst r.
  exact fallback_response_shape.
Qed.

Lemma handler_fallback_on_failure_witness :
  status (fst (handler offline_world (post [VNull]) (initial_state 0))) = 200 /\
  json (fst (handler offline_world (post [VNull]) (initial_state 0)))
  = AnswerBody {| Envelope.text := generic_paragraph;
                  Envelope.confidence := 0.78%Q;
                  Envelope.fallback := Some true;
                  Envelope.sources := [];
                  Envelope.usedSearch := false;
                  Envelope.usedLiveData := None |}.
Proof.
  apply (handler_fallback_on_failure offline_world (post [VNull]) (initial_state 0)).
  - reflexivity.
  - reflexivity.
Defined.

(** C2, as stated, fails on the confidence: the envelope of the [catch]
    branch carries 0.78, not 0.7. *)
Lemma handler_fallback_confidence_stays :
  fst (handler_try offline_world (post [VNull]) (initial_state 0)) = Raised /\
  exists e,
    json (fst (handler offline_world (post [VNull]) (initial_state 0))) = AnswerBody e /\
    Envelope.fallback e = Some true /\
    Envelope.confidence e = 0.78%Q /\
    ~ (Envelope.confidence e == 0.7)%Q.
Proof.
  split; [reflexivity|]. eexists. split; [reflexivity|].
  split; [reflexivity|]. split; [reflexivity|]. vm_compute. discriminate.
Qed.

(** C3 (amended).  A POST whose body, parsed when it is a string, is falsy
    or has no non-empty [messages] array is rejected with status 400 and the
    reason [Invalid request body: missing messages]; a POST whose string
    body [JSON.parse] rejects is answered with the fallback envelope, status
    200. *)
Theorem handler_input_errors (w : World) (req : Request) (st : State) :
  method req = "POST" ->
  (forall b,
     decode_body w req = Done b ->
     invalid_body b = true ->
     handler w req st = (missing_messages, st) /\
     status missing_messages = 400 /\
     json missing_messages = ErrorBody "Invalid request body: missing messages") /\
  (decode_body w req = Raised ->
   handler w req st = (fallback_response, st) /\
   status fallback_response = 200 /\
   exists e, json fallback_response = AnswerBody e /\ Envelope.fallback e = Some true).
Proof.
  intros Hpost. unfold handler, handler_try. rewrite Hpost. simpl. split.
  - intros b -> ->. repeat split.
  - intros ->. split; [reflexivity|]. split; [reflexivity|].
    eexists. split; reflexivity.
Qed.

Lemma handler_input_errors_witness :
  handler offline_world (post []) (initial_state 0) = (missing_messages, initial_state 0) /\
  handler offline_world (text_request "{}") (initial_state 0)
  = (missing_messages, initial_state 0) /\
  handler offline_world {| method := "POST"; body := VUndefined |} (initial_state 0)
  = (missing_messages, initial_state 0) /\
  handler offline_world (text_request "{") (initial_state 0)
  = (fallback_response, initial_state 0).
Proof.
  split; [|split; [|split]].
  - exact (proj1 (proj1 (handler_input_errors offline_world (post []) (initial_state 0)
                           eq_refl)
                    (VObj [("messages", VArr [])]) eq_refl eq_refl)).
  - exact (proj1 (proj1 (handler_input_errors offline_world (text_request "{}")
                           (initial_state 0) eq_refl)
                    (VObj []) eq_refl eq_refl)).
  - exact (proj1 (proj1 (handler_input_errors offline_world
                           {| method := "POST"; body := VUndefined |} (initial_state 0)
                           eq_refl)
                    VUndefined eq_refl eq_refl)).
  - exact (proj1 (proj2 (handler_input_errors offline_world (text_request "{")
                           (initial_state 0) eq_refl)
                    eq_refl)).
Defined.

(** C3, as stated, fails for a body that is not valid JSON: it is answered
    with status 200 and a success-shaped envelope. *)
Lemma handler_malformed_json_answered :
  JsonText.parse "{" = Raised /\
  status (fst (handler offline_world (text_request "{") (initial_state 0))) = 200 /\
  ~ (400 <= status (fst (handler offline_world (text_request "{") (initial_state 0))) < 500) /\
  exists e,
    json (fst (handler offline_world (text_request "{") (initial_state 0))) = AnswerBody e.
Proof.
  split; [reflexivity|]. split; [reflexivity|]. split.
  - vm_compute. intros [H _]. apply H. reflexivity.
  - eexists. reflexivity.
Qed.

(** C4.  In every envelope the handler returns, [usedSearch] is true exactly
    when [sources] is not empty. *)
Theorem usedSearch_iff_sources (w : World) (req : Request) (st : State) (e : Envelope.t) :
  json (fst (handler w req st)) = AnswerBody e ->
  (Envelope.usedSearch e = true <-> Envelope.sources e <> []).
Proof.
  destruct (String.eqb (method req) "POST") eqn:Hpost.
  - apply String.eqb_eq in Hpost.
    destruct (handler_cases w req st Hpost)
      as [[_ ->]|[(b & _ & _ & ->)|(b & _ & _ & Hrun)]].
    + simpl. intros [= <-]. simpl. split; [discriminate|congruence].
    + discriminate.
    + destruct Hrun as [[_ ->]|(q & c & a & live & _ & _ & _ & _ & Hgen & ->)].
      * simpl. intros [= <-]. simpl. split; [discriminate|congruence].
      * simpl. intros [= <-]. cbn [Envelope.usedSearch Envelope.sources].
        destruct (generateAuroraAnswer_cases w c a Hgen)
          as [(q' & _ & ->)|(_ & _ & _ & -> & ->)].
        -- simpl. split; [discriminate|congruence].
        -- destruct (Ctx.webResults c) as [|r rs]; simpl.
           ++ split; [discriminate|congruence].
           ++ split; [discriminate|reflexivity].
  - unfold handler. rewrite Hpost. discriminate.
Qed.

Lemma usedSearch_iff_sources_witness :
  exists e,
    json (fst (handler full_world (post [user_message "latest news on rates"])
                 (initial_state 0))) = AnswerBody e /\
    Envelope.text e = "Rates moved today." /\
    Envelope.usedSearch e = true /\
    Envelope.sources e <> [].
Proof.
  eexists. split; [reflexivity|]. split; [reflexivity|]. split; [reflexivity|].
  apply (usedSearch_iff_sources full_world (post [user_message "latest news on rates"])
           (initial_state 0)).
  - reflexivity.
  - reflexivity.
Defined.

(** ** The question the generator falls back on *)

Lemma afind_app {A : Type} (p : A -> attempt bool) (l1 l2 : list A) :
  afind p (l1 ++ l2)
  = match afind p l1 with
    | Done None => afind p l2
    | r => r
    end.
Proof.
  induction l1 as [|a l1 IH]; simpl; [now destruct (afind p l2) as [[]|]|].
  destruct (p a) as [[]|]; simpl; [reflexivity|exact IH|reflexivity].
Qed.

(** When the filter over the whole list does not throw, the search from the
    end finds the last element the filter keeps. *)
Lemma afind_rev_afilter {A : Type} (p : A -> attempt bool) (d : A) (l : list A) :
  forall us,
    afilter p l = Done us ->
    afind p (rev l) = Done match us with
                           | [] => None
                           | _ :: _ => Some (last us d)
                           end.
Proof.
  induction l as [|a l IH]; simpl; intros us H.
  - injection H as <-. reflexivity.
  - destruct (p a) as [keep|] eqn:Hp; simpl in H; [|discriminate].
    destruct (afilter p l) as [rest|]; simpl in H; [|discriminate].
    injection H as <-. rewrite afind_app, (IH rest eq_refl).
    destruct rest as [|r rs].
    + simpl. rewrite Hp. now destruct keep.
    + now destruct keep.
Qed.

(** In a handler run the generator never replaces the question by a message
    text: an empty question means the last user message has no usable text. *)
Lemma asked_question_after_extract (c : Ctx.t) (q q' : string) :
  extract_question (Ctx.messages c) = Done (VStr q) ->
  Ctx.question c = q ->
  asked_question c = Done (VStr q') ->
  text (basicHeuristicAnswer q') = text (basicHeuristicAnswer q).
Proof.
  unfold asked_question, extract_question, last_user. intros Hext <-.
  destruct (Js.is_empty (Ctx.question c)) eqn:Hempty; cbn [negb].
  - apply is_empty_true in Hempty. rewrite Hempty in *.
    destruct (afilter role_is_user (Ctx.messages c)) as [users|] eqn:Hfilter;
      cbn [abind]; [|discriminate].
    rewrite (afind_rev_afilter _ VUndefined _ _ Hfilter) in Hext. cbn [abind] in Hext.
    set (t := optProp (last users VUndefined) "text") in *.
    assert (Hown : match match users with
                         | [] => None
                         | _ :: _ => Some (last users VUndefined)
                         end with
                   | Some m => optProp m "text"
                   | None => VUndefined
                   end = t) by (subst t; destruct users; reflexivity).
    rewrite Hown in Hext. injection Hext as Hext.
    assert (Hfalsy : truthy t = false).
    { unfold coalesce in Hext. destruct (nullish t) eqn:Hn.
      - now destruct t.
      - rewrite Hn in Hext. now rewrite Hext. }
    rewrite Hfalsy. intros [= <-]. reflexivity.
  - intros [= <-]. reflexivity.
Qed.

Lemma generateAuroraAnswer_raised_no_key w c :
  is_set (OPENAI_API_KEY (env w)) = false ->
  generateAuroraAnswer w c = Raised ->
  Ctx.question c = EmptyString.
Proof.
  intros Hkey. rewrite (generateAuroraAnswer_no_key _ _ Hkey). unfold asked_question.
  destruct (Js.is_empty (Ctx.question c)) eqn:Hempty; simpl.
  - intros _. now apply is_empty_true.
  - discriminate.
Qed.

(** C6.  With no completion key the generator returns what
    [basicHeuristicAnswer] returns, and a valid request is answered with
    status 200, confidence 0.78, no sources and [usedSearch] false; the text
    is the heuristic paragraph for the request's question: the budget
    paragraph when the question contains [budget], the generic paragraph when
    it contains none of the keywords. *)
Theorem heuristic_without_credential (w : World) (req : Request) (st : State) :
  is_set (OPENAI_API_KEY (env w)) = false ->
  valid_request w req ->
  (forall c a,
     generateAuroraAnswer w c = Done a ->
     exists q, asked_question c = Done (VStr q) /\ a = basicHeuristicAnswer q) /\
  status (fst (handler w req st)) = 200 /\
  exists e,
    json (fst (handler w req st)) = AnswerBody e /\
    Envelope.confidence e = 0.78%Q /\
    Envelope.sources e = [] /\
    Envelope.usedSearch e = false /\
    (exists q', Envelope.text e = text (basicHeuristicAnswer q')) /\
    (forall q,
       request_question w req = Done (VStr q) ->
       Envelope.text e = text (basicHeuristicAnswer q) /\
       (Js.includes q "budget" = true -> Envelope.text e = budget_paragraph) /\
       (Js.includes (Js.toLowerCase q) "budget" = true ->
        Envelope.text e = budget_paragraph) /\
       (mentions_no_keyword q = true -> Envelope.text e = generic_paragraph)).
Proof.
  intros Hkey (Hpost & b & m & ms & Hdec & Hmsgs).
  assert (Hgenerator : forall c a,
             generateAuroraAnswer w c = Done a ->
             exists q, asked_question c = Done (VStr q) /\ a = basicHeuristicAnswer q).
  { intros c a Hgen.
    destruct (generateAuroraAnswer_cases w c a Hgen) as [H|[Hset _]]; [exact H|congruence]. }
  split; [exact Hgenerator|].
  assert (Htexts : forall (t q : string),
             t = text (basicHeuristicAnswer q) ->
             t = text (basicHeuristicAnswer q) /\
             (Js.includes q "budget" = true -> t = budget_paragraph) /\
             (Js.includes (Js.toLowerCase q) "budget" = true -> t = budget_paragraph) /\
             (mentions_no_keyword q = true -> t = generic_paragraph)).
  { intros t q ->. split; [reflexivity|]. split; [|split].
    - intros H. apply basicHeuristicAnswer_budget. exact (includes_lower_word "budget" eq_refl q H).
    - apply basicHeuristicAnswer_budget.
    - apply basicHeuristicAnswer_generic. }
  destruct (valid_body _ _ _ Hmsgs) as [Hvalid _].
  unfold request_question. rewrite Hdec. simpl.
  destruct (handler_cases w req st Hpost)
    as [[Hraised _]|[(b' & Hdec' & Hbad & _)|(b' & Hdec' & _ & Hrun)]];
    [congruence|congruence|].
  assert (b' = b) by congruence. subst b'.
  destruct Hrun as [[Hraised ->]|(q0 & c & a & live & Hq0 & Hcq & Hcm & _ & Hgen & ->)].
  - split; [reflexivity|]. eexists. split; [reflexivity|].
    cbn [Envelope.confidence Envelope.sources Envelope.usedSearch Envelope.text].
    split; [reflexivity|]. split; [reflexivity|]. split; [reflexivity|].
    split; [now exists EmptyString|].
    intros q Hq. apply Htexts.
    unfold handler_try in Hraised. rewrite Hdec, Hvalid, Hq in Hraised.
    destruct (getWebResultsForQuestion w q st) as [webResults st'].
    match type of Hraised with
    | context [generateAuroraAnswer w ?c] =>
        destruct (generateAuroraAnswer w c) eqn:Hgen; [discriminate|];
        apply (generateAuroraAnswer_raised_no_key _ _ Hkey) in Hgen
    end.
    simpl in Hgen. now subst q.
  - destruct (Hgenerator c a Hgen) as (q' & Hasked & ->).
    destruct (basicHeuristicAnswer_shape q') as (Hconf & Hsrc & Hused & _).
    split; [reflexivity|]. eexists. split; [reflexivity|].
    cbn [Envelope.confidence Envelope.sources Envelope.usedSearch Envelope.text].
    rewrite Hconf, Hsrc, Hused.
    split; [reflexivity|]. split; [reflexivity|]. split; [reflexivity|].
    split; [now exists q'|].
    intros q Hq. apply Htexts.
    unfold request_question in Hq0. rewrite Hdec in Hq0. simpl in Hq0.
    assert (Hsame : q0 = q) by congruence. rewrite Hsame in Hcq.
    apply (asked_question_after_extract c q q'); [rewrite Hcm; exact Hq|exact Hcq|exact Hasked].
Qed.

Lemma heuristic_without_credential_witness :
  exists e,
    json (fst (handler offline_world (post [user_message "Help me fix my Budget"])
                 (initial_state 0))) = AnswerBody e /\
    Envelope.text e = budget_paragraph /\
    Envelope.confidence e = 0.78%Q /\
    Envelope.sources e = [] /\
    Envelope.usedSearch e = false.
Proof.
  destruct (heuristic_without_credential offline_world
              (post [user_message "Help me fix my Budget"]) (initial_state 0))
    as (_ & _ & e & Hjson & Hconf & Hsrc & Hused & _ & Htext).
  - reflexivity.
  - split; [reflexivity|].
    exists (VObj [("messages", VArr [user_message "Help me fix my Budget"])]),
      (user_message "Help me fix my Budget"), []. split; reflexivity.
  - exists e. split; [exact Hjson|].
    destruct (Htext "Help me fix my Budget" eq_refl) as (_ & _ & Hbudget & _).
    split; [apply Hbudget; reflexivity|]. now repeat split.
Defined.

(** The end-to-end scenario of the specification: no credentials, one user
    message about saving. *)
Example save_this_month :
  fst (handler offline_world
         {| method := "POST";
            body := VObj [("userId", VStr "u1");
                          ("messages", VArr [user_message "How much can I save this month?"])] |}
         (initial_state 0))
  = answer_response
      {| text := savings_paragraph; confidence := Some 0.78%Q; sources := None; usedSearch := None |}
      {| fxSymbols := []; stocks := []; crypto := []; transactionCount := 0 |}.
Proof. reflexivity. Qed.

(** Any other method: 405 with [Allow: POST], the state untouched. *)
Example get_not_allowed :
  handler offline_world {| method := "GET"; body := VUndefined |} (initial_state 0)
  = ({| headers := [("Allow", "POST")]; status := 405; json := ErrorBody "Method Not Allowed" |},
     initial_state 0).
Proof. reflexivity. Qed.

(* ================================================================== *)
(** * Further properties of the code *)

(** ** Search cache *)

Lemma setCachedSearch_stores query rs st :
  rs <> [] ->
  map_get (searchCache (setCachedSearch query rs st)) query
  = Some {| timestamp := clock st; results := rs |} /\
  clock (setCachedSearch query rs st) = clock st.
Proof.
  intros Hrs. unfold setCachedSearch. destruct rs as [|r rs]; [congruence|].
  cbn [searchCache clock with_cache]. split; [apply map_get_set_same|reflexivity].
Qed.

(** X1.  Insert, then look up: whatever the store held and however full it
    was, results stored for a query are what a lookup of that query returns
    up to [SEARCH_TTL_MS] after the insertion, and that lookup changes
    nothing. *)
Theorem setCachedSearch_then_get
  (query : string) (rs : list WebSearchResult) (st : State) (d : Z) :
  rs <> [] ->
  d <= SEARCH_TTL_MS ->
  getCachedSearch query (advance d (setCachedSearch query rs st))
  = (Some rs, advance d (setCachedSearch query rs st)).
Proof.
  intros Hrs Hd. destruct (setCachedSearch_stores query rs st Hrs) as [Hget Hclock].
  apply (getCachedSearch_fresh query (advance d (setCachedSearch query rs st))
           {| timestamp := clock st; results := rs |}).
  - exact Hget.
  - cbn [clock advance timestamp]. rewrite Hclock. lia.
Qed.

Lemma setCachedSearch_then_get_witness :
  getCachedSearch "q07" (advance 300000 (setCachedSearch "q07" [sample_result] full_state))
  = (Some [sample_result], advance 300000 (setCachedSearch "q07" [sample_result] full_state)).
Proof.
  apply (setCachedSearch_then_get "q07" [sample_result] full_state 300000).
  - discriminate.
  - vm_compute. discriminate.
Defined.

(** X2.  An insertion disturbs no entry but the one it writes and, in a full
    store, the oldest one: every other key reads as before. *)
Theorem setCachedSearch_keeps_others
  (query : string) (rs : list WebSearchResult) (st : State) (k : string) :
  k <> query ->
  map_size (searchCache st) < SEARCH_CACHE_LIMIT \/ map_first_key (searchCache st) <> Some k ->
  map_get (searchCache (setCachedSearch query rs st)) k = map_get (searchCache st) k.
Proof.
  intros Hk Hold. unfold setCachedSearch. destruct rs as [|r rs]; [reflexivity|].
  cbn [searchCache with_cache]. rewrite map_get_set_other by congruence.
  destruct (Z.geb_spec (map_size (searchCache st)) SEARCH_CACHE_LIMIT) as [Hfull|_];
    [|reflexivity].
  destruct Hold as [Hroom|Hfirst]; [lia|].
  destruct (map_first_key (searchCache st)) as [firstKey|]; [|reflexivity].
  destruct (Js.is_empty firstKey); [reflexivity|].
  apply map_get_delete_other. congruence.
Qed.

Lemma setCachedSearch_keeps_others_witness :
  map_get (searchCache (setCachedSearch "q51" [sample_result] full_state)) "q02"
  = map_get (searchCache full_state) "q02".
Proof.
  apply (setCachedSearch_keeps_others "q51" [sample_result] full_state "q02").
  - discriminate.
  - right. vm_compute. discriminate.
Defined.

Lemma map_set_keys_present {V : Type} (m : JsMap V) (k : string) (v v0 : V) :
  map_get m k = Some v0 -> map_keys (map_set m k v) = map_keys m.
Proof.
  induction m as [|[k' v'] m IH]; simpl; [discriminate|].
  destruct (String.eqb_spec k' k) as [->|Hk]; simpl; [reflexivity|].
  intros H. now rewrite IH.
Qed.

(** X3.  Storing again under a key that is present, in a store with room,
    refreshes the entry where it stands: the order of the keys, and so the
    order of eviction, is unchanged, while the entry takes the new results
    and the current time. *)
Theorem setCachedSearch_refresh_in_place
  (query : string) (rs : list WebSearchResult) (st : State) (old : CacheEntry) :
  rs <> [] ->
  map_size (searchCache st) < SEARCH_CACHE_LIMIT ->
  map_get (searchCache st) query = Some old ->
  map_keys (searchCache (setCachedSearch query rs st)) = map_keys (searchCache st) /\
  map_get (searchCache (setCachedSearch query rs st)) query
  = Some {| timestamp := clock st; results := rs |}.
Proof.
  intros Hrs Hroom Hold. split; [|apply (setCachedSearch_stores query rs st Hrs)].
  unfold setCachedSearch. destruct rs as [|r rs]; [congruence|].
  cbn [searchCache with_cache].
  destruct (Z.geb_spec (map_size (searchCache st)) SEARCH_CACHE_LIMIT); [lia|].
  now apply (map_set_keys_present _ _ _ old).
Qed.

Lemma setCachedSearch_refresh_in_place_witness :
  map_keys (searchCache (setCachedSearch "latest news" [sample_result; sample_result]
                           (one_entry_state 1000)))
  = ["latest news"] /\
  map_get (searchCache (setCachedSearch "latest news" [sample_result; sample_result]
                          (one_entry_state 1000))) "latest news"
  = Some {| timestamp := 1000; results := [sample_result; sample_result] |}.
Proof.
  apply (setCachedSearch_refresh_in_place "latest news" [sample_result; sample_result]
           (one_entry_state 1000) {| timestamp := 0; results := [sample_result] |}).
  - discriminate.
  - vm_compute. reflexivity.
  - reflexivity.
Defined.

(** X4.  A lookup repeated at once gives the same answer and changes nothing
    more: an expired entry is removed by the first lookup, and the second
    finds the key absent. *)
Theorem getCachedSearch_idempotent (query : string) (st : State) :
  getCachedSearch query (snd (getCachedSearch query st))
  = (fst (getCachedSearch query st), snd (getCachedSearch query st)).
Proof.
  unfold getCachedSearch at 2 3 4.
  destruct (map_get (searchCache st) query) as [entry|] eqn:Hget.
  - destruct (Z.gtb_spec (clock st - timestamp entry) SEARCH_TTL_MS) as [Hold|Hfresh].
    + cbn [fst snd]. unfold getCachedSearch. cbn [searchCache with_cache].
      now rewrite map_get_delete_same.
    + cbn [fst snd]. now apply getCachedSearch_fresh.
  - cbn [fst snd]. unfold getCachedSearch. now rewrite Hget.
Qed.

(** ** Safety filter *)

(** Every trigger word starts with an ASCII letter. *)
Lemma externalKeywords_start (keyword : string) :
  In keyword externalKeywords ->
  exists c t, keyword = String c t /\ is_ascii c = true /\ Js.is_space c = false.
Proof.
  unfold externalKeywords. simpl. intros H.
  repeat (destruct H as [<-|H]; [do 2 eexists; repeat split|]).
  contradiction.
Qed.



(** X6.  A question that contains one of the trigger words of
    [externalKeywords], letter case ignored, warrants a web search: such a
    question is never blank. *)
Theorem trigger_word_warrants_search (question keyword : string) :
  In keyword externalKeywords ->
  Js.includes (Js.toLowerCase question) keyword = true ->
  shouldUseWebSearch question = true.
Proof.
  intros Hin Hinc. unfold shouldUseWebSearch.
  destruct (Js.is_empty (Js.trim (Js.toLowerCase question))) eqn:Hblank.
  - apply trim_empty in Hblank.
    destruct (externalKeywords_start keyword Hin) as (c & t & -> & Hascii & Hc).
    rewrite (blank_excludes c t Hascii Hc _ Hblank) in Hinc. discriminate.
  - now apply (existsb_includes _ keyword).
Qed.

Lemma trigger_word_warrants_search_witness :
  shouldUseWebSearch "  Any LATEST figures?" = true.
Proof.
  apply (trigger_word_warrants_search "  Any LATEST figures?" "latest").
  - simpl. tauto.
  - vm_compute. reflexivity.
Defined.

(** ** Web search *)

Lemma amap_length {A B : Type} (f : A -> attempt B) (l : list A) :
  forall bs, amap f l = Done bs -> List.length bs = List.length l.
Proof.
  induction l as [|a l IH]; simpl; intros bs H.
  - now injection H as <-.
  - destruct (f a) as [b|]; simpl in H; [|discriminate].
    destruct (amap f l) as [bs'|]; simpl in H; [|discriminate].
    injection H as <-. simpl. now rewrite (IH bs' eq_refl).
Qed.

Lemma amap_Forall {A B : Type} (f : A -> attempt B) (P : B -> Prop) (l : list A) :
  (forall a b, f a = Done b -> P b) ->
  forall bs, amap f l = Done bs -> Forall P bs.
Proof.
  intros Hf. induction l as [|a l IH]; simpl; intros bs H.
  - injection H as <-. constructor.
  - destruct (f a) as [b|] eqn:Hb; simpl in H; [|discriminate].
    destruct (amap f l) as [bs'|]; simpl in H; [|discriminate].
    injection H as <-. constructor; [now apply (Hf a)|now apply IH].
Qed.


(** The title of a page's record is its name or, failing that, its url. *)
Lemma page_result_title (p : value) (r : WebSearchResult) :
  page_result p = Done r -> is_string (url r) = true -> is_string (title r) = true.
Proof.
  unfold page_result.
  destruct (getProp p "name") as [name|]; simpl; [|discriminate].
  destruct (getProp p "url") as [page_url|]; simpl; [|discriminate].
  destruct (getProp p "snippet") as [page_snippet|]; simpl; [|discriminate].
  destruct (getProp p "description") as [description|]; simpl; [|discriminate].
  intros [= <-]. simpl. now destruct (is_string name) eqn:Hname.
Qed.

Lemma search_results_ok (data : value) (rs : list WebSearchResult) :
  search_results data = Done rs -> results_ok rs.
Proof.
  unfold search_results, pages_results.
  destruct (getProp data "webPages") as [webPages|]; cbn [abind]; [|discriminate].
  destruct (coalesce (optProp webPages "value") (VArr [])) as [| | | | |pages|];
    cbn [abind]; try discriminate.
  destruct (amap page_result (firstn 5 pages)) as [raw|] eqn:Hraw; cbn [abind];
    [|discriminate].
  intros [= <-]. split.
  - pose proof (amap_length _ _ _ Hraw) as Hlen.
    pose proof (firstn_le_length 5 pages) as Hfirst.
    pose proof (filter_length_le (fun r => is_string (url r)) raw). lia.
  - apply Forall_forall. intros r Hin. apply filter_In in Hin. destruct Hin as [Hin Hurl].
    split; [|exact Hurl].
    pose proof (amap_Forall page_result
                  (fun r => is_string (url r) = true -> is_string (title r) = true)
                  (firstn 5 pages) page_result_title raw Hraw) as Hall.
    rewrite Forall_forall in Hall. now apply Hall.
Qed.

Lemma results_ok_nil : results_ok [].
Proof. split; [simpl; lia|constructor]. Qed.

Lemma performWebSearch_shape (w : World) (query : string) (st : State) :
  results_ok (fst (performWebSearch w query st)).
Proof.
  unfold performWebSearch. destruct (search_configured w); simpl; [|apply results_ok_nil].
  destruct (Js.isWellFormed query); simpl; [|apply results_ok_nil].
  destruct (search_fetch w _ query) as [elapsed reply]. cbn [fst].
  destruct reply as [|ok code json0]; simpl; [apply results_ok_nil|].
  destruct ok; simpl; [|apply results_ok_nil].
  destruct json0 as [data|]; simpl; [|apply results_ok_nil].
  destruct (search_results data) as [rs|] eqn:Hrs; simpl; [|apply results_ok_nil].
  now apply (search_results_ok data).
Qed.

(** X7.  Whatever the provider replies, a search returns at most five
    results, and every result has a string for [url] and for [title]. *)
Theorem performWebSearch_results_ok (w : World) (query : string) (st : State) :
  results_ok (fst (performWebSearch w query st)).
Proof. apply performWebSearch_shape. Qed.




Lemma map_get_In {V : Type} (m : JsMap V) (k : string) (v : V) :
  map_get m k = Some v -> exists k', In (k', v) m.
Proof.
  induction m as [|[k0 v0] m IH]; simpl; [discriminate|].
  destruct (String.eqb k0 k).
  - intros [= ->]. exists k0. now left.
  - intros H. destruct (IH H) as [k' Hin]. exists k'. now right.
Qed.

Lemma getCachedSearch_results_ok query st :
  cache_results_ok (searchCache st) ->
  cache_results_ok (searchCache (snd (getCachedSearch query st))) /\
  forall rs, fst (getCachedSearch query st) = Some rs -> results_ok rs.
Proof.
  intros Hok. unfold getCachedSearch.
  destruct (map_get (searchCache st) query) as [entry|] eqn:Hget;
    [|split; [exact Hok|discriminate]].
  destruct (clock st - timestamp entry >? SEARCH_TTL_MS); cbn [fst snd].
  - split; [now apply map_delete_Forall|discriminate].
  - split; [exact Hok|]. intros rs [= <-].
    destruct (map_get_In _ _ _ Hget) as [k' Hin].
    unfold cache_results_ok in Hok. rewrite Forall_forall in Hok. exact (Hok _ Hin).
Qed.

Lemma setCachedSearch_results_ok query rs st :
  results_ok rs ->
  cache_results_ok (searchCache st) ->
  cache_results_ok (searchCache (setCachedSearch query rs st)).
Proof.
  intros Hrs Hok. unfold setCachedSearch. destruct rs as [|r rs]; [exact Hok|].
  cbn [searchCache with_cache]. apply map_set_Forall; [exact Hrs|].
  destruct (map_size (searchCache st) >=? SEARCH_CACHE_LIMIT); [|exact Hok].
  destruct (map_first_key (searchCache st)) as [firstKey|]; [|exact Hok].
  destruct (Js.is_empty firstKey); [exact Hok|now apply map_delete_Forall].
Qed.

Lemma lookup_results_ok (w : World) (question : string) (st : State) :
  cache_results_ok (searchCache st) ->
  results_ok (fst (getWebResultsForQuestion w question st)) /\
  cache_results_ok (searchCache (snd (getWebResultsForQuestion w question st))).
Proof.
  intros Hok. unfold getWebResultsForQuestion.
  destruct (search_configured w); simpl; [|split; [apply results_ok_nil|exact Hok]].
  destruct (Js.is_empty question || negb (isSearchSafe question))%bool; simpl;
    [split; [apply results_ok_nil|exact Hok]|].
  destruct (shouldUseWebSearch question); simpl; [|split; [apply results_ok_nil|exact Hok]].
  destruct (getCachedSearch_results_ok question st Hok) as [Hok1 Hhit].
  destruct (getCachedSearch question st) as [[cached|] st1]; cbn [fst snd] in *.
  - split; [now apply Hhit|exact Hok1].
  - pose proof (performWebSearch_shape w question st1) as Hrs.
    pose proof (performWebSearch_cache w question st1) as Hsame.
    destruct (performWebSearch w question st1) as [rs st2]. cbn [fst snd] in *.
    rewrite <- Hsame in Hok1.
    destruct rs as [|r rs]; cbn [fst snd]; [split; assumption|].
    split; [exact Hrs|now apply setCachedSearch_results_ok].
Qed.

(** X9.  As long as the store holds only well-formed result sets (as it does
    at start), a lookup returns at most five results with string [url] and
    [title], from the cache or from the network, and leaves the store so. *)
Theorem getWebResultsForQuestion_results_ok (w : World) (question : string) (st : State) :
  cache_results_ok (searchCache st) ->
  results_ok (fst (getWebResultsForQuestion w question st)) /\
  cache_results_ok (searchCache (snd (getWebResultsForQuestion w question st))).
Proof. apply lookup_results_ok. Qed.

Lemma getWebResultsForQuestion_results_ok_witness :
  results_ok (fst (getWebResultsForQuestion (search_world one_page) "latest news"
                     (initial_state 0))) /\
  cache_results_ok (searchCache (snd (getWebResultsForQuestion (search_world one_page)
                                        "latest news" (initial_state 0)))).
Proof.
  apply (getWebResultsForQuestion_results_ok (search_world one_page) "latest news"
           (initial_state 0)).
  constructor.
Defined.

Lemma Forall_firstn {A : Type} (P : A -> Prop) (n : nat) (l : list A) :
  Forall P l -> Forall P (firstn n l).
Proof.
  intros H. revert n. induction H as [|a l Ha Hl IH]; intros [|n]; simpl;
    constructor; auto.
Qed.

(** The sources of an envelope are empty or the first four results of the
    lookup for the request's question. *)
Lemma handler_sources w req st e :
  json (fst (handler w req st)) = AnswerBody e ->
  Envelope.sources e = [] \/
  exists q, request_question w req = Done (VStr q) /\
            Envelope.sources e = firstn 4 (fst (getWebResultsForQuestion w q st)).
Proof.
  destruct (String.eqb (method req) "POST") eqn:Hpost.
  - apply String.eqb_eq in Hpost.
    destruct (handler_cases w req st Hpost)
      as [[_ ->]|[(b & _ & _ & ->)|(b & _ & _ & Hrun)]].
    + intros [= <-]. now left.
    + discriminate.
    + destruct Hrun as [[_ ->]|(q & c & a & live & Hq & _ & _ & Hweb & Hgen & ->)].
      * intros [= <-]. now left.
      * intros [= <-]. cbn [Envelope.sources].
        destruct (generateAuroraAnswer_cases w c a Hgen)
          as [(q' & _ & ->)|(_ & _ & _ & -> & _)]; [now left|].
        destruct (negb (Nat.eqb (List.length (Ctx.webResults c)) 0)); [|now left].
        right. exists q. split; [exact Hq|]. simpl. now rewrite Hweb.
  - unfold handler. rewrite Hpost. discriminate.
Qed.

(** X10.  An envelope never lists more than four sources; and as long as the
    store holds only well-formed result sets, every source has a string
    [url] and [title], and the handler leaves the store so. *)
Theorem handler_sources_ok (w : World) (req : Request) (st : State) :
  (forall e,
     json (fst (handler w req st)) = AnswerBody e ->
     (List.length (Envelope.sources e) <= 4)%nat) /\
  (cache_results_ok (searchCache st) ->
   cache_results_ok (searchCache (snd (handler w req st))) /\
   forall e,
     json (fst (handler w req st)) = AnswerBody e ->
     Forall result_ok (Envelope.sources e)).
Proof.
  split.
  - intros e He. destruct (handler_sources w req st e He) as [->|(q & _ & ->)].
    + simpl. lia.
    + apply firstn_le_length.
  - intros Hok. split.
    + destruct (handler_state w req st) as [->|(q & _ & ->)]; [exact Hok|].
      now apply lookup_results_ok.
    + intros e He. destruct (handler_sources w req st e He) as [->|(q & _ & ->)].
      * constructor.
      * apply Forall_firstn.
        now apply (lookup_results_ok w q st Hok).
Qed.

Lemma handler_sources_ok_witness :
  cache_results_ok
    (searchCache (snd (handler full_world (post [user_message "latest news on rates"])
                         (initial_state 0)))) /\
  exists e,
    json (fst (handler full_world (post [user_message "latest news on rates"])
                 (initial_state 0))) = AnswerBody e /\
    (List.length (Envelope.sources e) <= 4)%nat /\
    Forall result_ok (Envelope.sources e).
Proof.
  pose proof (handler_sources_ok full_world (post [user_message "latest news on rates"])
                (initial_state 0)) as [Hlen Hshape].
  destruct Hshape as [Hstore Hall]; [constructor|].
  split; [exact Hstore|]. eexists. split; [reflexivity|].
  split; [apply Hlen; reflexivity|apply Hall; reflexivity].
Defined.

(** ** Request handler: status and question *)

(** X11.  The handler answers with 200, 400 or 405 and nothing else: 405
    exactly when the method is not [POST] (the comparison is exact, so
    [post] is refused too), 400 exactly when the method is [POST] and the
    decoded body is falsy or lacks a non-empty [messages] array. *)
Theorem handler_status (w : World) (req : Request) (st : State) :
  (status (fst (handler w req st)) = 200 \/
   status (fst (handler w req st)) = 400 \/
   status (fst (handler w req st)) = 405) /\
  (status (fst (handler w req st)) = 405 <-> method req <> "POST") /\
  (status (fst (handler w req st)) = 400 <->
   method req = "POST" /\
   exists b, decode_body w req = Done b /\ invalid_body b = true).
Proof.
  destruct (String.eqb_spec (method req) "POST") as [Hpost|Hother].
  - destruct (handler_cases w req st Hpost)
      as [[Hdec ->]|[(b & Hdec & Hbad & ->)|(b & Hdec & Hbad & Hrun)]].
    + cbn [fst]. split; [now left|]. split.
      * split; [discriminate|congruence].
      * split; [discriminate|]. intros (_ & b & Hb & _). congruence.
    + cbn [fst]. split; [right; now left|]. split.
      * split; [discriminate|congruence].
      * split; [|reflexivity]. intros _. split; [exact Hpost|]. now exists b.
    + assert (Hok : status (fst (handler w req st)) = 200).
      { destruct Hrun as [[_ ->]|(q & c & a & live & _ & _ & _ & _ & _ & ->)]; reflexivity. }
      rewrite Hok. split; [now left|]. split.
      * split; [discriminate|congruence].
      * split; [discriminate|]. intros (_ & b' & Hb' & Hbad'). congruence.
  - unfold handler. apply String.eqb_neq in Hother. rewrite Hother. cbn [negb fst].
    apply String.eqb_neq in Hother. split; [right; now right|]. split.
    + split; [intros _; exact Hother|reflexivity].
    + split; [discriminate|]. intros [Hpost _]. contradiction.
Qed.




(** ** Live market data *)

(** A loop that, for each symbol, either leaves the record as it is or sets
    the symbol's key: the keys stay distinct and come from the symbols. *)
Lemma fold_set_keys {V : Type} (key : string -> string)
  (step : JsMap V -> string -> JsMap V) :
  (forall acc s, step acc s = acc \/ exists v, step acc s = map_set acc (key s) v) ->
  forall symbols acc,
    map_wf acc ->
    map_wf (fold_left step symbols acc) /\
    forall k, In k (map_keys (fold_left step symbols acc)) ->
              In k (map_keys acc) \/ In k (List.map key symbols).
Proof.
  intros Hstep. induction symbols as [|s symbols IH]; intros acc Hwf; simpl.
  - split; [exact Hwf|]. intros k Hk. now left.
  - assert (Hnext : map_wf (step acc s) /\
                    forall k, In k (map_keys (step acc s)) ->
                              In k (map_keys acc) \/ k = key s).
    { destruct (Hstep acc s) as [->|[v ->]].
      - split; [exact Hwf|]. intros k Hk. now left.
      - split; [now apply map_set_wf|]. intros k Hk.
        apply map_set_keys_incl in Hk. tauto. }
    destruct Hnext as [Hwf' Hkeys]. destruct (IH (step acc s) Hwf') as [Hwf'' Hkeys''].
    split; [exact Hwf''|]. intros k Hk. destruct (Hkeys'' k Hk) as [Hin|Hin].
    + destruct (Hkeys k Hin) as [H| ->]; [now left|right; now left].
    + right. now right.
Qed.

Lemma fx_turn_cases (w : World) (base apiKey : string) (result : JsMap number)
  (symbol : string) :
  fx_turn w base apiKey result symbol = result \/
  exists rate,
    symbol <> "__proto__" /\
    fx_turn w base apiKey result symbol = map_set result symbol rate.
Proof.
  unfold fx_turn. destruct (encodable [base; symbol; apiKey]); cbn [negb catch]; [|now left].
  destruct (exchange_rate_fetch w base symbol) as [|ok code json0]; [now left|].
  destruct ok; cbn [negb abind catch]; [|now left].
  destruct json0 as [j|]; cbn [abind catch]; [|now left].
  destruct (getProp j "Realtime Currency Exchange Rate") as [r|]; cbn [abind catch];
    [|now left].
  destruct (number_if_truthy w (optProp r "5. Exchange Rate")) as [rate|]; cbn [catch];
    [|now left].
  unfold record_set. destruct (String.eqb_spec symbol "__proto__") as [->|Hne]; [now left|].
  right. now exists rate.
Qed.

Lemma getFxRates_wf_keys (w : World) (base : string) (symbols : list string) :
  map_wf (getFxRates w base symbols) /\
  forall k, In k (map_keys (getFxRates w base symbols)) -> In k symbols.
Proof.
  unfold getFxRates.
  destruct (ALPHAVANTAGE_API_KEY (env w)) as [apiKey|]; [|split; [constructor|intros k []]].
  destruct (Js.is_empty apiKey); [split; [constructor|intros k []]|].
  assert (Hstep : forall acc s,
             fx_turn w base apiKey acc s = acc \/
             exists v, fx_turn w base apiKey acc s = map_set acc s v).
  { intros acc s. destruct (fx_turn_cases w base apiKey acc s) as [H|(v & _ & H)];
      [now left|right; now exists v]. }
  destruct (fold_set_keys (fun s => s) _ Hstep symbols [] (NoDup_nil _)) as [Hwf Hkeys].
  split; [exact Hwf|].
  intros k Hk. destruct (Hkeys k Hk) as [[]|Hin]. now rewrite map_id in Hin.
Qed.

(** X13.  [getFxRates] reports only symbols it was asked for, each once;
    without an Alpha Vantage key it reports nothing; and a symbol whose
    request is rejected changes nothing for the others: the result is the
    one obtained without that symbol in the list. *)
Theorem getFxRates_keys (w : World) (base : string) (symbols : list string) :
  map_wf (getFxRates w base symbols) /\
  (forall k, In k (map_keys (getFxRates w base symbols)) -> In k symbols) /\
  (is_set (ALPHAVANTAGE_API_KEY (env w)) = false -> getFxRates w base symbols = []) /\
  (forall before later failing,
     symbols = (before ++ failing :: later)%list ->
     exchange_rate_fetch w base failing = FetchRejected ->
     getFxRates w base symbols = getFxRates w base (before ++ later)).
Proof.
  destruct (getFxRates_wf_keys w base symbols) as [Hwf Hkeys].
  split; [exact Hwf|]. split; [exact Hkeys|].
  unfold getFxRates, is_set.
  destruct (ALPHAVANTAGE_API_KEY (env w)) as [apiKey|]; [|split; reflexivity].
  destruct (Js.is_empty apiKey); cbn [negb]; [split; reflexivity|].
  split; [discriminate|].
  intros before later failing -> Hfail.
  assert (Hskip : forall acc, fx_turn w base apiKey acc failing = acc).
  { intros acc. unfold fx_turn. rewrite Hfail. now destruct (encodable _). }
  rewrite !fold_left_app. cbn [fold_left]. now rewrite Hskip.
Qed.

Lemma getFxRates_keys_witness :
  getFxRates fx_world "USD" ["GBP"; "EUR"] = getFxRates fx_world "USD" ["EUR"] /\
  getFxRates fx_world "USD" ["EUR"] = [("EUR", Finite 0.92)].
Proof.
  split; [|reflexivity].
  apply (proj2 (proj2 (proj2 (getFxRates_keys fx_world "USD" ["GBP"; "EUR"])))
           [] ["EUR"] "GBP"); reflexivity.
Defined.

Lemma fx_fold_reports (w : World) (base apiKey symbol : string) (rate : number) :
  fx_turn w base apiKey [] symbol = map_set [] symbol rate ->
  (forall acc, fx_turn w base apiKey acc symbol = map_set acc symbol rate) ->
  forall l acc,
    In symbol l \/ map_get acc symbol = Some rate ->
    map_get (fold_left (fx_turn w base apiKey) l acc) symbol = Some rate.
Proof.
  intros _ Hturn. induction l as [|s l IH]; intros acc H; cbn [fold_left].
  - destruct H as [[]|H]. exact H.
  - apply IH. destruct (String.eqb_spec s symbol) as [->|Hne].
    + right. rewrite Hturn. apply map_get_set_same.
    + destruct H as [[Heq|Hl]|Hacc]; [congruence|now left|right].
      destruct (fx_turn_cases w base apiKey acc s) as [->|(v & _ & ->)]; [exact Hacc|].
      now rewrite map_get_set_other.
Qed.

Lemma fx_fold_no_proto (w : World) (base apiKey : string) :
  forall l acc,
    ~ In "__proto__" (map_keys acc) ->
    ~ In "__proto__" (map_keys (fold_left (fx_turn w base apiKey) l acc)).
Proof.
  induction l as [|s l IH]; intros acc Hacc; cbn [fold_left]; [exact Hacc|].
  apply IH. destruct (fx_turn_cases w base apiKey acc s) as [->|(v & Hne & ->)];
    [exact Hacc|].
  intros Hin. apply map_set_keys_incl in Hin. destruct Hin as [Heq|Hin]; [congruence|].
  contradiction.
Qed.

(** X14.  When the provider's reply for a requested symbol carries a rate
    that [Number] reads (finite or not), [getFxRates] reports that rate under
    the symbol, wherever the symbol stands in the list and whatever happens
    to the other symbols, provided the base, the symbol and the key hold no
    unpaired surrogate and the symbol is not [__proto__].  Under [__proto__]
    nothing is ever reported. *)
Theorem getFxRates_reports
  (w : World) (base : string) (symbols : list string) (symbol apiKey : string)
  (code : Z) (j r : value) (rate : number) :
  ALPHAVANTAGE_API_KEY (env w) = Some apiKey ->
  apiKey <> EmptyString ->
  encodable [base; symbol; apiKey] = true ->
  In symbol symbols ->
  exchange_rate_fetch w base symbol = FetchResponse true code (Done j) ->
  getProp j "Realtime Currency Exchange Rate" = Done r ->
  number_if_truthy w (optProp r "5. Exchange Rate") = Some rate ->
  (symbol <> "__proto__" -> map_get (getFxRates w base symbols) symbol = Some rate) /\
  ~ In "__proto__" (map_keys (getFxRates w base symbols)).
Proof.
  intros Hkey Hset Hcode Hin Hreply Hobj Hrate. unfold getFxRates.
  rewrite Hkey, (is_empty_false _ Hset). split.
  - intros Hproto.
    assert (Hturn : forall acc, fx_turn w base apiKey acc symbol = map_set acc symbol rate).
    { intros acc. unfold fx_turn. rewrite Hcode, Hreply. cbn [negb abind].
      rewrite Hobj. cbn [abind]. rewrite Hrate. cbn [catch]. unfold record_set.
      now destruct (String.eqb_spec symbol "__proto__"). }
    apply (fx_fold_reports w base apiKey symbol rate (Hturn []) Hturn). now left.
  - apply fx_fold_no_proto. intros [].
Qed.

Lemma getFxRates_reports_witness :
  map_get (getFxRates fx_world "USD" ["EUR"; "GBP"]) "EUR" = Some (Finite 0.92) /\
  ~ In "__proto__" (map_keys (getFxRates fx_world "USD" ["EUR"; "GBP"])).
Proof.
  destruct (getFxRates_reports fx_world "USD" ["EUR"; "GBP"] "EUR" "demo" 200
              (VObj [("Realtime Currency Exchange Rate",
                      VObj [("1. From_Currency Code", VStr "USD");
                            ("5. Exchange Rate", VStr "0.92000000")])])
              (VObj [("1. From_Currency Code", VStr "USD");
                     ("5. Exchange Rate", VStr "0.92000000")])
              (Finite 0.92)) as [Hrate Hproto].
  - reflexivity.
  - discriminate.
  - reflexivity.
  - simpl. tauto.
  - reflexivity.
  - reflexivity.
  - reflexivity.
  - split; [apply Hrate; discriminate|exact Hproto].
Defined.

Lemma quote_turn_cases (w : World) (apiKey : string) (results0 : JsMap StockQuote)
  (symbol : string) :
  quote_turn w apiKey results0 symbol = results0 \/
  exists v, quote_turn w apiKey results0 symbol = map_set results0 (Js.toUpperCase symbol) v.
Proof.
  unfold quote_turn. destruct (encodable [symbol; apiKey]); cbn [negb catch]; [|now left].
  destruct (global_quote_fetch w symbol) as [|ok code json0]; [now left|].
  destruct ok; cbn [negb abind catch]; [|now left].
  destruct json0 as [j|]; cbn [abind catch]; [|now left].
  destruct (getProp j "Global Quote") as [gq|]; cbn [abind catch]; [|now left].
  cbv zeta. destruct (number_if_truthy w _) as [p|]; cbn [catch];
    [right; now eexists|now left].
Qed.

Lemma getStockQuotes_keys (w : World) (symbols : list string) :
  map_wf (getStockQuotes w symbols) /\
  forall k, In k (map_keys (getStockQuotes w symbols)) ->
            In k (List.map Js.toUpperCase symbols).
Proof.
  unfold getStockQuotes.
  destruct (ALPHAVANTAGE_API_KEY (env w)) as [apiKey|]; [|split; [constructor|intros k []]].
  destruct (Js.is_empty apiKey || Nat.eqb (List.length symbols) 0)%bool;
    [split; [constructor|intros k []]|].
  destruct (fold_set_keys Js.toUpperCase _ (quote_turn_cases w apiKey) symbols []
              (NoDup_nil _)) as [Hwf Hkeys].
  split; [exact Hwf|]. intros k Hk. now destruct (Hkeys k Hk) as [[]|Hin].
Qed.

Lemma first_ids_known (seen : list string) (symbols : list string) :
  Forall (fun sym => map_get COINGECKO_IDS sym = None) symbols ->
  first_ids seen (List.map (map_get COINGECKO_IDS) symbols) = [].
Proof.
  induction 1 as [|sym symbols Hsym _ IH]; cbn [first_ids List.map]; [reflexivity|].
  now rewrite Hsym.
Qed.

Lemma crypto_fold_keys (j : value) (currency0 : string) (symbols : list string) :
  forall acc out,
    fold_left
      (fun acc sym =>
         try! out <- acc;
         match map_get COINGECKO_IDS sym with
         | None => Done out
         | Some id =>
             try! entry <- getProp j id;
             match optProp entry currency0 with
             | VNum p => Done (map_set out sym p)
             | _ => Done out
             end
         end)
      symbols acc = Done out ->
    exists out0,
      acc = Done out0 /\
      (map_wf out0 -> map_wf out) /\
      forall k, In k (map_keys out) ->
                In k (map_keys out0) \/ map_get COINGECKO_IDS k <> None.
Proof.
  induction symbols as [|sym symbols IH]; cbn [fold_left]; intros acc out H.
  - exists out. split; [exact H|]. split; [tauto|]. intros k Hk. now left.
  - destruct (IH _ _ H) as (out1 & Hstep & Hwf & Hkeys).
    destruct acc as [out0|]; cbn [abind] in Hstep; [|discriminate].
    exists out0. split; [reflexivity|].
    destruct (map_get COINGECKO_IDS sym) as [id|] eqn:Hid.
    + destruct (getProp j id) as [entry|]; cbn [abind] in Hstep; [|discriminate].
      assert (Hcases : out1 = out0 \/ exists p, out1 = map_set out0 sym p).
      { destruct (optProp entry currency0); injection Hstep as <-;
          try (now left). right. now eexists. }
      destruct Hcases as [->|[p ->]]; [split; assumption|]. split.
      * intros H0. apply Hwf. now apply map_set_wf.
      * intros k Hk. destruct (Hkeys k Hk) as [Hin|Hknown]; [|now right].
        apply map_set_keys_incl in Hin. destruct Hin as [->|Hin]; [right; congruence|now left].
    + injection Hstep as <-. split; assumption.
Qed.

Lemma coin_known (k : string) :
  map_get COINGECKO_IDS k <> None -> k = "BTC" \/ k = "ETH".
Proof.
  unfold COINGECKO_IDS. cbn [map_get].
  destruct (String.eqb_spec "BTC" k) as [<-|_]; [now left|].
  destruct (String.eqb_spec "ETH" k) as [<-|_]; [now right|].
  intros H. now contradiction H.
Qed.

Lemma getCryptoPrices_wf_keys (w : World) (symbols : list string) (vsCurrency : string) :
  map_wf (getCryptoPrices w symbols vsCurrency) /\
  forall k, In k (map_keys (getCryptoPrices w symbols vsCurrency)) ->
            k = "BTC" \/ k = "ETH".
Proof.
  split.
  - unfold getCryptoPrices.
    destruct (first_ids [] _); [constructor|].
    destruct (encodable [vsCurrency]); cbn [negb]; [|constructor].
    destruct (simple_price_fetch w _ vsCurrency) as [|ok code json0]; simpl; [constructor|].
    destruct ok; simpl; [|constructor].
    destruct json0 as [j|]; simpl; [|constructor].
    match goal with
    | |- map_wf (catch ?f _) => destruct f as [out|] eqn:Hfold; simpl; [|constructor]
    end.
    destruct (crypto_fold_keys _ _ _ _ _ Hfold) as (out0 & [= <-] & Hwf & _).
    apply Hwf. constructor.
  - intros k. unfold getCryptoPrices.
    destruct (first_ids [] _); [intros []|].
    destruct (encodable [vsCurrency]); cbn [negb]; [|intros []].
    destruct (simple_price_fetch w _ vsCurrency) as [|ok code json0]; simpl; [intros []|].
    destruct ok; simpl; [|intros []].
    destruct json0 as [j|]; simpl; [|intros []].
    match goal with
    | |- In k (map_keys (catch ?f _)) -> _ =>
        destruct f as [out|] eqn:Hfold; simpl; [|intros []]
    end.
    destruct (crypto_fold_keys _ _ _ _ _ Hfold) as (out0 & [= <-] & _ & Hkeys).
    intros Hk. destruct (Hkeys k Hk) as [[]|Hin]. now apply coin_known.
Qed.

(** X15.  [getCryptoPrices] reports prices only under [BTC] and [ETH], each
    at most once, whatever symbols it is given and whatever the provider
    replies; when none of the symbols is one of the two, letter case
    ignored, it reports nothing on any host, whatever the provider would
    reply. *)
Theorem getCryptoPrices_keys (w : World) (symbols : list string) (vsCurrency : string) :
  map_wf (getCryptoPrices w symbols vsCurrency) /\
  (forall k, In k (map_keys (getCryptoPrices w symbols vsCurrency)) ->
             k = "BTC" \/ k = "ETH") /\
  (Forall (fun s => map_get COINGECKO_IDS (Js.toUpperCase s) = None) symbols ->
   getCryptoPrices w symbols vsCurrency = []).
Proof.
  destruct (getCryptoPrices_wf_keys w symbols vsCurrency) as [Hwf Hkeys].
  split; [exact Hwf|]. split; [exact Hkeys|].
  intros Hnone. unfold getCryptoPrices.
  rewrite first_ids_known; [reflexivity|].
  apply Forall_forall. intros sym Hin. apply in_map_iff in Hin.
  destruct Hin as (s & <- & Hs). rewrite Forall_forall in Hnone. now apply Hnone.
Qed.

Lemma getCryptoPrices_keys_witness :
  getCryptoPrices full_world ["doge"; "SOL"] "usd" = [].
Proof.
  apply (proj2 (proj2 (getCryptoPrices_keys full_world ["doge"; "SOL"] "usd"))).
  repeat constructor.
Defined.

(** ** Request handler: live data and search *)

(** The live-data block of a success envelope. *)
Lemma handler_live w req st e live :
  json (fst (handler w req st)) = AnswerBody e ->
  Envelope.usedLiveData e = Some live ->
  exists q userId,
    live = {| fxSymbols := map_keys (getFxRates w "USD" ["EUR"; "GBP"]);
              stocks := map_keys (getStockQuotes w (detect_stocks q));
              crypto := map_keys (getCryptoPrices w (detect_crypto (Js.toLowerCase q)) "usd");
              transactionCount :=
                match getRecentTransactions w userId 25 with
                | VArr ts => Z.of_nat (List.length ts)
                | _ => 0
                end |}.
Proof.
  unfold handler, handler_try.
  destruct (negb (String.eqb (method req) "POST")); [discriminate|].
  destruct (decode_body w req) as [b|]; [|intros [= <-]; discriminate].
  destruct (invalid_body b); [discriminate|].
  destruct (extract_question (array_items (optProp b "messages"))) as [[| | | |q| |]|];
    try (intros [= <-]; discriminate).
  destruct (getWebResultsForQuestion w q st) as [webResults st'].
  destruct (generateAuroraAnswer w _) as [a|]; [|intros [= <-]; discriminate].
  intros [= <-] [= <-]. now exists q, (coalesce (optProp b "userId") (VStr "anonymous")).
Qed.

Lemma detect_stocks_known (question k : string) :
  In k (List.map Js.toUpperCase (detect_stocks question)) ->
  k = "AAPL" \/ k = "TSLA" \/ k = "MSFT".
Proof.
  unfold detect_stocks.
  destruct (Js.word_test "aapl" question), (Js.word_test "tsla" question),
    (Js.word_test "msft" question); simpl; intuition (subst; auto).
Qed.

(** X16.  The live-data block of an envelope names only what the handler
    asked for: currencies among EUR and GBP, tickers among AAPL, TSLA and
    MSFT, coins among BTC and ETH, each at most once, and a transaction count
    that is not negative.  The block is missing exactly from the fallback
    envelope. *)
Theorem handler_live_data (w : World) (req : Request) (st : State) (e : Envelope.t) :
  json (fst (handler w req st)) = AnswerBody e ->
  (Envelope.usedLiveData e = None <-> Envelope.fallback e = Some true) /\
  forall live,
    Envelope.usedLiveData e = Some live ->
    (forall k, In k (fxSymbols live) -> k = "EUR" \/ k = "GBP") /\
    (forall k, In k (stocks live) -> k = "AAPL" \/ k = "TSLA" \/ k = "MSFT") /\
    (forall k, In k (crypto live) -> k = "BTC" \/ k = "ETH") /\
    NoDup (fxSymbols live) /\ NoDup (stocks live) /\ NoDup (crypto live) /\
    0 <= transactionCount live.
Proof.
  intros He. split.
  - destruct (String.eqb (method req) "POST") eqn:Hpost.
    + apply String.eqb_eq in Hpost.
      destruct (handler_cases w req st Hpost)
        as [[_ Hr]|[(b & _ & _ & Hr)|(b & _ & _ & Hrun)]].
      * rewrite Hr in He. injection He as <-. now split.
      * rewrite Hr in He. discriminate.
      * destruct Hrun as [[_ Hr]|(q & c & a & live & _ & _ & _ & _ & _ & Hr)];
          rewrite Hr in He; injection He as <-; simpl; split; congruence.
    + unfold handler in He. rewrite Hpost in He. discriminate.
  - intros live Hlive. destruct (handler_live w req st e live He Hlive) as (q & userId & ->).
    cbn [fxSymbols stocks crypto transactionCount].
    destruct (getFxRates_wf_keys w "USD" ["EUR"; "GBP"]) as [Hfx_wf Hfx].
    destruct (getStockQuotes_keys w (detect_stocks q)) as [Hst_wf Hst].
    destruct (getCryptoPrices_wf_keys w (detect_crypto (Js.toLowerCase q)) "usd")
      as [Hcr_wf Hcr].
    repeat split; try assumption.
    + intros k Hk. apply Hfx in Hk. destruct Hk as [<-|[<-|[]]]; [now left|now right].
    + intros k Hk. apply (detect_stocks_known q). now apply Hst.
    + destruct (getRecentTransactions w userId 25); lia.
Qed.

Lemma handler_live_data_witness :
  exists e live,
    json (fst (handler fx_world (post [user_message "Is AAPL a buy in EUR?"])
                 (initial_state 0))) = AnswerBody e /\
    Envelope.usedLiveData e = Some live /\
    fxSymbols live = ["EUR"] /\
    (forall k, In k (stocks live) -> k = "AAPL" \/ k = "TSLA" \/ k = "MSFT").
Proof.
  eexists. eexists. split; [reflexivity|]. split; [reflexivity|]. split; [reflexivity|].
  apply (proj2 (handler_live_data fx_world (post [user_message "Is AAPL a buy in EUR?"])
                  (initial_state 0) _ eq_refl) _ eq_refl).
Defined.

Lemma getWebResultsForQuestion_found w question st :
  fst (getWebResultsForQuestion w question st) <> [] ->
  search_configured w = true /\
  question <> EmptyString /\
  isSearchSafe question = true /\
  shouldUseWebSearch question = true.
Proof.
  unfold getWebResultsForQuestion.
  destruct (search_configured w); simpl; [|congruence].
  destruct (Js.is_empty question) eqn:Hempty; simpl; [congruence|].
  destruct (isSearchSafe question); simpl; [|congruence].
  destruct (shouldUseWebSearch question); simpl; [|congruence].
  intros _. repeat split. intros ->. discriminate.
Qed.

(** X17.  [usedSearch] is true only in an answer of the completion provider
    (confidence 0.92, no fallback mark), given for a question that is not
    empty, passes the safety filter and holds a trigger word, on a host with
    both the search and the completion credentials set. *)
Theorem usedSearch_requires (w : World) (req : Request) (st : State) (e : Envelope.t) :
  json (fst (handler w req st)) = AnswerBody e ->
  Envelope.usedSearch e = true ->
  is_set (OPENAI_API_KEY (env w)) = true /\
  search_configured w = true /\
  Envelope.confidence e = 0.92%Q /\
  Envelope.fallback e = None /\
  exists q,
    request_question w req = Done (VStr q) /\
    q <> EmptyString /\ isSearchSafe q = true /\ shouldUseWebSearch q = true.
Proof.
  intros He Hused.
  destruct (String.eqb (method req) "POST") eqn:Hpost;
    [|unfold handler in He; rewrite Hpost in He; discriminate].
  apply String.eqb_eq in Hpost.
  destruct (handler_cases w req st Hpost)
    as [[_ Hr]|[(b & _ & _ & Hr)|(b & _ & _ & Hrun)]].
  - rewrite Hr in He. injection He as <-. discriminate.
  - rewrite Hr in He. discriminate.
  - destruct Hrun as [[_ Hr]|(q & c & a & live & Hq & _ & _ & Hweb & Hgen & Hr)];
      rewrite Hr in He; injection He as <-; [discriminate|].
    cbn [Envelope.usedSearch Envelope.confidence Envelope.fallback] in *.
    destruct (generateAuroraAnswer_cases w c a Hgen)
      as [(q' & _ & ->)|(Hkey & _ & Hconf & _ & Hsearch)]; [discriminate|].
    rewrite Hsearch in Hused. simpl in Hused. rewrite Hconf.
    assert (Hfound : fst (getWebResultsForQuestion w q st) <> []).
    { rewrite <- Hweb. intros Hnil. rewrite Hnil in Hused. discriminate. }
    destruct (getWebResultsForQuestion_found w q st Hfound) as (Hconf' & Hne & Hsafe & Hwant).
    repeat split; try assumption. now exists q.
Qed.

Lemma usedSearch_requires_witness :
  is_set (OPENAI_API_KEY (env full_world)) = true /\
  search_configured full_world = true /\
  exists q,
    request_question full_world (post [user_message "latest news on rates"])
    = Done (VStr q) /\
    isSearchSafe q = true /\ shouldUseWebSearch q = true.
Proof.
  destruct (usedSearch_requires full_world (post [user_message "latest news on rates"])
              (initial_state 0) _ eq_refl eq_refl)
    as (Hkey & Hsearch & _ & _ & q & Hq & _ & Hsafe & Hwant).
  split; [exact Hkey|]. split; [exact Hsearch|]. now exists q.
Defined.

(** ** Answer generator *)

Lemma catch_with_same {A : Type} (x : attempt A) : catch_with x x = x.
Proof. now destruct x. Qed.








(** ** User data *)

(** X19.  Whatever Supabase does, the profile handed to the generator is an
    object for the requested user in which nothing is missing: [currency]
    and the four figures of [recentSummary] are never [null] or [undefined],
    and [goals] is an array. *)
Theorem getUserFinancialProfile_shape (w : World) (userId : value) :
  let profile := getUserFinancialProfile w userId in
  let summary := optProp profile "recentSummary" in
  optProp profile "userId" = userId /\
  nullish (optProp profile "currency") = false /\
  nullish (optProp summary "monthlyIncome") = false /\
  nullish (optProp summary "monthlyFixedCosts") = false /\
  nullish (optProp summary "avgDiscretionary") = false /\
  nullish (optProp summary "savingsRate") = false /\
  is_array (optProp profile "goals") = true.
Proof.
  assert (Hmock : let profile := getMockUserProfile userId in
                  let summary := optProp profile "recentSummary" in
                  optProp profile "userId" = userId /\
                  nullish (optProp profile "currency") = false /\
                  nullish (optProp summary "monthlyIncome") = false /\
                  nullish (optProp summary "monthlyFixedCosts") = false /\
                  nullish (optProp summary "avgDiscretionary") = false /\
                  nullish (optProp summary "savingsRate") = false /\
                  is_array (optProp profile "goals") = true)
    by (cbv; repeat split).
  assert (Hcoalesce : forall a d, nullish d = false -> nullish (coalesce a d) = false).
  { intros a d Hd. unfold coalesce. now destruct (nullish a) eqn:Ha. }
  unfold getUserFinancialProfile.
  destruct (getSupabaseClient w); cbn [negb]; [|exact Hmock].
  destruct (financial_overview_single w userId) as [[data error]|]; cbn [abind catch];
    [|exact Hmock].
  destruct (truthy error || negb (truthy data))%bool; cbn [catch]; [exact Hmock|].
  cbv zeta. unfold optProp at 1 2 3 4 5 6 7 8 9 10 11. cbn [getProp catch own_prop].
  cbv [String.eqb Ascii.eqb Bool.eqb]. cbn [catch].
  repeat split; try (apply Hcoalesce; reflexivity).
  now destruct (is_array (optProp data "goals")) eqn:Hgoals.
Qed.

(** X20.  With no Supabase URL, or with neither the service-role nor the
    anonymous key, the user data are the defaults, whatever the store would
    have answered: the mock profile of the requested user and no
    transactions. *)
Theorem supabase_unconfigured (w : World) (userId : value) (limit : Z) :
  is_set (SUPABASE_URL (env w)) = false \/
  (is_set (SUPABASE_SERVICE_ROLE_KEY (env w)) = false /\
   is_set (SUPABASE_ANON_KEY (env w)) = false) ->
  getUserFinancialProfile w userId = getMockUserProfile userId /\
  getRecentTransactions w userId limit = VArr [].
Proof.
  intros Hmissing.
  assert (Hclient : getSupabaseClient w = false).
  { unfold getSupabaseClient, or_else, is_set in *.
    destruct (SUPABASE_URL (env w)) as [u|]; [|reflexivity].
    destruct (SUPABASE_SERVICE_ROLE_KEY (env w)) as [k|];
      destruct (SUPABASE_ANON_KEY (env w)) as [k'|];
      try destruct (Js.is_empty k) eqn:Hk; try destruct (Js.is_empty k') eqn:Hk';
      try destruct (Js.is_empty u) eqn:Hu; cbn [negb orb] in *;
      try rewrite Hk; try rewrite Hk'; try rewrite Hu; cbn [orb];
      try reflexivity; destruct Hmissing as [H|[H H']]; discriminate. }
  unfold getUserFinancialProfile, getRecentTransactions. now rewrite Hclient.
Qed.

Lemma supabase_unconfigured_witness :
  getUserFinancialProfile offline_world (VStr "u1") = getMockUserProfile (VStr "u1") /\
  getRecentTransactions offline_world (VStr "u1") 25 = VArr [].
Proof.
  apply (supabase_unconfigured offline_world (VStr "u1") 25). left. reflexivity.
Defined.

(** ** Knowledge base stub *)

(** X21.  [getKnowledgeSnippets] never comes back empty: it returns between
    one and six snippets and the last one is always the disclaimer. *)
Theorem getKnowledgeSnippets_disclaimer (query : string) :
  last (getKnowledgeSnippets query) EmptyString = disclaimer /\
  (1 <= List.length (getKnowledgeSnippets query) <= 6)%nat.
Proof.
  unfold getKnowledgeSnippets. cbv zeta.
  split_ifs; split; try reflexivity; simpl; lia.
Qed.

Example profile_from_store :
  getSupabaseClient supabase_world = true /\
  optProp (getUserFinancialProfile supabase_world (VStr "u1")) "currency" = VStr "EUR" /\
  optProp (optProp (getUserFinancialProfile supabase_world (VStr "u1")) "recentSummary")
    "savingsRate" = VNum 0%Q /\
  getRecentTransactions supabase_world (VStr "u1") 25 = VArr [].
Proof. repeat split. Qed.

(** ** Answer generator: the text and the question *)

Lemma completion_content_trimmed (data : value) (t : string) :
  completion_content data = Done (Some t) -> exists s, t = Js.trim s.
Proof.
  unfold completion_content.
  destruct (getProp data "choices") as [choices|]; cbn [abind]; [|discriminate].
  destruct (optProp (optProp (optIndex0 choices) "message") "content");
    try discriminate.
  intros [= <-]. now eexists.
Qed.

(** What [trim] returns neither starts nor ends with white space. *)
Lemma trim_trimmed (s : string) :
  Js.trim s <> EmptyString ->
  Js.trim (Js.trim s) = Js.trim s /\
  Js.after_space (Js.trim s) = None /\
  Js.trimStart (Js.trim s) = Js.trim s /\ Js.trimEnd (Js.trim s) = Js.trim s.
Proof.
  intros Hne. split; [apply trim_idem|].
  assert (Hstart : Js.trimStart (Js.trim s) = Js.trim s) by apply trimStart_trimEnd.
  split; [|split; [exact Hstart|apply trimEnd_idem]].
  rewrite trimStart_unfold in Hstart.
  destruct (Js.after_space (Js.trim s)) as [r|] eqn:Hr; [|reflexivity].
  pose proof (after_space_shorter _ _ Hr). pose proof (trimStart_length r).
  rewrite Hstart in *. lia.
Qed.

(** X22.  A text that comes from the completion provider (confidence 0.92)
    is never blank and carries no white space at either end, be it ASCII
    white space or one of the Unicode spaces that [trim] removes: no
    white-space character starts it, and [trimStart], [trimEnd] and [trim]
    leave it as it is. *)
Theorem generateAuroraAnswer_trimmed (w : World) (c : Ctx.t) (a : AuroraAnswer) :
  generateAuroraAnswer w c = Done a ->
  confidence a = Some 0.92%Q ->
  text a <> EmptyString /\ Js.trim (text a) = text a /\
  Js.after_space (text a) = None /\
  Js.trimStart (text a) = text a /\ Js.trimEnd (text a) = text a.
Proof.
  unfold generateAuroraAnswer.
  destruct (asked_question c) as [question|]; cbn [abind]; [|discriminate].
  assert (Hheur : heuristic_for question = Done a -> confidence a = Some 0.92%Q -> False).
  { intros H Hc. apply heuristic_for_Done in H. destruct H as (q & _ & ->).
    simpl in Hc. discriminate. }
  destruct (OPENAI_API_KEY (env w)) as [apiKey|]; [|intros H Hc; now destruct (Hheur H Hc)].
  destruct (Js.is_empty apiKey); [intros H Hc; now destruct (Hheur H Hc)|].
  destruct (prompt_throws c question); [discriminate|].
  destruct (completion_fetch w _) as [|ok code json0]; cbn [catch_with];
    [intros H Hc; now destruct (Hheur H Hc)|].
  destruct ok; cbn [negb catch_with]; [|intros H Hc; now destruct (Hheur H Hc)].
  destruct json0 as [data|]; cbn [abind catch_with]; [|intros H Hc; now destruct (Hheur H Hc)].
  destruct (completion_content data) as [[reply|]|] eqn:Hcontent; cbn [abind catch_with].
  - destruct (Js.is_empty reply) eqn:Hreply.
    + rewrite catch_with_same. intros H Hc; now destruct (Hheur H Hc).
    + cbn [catch_with]. intros [= <-] _. cbn [text].
      assert (Hne : reply <> EmptyString) by (intros ->; discriminate).
      split; [exact Hne|].
      destruct (completion_content_trimmed data reply Hcontent) as [s ->].
      now apply trim_trimmed.
  - rewrite catch_with_same. intros H Hc; now destruct (Hheur H Hc).
  - intros H Hc; now destruct (Hheur H Hc).
Qed.

Lemma generateAuroraAnswer_trimmed_witness :
  exists a,
    generateAuroraAnswer full_world
      {| Ctx.question := "rates?"; Ctx.messages := []; Ctx.userProfile := VNull;
         Ctx.fxRates := []; Ctx.stockQuotes := []; Ctx.cryptoPrices := [];
         Ctx.transactions := VArr []; Ctx.kbSnippets := []; Ctx.webResults := [] |}
    = Done a /\ text a = "Rates moved today." /\
    Js.trim (text a) = text a /\ Js.trimEnd (text a) = text a.
Proof.
  eexists. split; [reflexivity|]. split; [reflexivity|].
  destruct (generateAuroraAnswer_trimmed full_world
              {| Ctx.question := "rates?"; Ctx.messages := []; Ctx.userProfile := VNull;
                 Ctx.fxRates := []; Ctx.stockQuotes := []; Ctx.cryptoPrices := [];
                 Ctx.transactions := VArr []; Ctx.kbSnippets := []; Ctx.webResults := [] |}
              _ eq_refl eq_refl) as (_ & Htrim & _ & _ & Hend).
  split; [exact Htrim|exact Hend].
Defined.







(** ** The chat page and the endpoint together *)

Lemma parse_source_url (item : value) :
  ChatPage.url (ChatPage.parse_source item) <> "#" ->
  is_string (ChatPage.title (ChatPage.parse_source item)) = true.
Proof.
  unfold ChatPage.parse_source. cbn [ChatPage.url ChatPage.title].
  destruct (optProp item "title"); try reflexivity;
    destruct (optProp item "url"); try reflexivity; intros H; now contradiction H.
Qed.

(** X24.  Whatever the network does, the reply the page builds marks
    [usedSearch] only beside a non-empty list of sources; every source it
    lists has a string title and a url other than the placeholder [#]; and the
    list is missing exactly when the reply could not be read, in which case
    the page answers from its mock with confidence 0.93. *)
Theorem callAuroraChatApi_reply
  (fetch : Request -> fetch_reply) (conversation : list ChatPage.ChatMessage)
  (question : string) :
  (ChatPage.Reply.usedSearch (ChatPage.callAuroraChatApi fetch conversation question) = true ->
   exists s l,
     ChatPage.Reply.sources (ChatPage.callAuroraChatApi fetch conversation question)
     = Some (s :: l)) /\
  (forall l s,
     ChatPage.Reply.sources (ChatPage.callAuroraChatApi fetch conversation question) = Some l ->
     In s l ->
     ChatPage.url s <> "#" /\ is_string (ChatPage.title s) = true) /\
  (ChatPage.Reply.sources (ChatPage.callAuroraChatApi fetch conversation question) = None
   <-> reply_usable (fetch (ChatPage.chat_request conversation)) = false) /\
  (reply_usable (fetch (ChatPage.chat_request conversation)) = false ->
   ChatPage.callAuroraChatApi fetch conversation question = mock_reply question).
Proof.
  unfold ChatPage.callAuroraChatApi, reply_usable.
  destruct (fetch (ChatPage.chat_request conversation)) as [|ok code json0].
  { simpl. repeat split; try discriminate; try reflexivity. }
  destruct ok; cbn [negb].
  2:{ simpl. repeat split; try discriminate; try reflexivity. }
  destruct json0 as [data|].
  2:{ simpl. repeat split; try discriminate; try reflexivity. }
  cbn [abind].
  destruct (getProp data "text") as [data_text|] eqn:Htext.
  - assert (Hdata : nullish data = false) by (destruct data; try reflexivity; discriminate).
    rewrite Hdata. cbn [abind catch negb ChatPage.Reply.usedSearch ChatPage.Reply.sources].
    split; [|split; [|split; [split; discriminate|discriminate]]].
    + intros Hused. apply andb_true_iff in Hused. destruct Hused as [_ Hlen].
      destruct (ChatPage.parse_sources (optProp data "sources")) as [|s l];
        [discriminate|now exists s, l].
    + intros l s [= <-] Hin. unfold ChatPage.parse_sources in Hin.
      destruct (optProp data "sources") as [| | | | |items|]; try contradiction.
      apply filter_In in Hin. destruct Hin as [Hin Hurl].
      apply in_map_iff in Hin. destruct Hin as (item & <- & _).
      apply negb_true_iff, String.eqb_neq in Hurl.
      split; [exact Hurl|now apply parse_source_url].
  - assert (Hdata : nullish data = true) by (destruct data; try reflexivity; discriminate).
    rewrite Hdata. simpl. repeat split; try discriminate; try reflexivity.
Qed.

Lemma callAuroraChatApi_reply_witness :
  ChatPage.callAuroraChatApi (fun _ => service_unavailable)
    [typed ChatPage.user "How is my budget?"] "How is my budget?"
  = mock_reply "How is my budget?" /\
  ChatPage.Reply.text (mock_reply "How is my budget?") = VStr ChatPage.mock_budget.
Proof.
  split; [|reflexivity].
  apply (proj2 (proj2 (proj2 (callAuroraChatApi_reply (fun _ => service_unavailable)
                                [typed ChatPage.user "How is my budget?"]
                                "How is my budget?")))).
  reflexivity.
Defined.

(** What the page sends is a valid request, whose question is the text of
    the message typed last. *)
Lemma chat_request_question (w : World) (prev : list ChatPage.ChatMessage)
  (m : ChatPage.ChatMessage) :
  ChatPage.role m = ChatPage.user ->
  valid_request w (ChatPage.chat_request (prev ++ [m])) /\
  request_question w (ChatPage.chat_request (prev ++ [m])) = Done (VStr (ChatPage.text m)).
Proof.
  intros Hrole. split.
  - split; [reflexivity|]. unfold ChatPage.chat_request. cbn [body decode_body].
    destruct prev as [|m0 prev]; simpl; do 3 eexists; split; reflexivity.
  - unfold request_question, ChatPage.chat_request. cbn [body decode_body abind].
    change (optProp (VObj _) "messages") with
      (VArr (List.map (fun m0 => VObj [("role", VStr (ChatPage.role_name (ChatPage.role m0)));
                                       ("text", VStr (ChatPage.text m0))]) (prev ++ [m]))).
    cbn [array_items]. rewrite map_app. cbn [List.map].
    unfold extract_question, last_user. rewrite rev_app_distr. cbn [rev app].
    rewrite Hrole. reflexivity.
Qed.

Lemma handler_valid (w : World) (req : Request) (st : State) :
  valid_request w req ->
  exists e,
    status (fst (handler w req st)) = 200 /\ json (fst (handler w req st)) = AnswerBody e.
Proof.
  intros (Hpost & b & m & ms & Hbody & Hmessages).
  destruct (valid_body b m ms Hmessages) as [Hgood _].
  destruct (handler_cases w req st Hpost)
    as [[Hraised _]|[(b' & Hb' & Hbad & _)|(b' & _ & _ & Hrun)]]; [congruence|congruence|].
  destruct Hrun as [[_ ->]|(q & c & a & live & _ & _ & _ & _ & _ & ->)];
    eexists; split; reflexivity.
Qed.

(** What the page makes of an envelope that arrives with status 200. *)
Lemma callAuroraChatApi_envelope (fetch : Request -> fetch_reply)
  (conversation : list ChatPage.ChatMessage) (question : string)
  (r : Response) (e : Envelope.t) :
  fetch (ChatPage.chat_request conversation) = served r ->
  status r = 200 ->
  json r = AnswerBody e ->
  ChatPage.callAuroraChatApi fetch conversation question
  = {| ChatPage.Reply.text := VStr (Envelope.text e);
       ChatPage.Reply.confidence := Envelope.confidence e;
       ChatPage.Reply.sources :=
         Some (ChatPage.parse_sources (VArr (List.map source_json (Envelope.sources e))));
       ChatPage.Reply.usedSearch :=
         (Envelope.usedSearch e
          && negb (Nat.eqb (List.length (ChatPage.parse_sources
                                           (VArr (List.map source_json (Envelope.sources e))))) 0))%bool |}.
Proof.
  intros Hfetch Hstatus Hjson. unfold ChatPage.callAuroraChatApi.
  rewrite Hfetch. unfold served. rewrite Hstatus, Hjson.
  destruct e as [text0 confidence0 fallback0 sources0 usedSearch0 live0].
  destruct fallback0 as [f|]; destruct live0 as [live|]; reflexivity.
Qed.

Lemma parse_source_json (r : WebSearchResult) (u : string) :
  result_ok r ->
  url r = VStr u ->
  ChatPage.parse_source (source_json r)
  = {| ChatPage.title := title r; ChatPage.url := u; ChatPage.snippet := snippet r |}.
Proof.
  intros [Htitle _] Hurl. destruct r as [t0 u0 s0]. simpl in *. subst u0.
  destruct t0; try discriminate. destruct s0; reflexivity.
Qed.

Lemma handler_sources_wf (w : World) (req : Request) (st : State) (e : Envelope.t) :
  cache_results_ok (searchCache st) ->
  json (fst (handler w req st)) = AnswerBody e ->
  Forall result_ok (Envelope.sources e).
Proof.
  intros Hok He. destruct (handler_sources w req st e He) as [->|(q & _ & ->)].
  - constructor.
  - apply Forall_firstn. now apply (lookup_results_ok w q st Hok).
Qed.

(** X25.  End to end: the page posts a conversation that ends with the
    message the user typed; the handler takes that message's text as the
    question and answers with status 200; and the page shows the text and the
    confidence of the handler's envelope, not its mock. *)
Theorem page_shows_handler_answer (w : World) (st : State)
  (prev : list ChatPage.ChatMessage) (m : ChatPage.ChatMessage) (question : string) :
  ChatPage.role m = ChatPage.user ->
  request_question w (ChatPage.chat_request (prev ++ [m])) = Done (VStr (ChatPage.text m)) /\
  exists e,
    status (fst (handler w (ChatPage.chat_request (prev ++ [m])) st)) = 200 /\
    json (fst (handler w (ChatPage.chat_request (prev ++ [m])) st)) = AnswerBody e /\
    ChatPage.Reply.text (ChatPage.callAuroraChatApi (endpoint w st) (prev ++ [m]) question)
    = VStr (Envelope.text e) /\
    ChatPage.Reply.confidence
      (ChatPage.callAuroraChatApi (endpoint w st) (prev ++ [m]) question)
    = Envelope.confidence e /\
    ChatPage.Reply.sources
      (ChatPage.callAuroraChatApi (endpoint w st) (prev ++ [m]) question)
    <> None.
Proof.
  intros Hrole. destruct (chat_request_question w prev m Hrole) as [Hvalid Hquestion].
  split; [exact Hquestion|].
  destruct (handler_valid w _ st Hvalid) as (e & Hstatus & Hjson).
  exists e. split; [exact Hstatus|]. split; [exact Hjson|].
  rewrite (callAuroraChatApi_envelope (endpoint w st) (prev ++ [m]) question
             _ e eq_refl Hstatus Hjson).
  split; [reflexivity|]. split; [reflexivity|discriminate].
Qed.

Lemma page_shows_handler_answer_witness :
  request_question full_world
    (ChatPage.chat_request
       ([typed ChatPage.ai "Hello."] ++ [typed ChatPage.user "What is the latest news on rates?"]))
  = Done (VStr "What is the latest news on rates?").
Proof.
  apply (proj1 (page_shows_handler_answer full_world (initial_state 0)
                  [typed ChatPage.ai "Hello."]
                  (typed ChatPage.user "What is the latest news on rates?")
                  "What is the latest news on rates?" eq_refl)).
Defined.

(** X26.  As long as the store holds only well-formed result sets, the
    sources the page lists are exactly the sources of the handler's envelope
    whose url is not the placeholder [#], with the same title, url and
    snippet; and the page marks [usedSearch] exactly when the handler did and
    at least one source is listed. *)
Theorem page_sources_from_handler (w : World) (st : State)
  (prev : list ChatPage.ChatMessage) (m : ChatPage.ChatMessage) (question : string)
  (e : Envelope.t) :
  ChatPage.role m = ChatPage.user ->
  cache_results_ok (searchCache st) ->
  json (fst (handler w (ChatPage.chat_request (prev ++ [m])) st)) = AnswerBody e ->
  exists l,
    ChatPage.Reply.sources
      (ChatPage.callAuroraChatApi (endpoint w st) (prev ++ [m]) question) = Some l /\
    (forall s, In s l <->
               ChatPage.url s <> "#" /\ exists r, In r (Envelope.sources e) /\ listed r s) /\
    (List.length l <= 4)%nat /\
    (ChatPage.Reply.usedSearch
       (ChatPage.callAuroraChatApi (endpoint w st) (prev ++ [m]) question) = true
     <-> Envelope.usedSearch e = true /\ l <> []).
Proof.
  intros Hrole Hok Hjson.
  destruct (chat_request_question w prev m Hrole) as [Hvalid _].
  destruct (handler_valid w _ st Hvalid) as (e' & Hstatus & Hjson').
  rewrite (callAuroraChatApi_envelope (endpoint w st) (prev ++ [m]) question
             _ e eq_refl Hstatus Hjson).
  cbn [ChatPage.Reply.sources ChatPage.Reply.usedSearch].
  pose proof (handler_sources_wf w _ st e Hok Hjson) as Hwf.
  assert (Hlen : (List.length (Envelope.sources e) <= 4)%nat).
  { destruct (handler_sources w _ st e Hjson) as [->|(q & _ & ->)];
      [simpl; lia|apply firstn_le_length]. }
  eexists. split; [reflexivity|]. split; [|split].
  - intros s. unfold ChatPage.parse_sources. rewrite filter_In, map_map, in_map_iff.
    rewrite negb_true_iff, String.eqb_neq. rewrite Forall_forall in Hwf. split.
    + intros [(r & <- & Hin) Hurl]. split; [exact Hurl|]. exists r. split; [exact Hin|].
      destruct (Hwf r Hin) as [Ht Hu]. destruct (url r) as [| | | |u| |] eqn:Hr; try discriminate.
      rewrite (parse_source_json r u (conj Ht (eq_trans (f_equal is_string Hr) eq_refl)) Hr).
      unfold listed. simpl. now rewrite Hr.
    + intros (Hurl & r & Hin & Hu & Ht & Hs). split; [|exact Hurl].
      exists r. split; [|exact Hin].
      rewrite (parse_source_json r (ChatPage.url s) (Hwf r Hin) Hu).
      destruct s. simpl in *. congruence.
  - unfold ChatPage.parse_sources.
    etransitivity; [apply filter_length_le|]. now rewrite !length_map.
  - rewrite andb_true_iff, negb_true_iff, Nat.eqb_neq.
    destruct (ChatPage.parse_sources _); simpl; split; intros [H1 H2];
      (split; [exact H1|]); try discriminate; try lia; now contradiction H2.
Qed.

Lemma page_sources_from_handler_witness :
  exists e l,
    json (fst (handler placeholder_world
                 (ChatPage.chat_request ([] ++ [typed ChatPage.user "latest news"]))
                 (initial_state 0))) = AnswerBody e /\
    Envelope.usedSearch e = true /\
    ChatPage.Reply.sources
      (ChatPage.callAuroraChatApi (endpoint placeholder_world (initial_state 0))
         ([] ++ [typed ChatPage.user "latest news"]) "latest news") = Some l /\
    l = [] /\
    ChatPage.Reply.usedSearch
      (ChatPage.callAuroraChatApi (endpoint placeholder_world (initial_state 0))
         ([] ++ [typed ChatPage.user "latest news"]) "latest news") = false.
Proof.
  eexists.
  destruct (page_sources_from_handler placeholder_world (initial_state 0)
              [] (typed ChatPage.user "latest news") "latest news"
              _ eq_refl (Forall_nil _) eq_refl) as (l & Hl & _ & _ & Hused).
  exists l. split; [reflexivity|]. split; [reflexivity|]. split; [exact Hl|].
  assert (Hnil : l = []) by (vm_compute in Hl; now injection Hl as <-).
  split; [exact Hnil|].
  destruct (ChatPage.Reply.usedSearch _); [|reflexivity].
  destruct (proj1 Hused eq_refl) as [_ Hne]. now contradiction Hne.
Defined.
